(** * AIC-Optimizer: the wiki scraper [get_data.py]

    A shallow embedding of the data-extraction and aggregation logic of
    [get_data.py], and the properties of it that the specification states.

    Conventions of the embedding:
    - a Python [str] is a [string] (a sequence of bytes; ASCII is assumed
      where Python looks at character classes);
    - a Python [int] is a [Z];
    - [None] is the [None] of an option type;
    - code that can raise returns a [result], an error monad over the
      exceptions the script can meet;
    - the [items] dict is an association list in insertion order (its
      iteration order is observable), the other dicts are [gmap]s;
    - an lxml element is an [element] carrying tag, attributes, text,
      children and tail, and every XPath query of the script is a function
      on it. *)

From Stdlib Require Import Ascii ZArith.
From stdpp Require Import gmap strings list pretty.

(** ** Exceptions and the error monad *)

Inductive exn : Set :=
  | AttributeError   (* [None.strip()], [None.replace(...)] *)
  | IndexError       (* [l[i]] out of range *)
  | ValueError       (* [int("x")] *)
  | KeyError         (* [d[k]] for an absent key *)
  | OSError          (* a failed write *)
  | NetworkError.    (* a failed request *)

Inductive result (A : Type) : Type :=
  | Ok (a : A)
  | Raise (e : exn).
Arguments Ok {A} a.
Arguments Raise {A} e.

Global Instance result_ret : MRet result := λ A a, Ok a.
Global Instance result_bind : MBind result := λ A B f m,
  match m with
  | Ok a => f a
  | Raise e => Raise e
  end.

Definition is_Ok {A} (m : result A) : Prop := ∃ a, m = Ok a.
Definition raises {A} (m : result A) : Prop := ∃ e, m = Raise e.

(** [for x in l: acc = body(acc, x)], stopping at the first exception. *)
Fixpoint for_each {A S} (body : S → A → result S) (l : list A) (s : S)
    : result S :=
  match l with
  | [] => Ok s
  | x :: l' => s' ← body s x; for_each body l' s'
  end.

(** ** Python built-ins on [str] and [list] *)

Module Py.

(** [l[i]] for [i >= 0]. *)
Definition getitem {A} (l : list A) (i : nat) : result A :=
  match l !! i with
  | Some x => Ok x
  | None => Raise IndexError
  end.

(** [l[-1]]. *)
Definition getitem_last {A} (l : list A) : result A :=
  match last l with
  | Some x => Ok x
  | None => Raise IndexError
  end.

(** Truthiness of an [Optional[str]]: [None] and [""] are false. *)
Definition truthy (o : option string) : bool :=
  match o with
  | Some (String _ _) => true
  | _ => false
  end.

Fixpoint drop (n : nat) (s : string) : string :=
  match n, s with
  | S n', String _ s' => drop n' s'
  | _, _ => s
  end.

(** [s.partition(sep)]: the text before the leftmost occurrence of [sep]
    and the text after it; [None] when [sep] does not occur. *)
Fixpoint cut (sep s : string) : option (string * string) :=
  if String.prefix sep s then Some ("", drop (String.length sep) s)
  else
    match s with
    | "" => None
    | String c s' =>
        match cut sep s' with
        | Some (a, b) => Some (String c a, b)
        | None => None
        end
    end.

(** [sub in s]. *)
Definition contains (sub s : string) : bool :=
  match cut sub s with Some _ => true | None => false end.

(** [s.split(sep)] for a non-empty [sep]: cut at the leftmost occurrence,
    go on in the rest. The fuel bounds the number of cuts; the length of
    [s] always suffices ([split_fuel_enough]). *)
Fixpoint split_fuel (n : nat) (sep s : string) : list string :=
  match n with
  | O => [s]
  | S n' =>
      match cut sep s with
      | Some (a, b) => a :: split_fuel n' sep b
      | None => [s]
      end
  end.

Definition split (sep s : string) : list string :=
  split_fuel (String.length s) sep s.

(** [s.replace(" ", "_")]. *)
Fixpoint replace_space (s : string) : string :=
  match s with
  | "" => ""
  | String c s' =>
      String (if Ascii.eqb c " " then "_"%char else c) (replace_space s')
  end.

(** [str.isspace] on ASCII: TAB, LF, VT, FF, CR (9 to 13), FS, GS, RS, US
    and the space (28 to 32). *)
Definition isspace (c : ascii) : bool :=
  let n := N_of_ascii c in
  bool_decide ((9 ≤ n ≤ 13)%N ∨ (28 ≤ n ≤ 32)%N).

Fixpoint lstrip (s : string) : string :=
  match s with
  | "" => ""
  | String c s' => if isspace c then lstrip s' else s
  end.

Fixpoint rstrip (s : string) : string :=
  match s with
  | "" => ""
  | String c s' =>
      match rstrip s' with
      | "" => if isspace c then "" else String c ""
      | r => String c r
      end
  end.

(** [s.strip()]. *)
Definition strip (s : string) : string := rstrip (lstrip s).

(** [sep.join(l)]. *)
Fixpoint join (sep : string) (l : list string) : string :=
  match l with
  | [] => ""
  | [x] => x
  | x :: l' => x +:+ sep +:+ join sep l'
  end.

Definition digit (c : ascii) : option Z :=
  let n := Z.of_N (N_of_ascii c) in
  if bool_decide (48 ≤ n ≤ 57)%Z then Some (n - 48)%Z else None.

(** The digits of an integer literal: decimal digits, single underscores
    allowed between two digits. [prev] tells whether the previous
    character was a digit. *)
Fixpoint int_digits (acc : Z) (prev : bool) (s : string) : option Z :=
  match s with
  | "" => if prev then Some acc else None
  | String c s' =>
      if Ascii.eqb c "_" then
        if prev then int_digits acc false s' else None
      else
        match digit c with
        | Some d => int_digits (10 * acc + d)%Z true s'
        | None => None
        end
  end.

(** [int(s)]: surrounding whitespace, an optional sign, digits. *)
Definition int (s : string) : result Z :=
  let parsed :=
    match strip s with
    | String "+" r => int_digits 0%Z false r
    | String "-" r => Z.opp <$> int_digits 0%Z false r
    | r => int_digits 0%Z false r
    end in
  match parsed with
  | Some z => Ok z
  | None => Raise ValueError
  end.

(** [str(n)] for a natural number. *)
Definition str_of_nat (n : nat) : string := pretty n.

End Py.

(** ** Image helpers *)

(** [normalize_item_image_url], lines 27-36. *)
Definition normalize_item_image_url (src : string) : result string :=
  if negb (Py.contains "/thumb/" src) then Ok src
  else
    let parts := Py.split "/thumb/" src in
    rest ← Py.getitem parts 1;
    filename ← Py.getitem (Py.split "/" rest) 0;
    query ←
      (if Py.contains "?" src then
         q ← Py.getitem (Py.split "?" src) 1; Ok ("?" +:+ q)
       else Ok "");
    Ok ("/images/" +:+ filename +:+ query).

(** ** The element tree

    An lxml element: tag, attributes, the text before the first child
    ([None] when there is no such text node), the children, and the text
    after the closing tag (the tail). *)

#[warnings="-register-all"]
Inductive element : Type :=
  Element (tag : string) (attrib : list (string * string))
          (text : option string) (children : list element)
          (tail : option string).

Definition el_tag (e : element) : string :=
  match e with Element t _ _ _ _ => t end.
Definition el_attrib (e : element) : list (string * string) :=
  match e with Element _ a _ _ _ => a end.
Definition el_text (e : element) : option string :=
  match e with Element _ _ t _ _ => t end.
Definition el_children (e : element) : list element :=
  match e with Element _ _ _ c _ => c end.
Definition el_tail (e : element) : option string :=
  match e with Element _ _ _ _ t => t end.

Fixpoint assoc (k : string) (l : list (string * string)) : option string :=
  match l with
  | [] => None
  | (k', v) :: l' => if decide (k = k') then Some v else assoc k l'
  end.

(** [e.get(k)]. *)
Definition el_get (e : element) (k : string) : option string :=
  assoc k (el_attrib e).

(** [e.text.strip()]: an [AttributeError] when the element has no text. *)
Definition text_strip (e : element) : result string :=
  match el_text e with
  | Some t => Ok (Py.strip t)
  | None => Raise AttributeError
  end.

(** *** XPath steps *)

Module XPath.

(** [descendant::*], in document order. *)
Fixpoint descendants (e : element) : list element :=
  match e with
  | Element _ _ _ cs _ =>
      (fix go (l : list element) : list element :=
         match l with
         | [] => []
         | c :: l' => c :: descendants c ++ go l'
         end) cs
  end.

(** [//*]: every element of the document whose root is [tree]. *)
Definition all (tree : element) : list element :=
  tree :: descendants tree.

(** The elements that have a proper ancestor satisfying [P], in document
    order and without repetition: the node set of [//*[P]//*]. [inside]
    tells that such an ancestor was met above [e]. *)
Fixpoint under (P : element → bool) (inside : bool) (e : element)
    : list element :=
  match e with
  | Element _ _ _ cs _ =>
      let ins := inside || P e in
      (fix go (l : list element) : list element :=
         match l with
         | [] => []
         | c :: l' => (if ins then [c] else []) ++ under P ins c ++ go l'
         end) cs
  end.

(** [.//text()]: the text nodes below [e], in document order. *)
Fixpoint texts (e : element) : list string :=
  match e with
  | Element _ _ t cs _ =>
      option_list t ++
      (fix go (l : list element) : list string :=
         match l with
         | [] => []
         | c :: l' => texts c ++ option_list (el_tail c) ++ go l'
         end) cs
  end.

(** [text()]: the text nodes that are children of [e]. *)
Definition child_texts (e : element) : list string :=
  option_list (el_text e) ++ omap el_tail (el_children e).

Definition is_tag (t : string) (e : element) : bool :=
  bool_decide (el_tag e = t).

(** [@class="c"]. *)
Definition class_is (c : string) (e : element) : bool :=
  bool_decide (el_get e "class" = Some c).

(** [contains(@class, "c")]; a missing attribute is the empty string. *)
Definition class_contains (c : string) (e : element) : bool :=
  Py.contains c (default "" (el_get e "class")).

(** [./t]: the children with tag [t]. *)
Definition child (t : string) (e : element) : list element :=
  filter (λ c, is_tag t c = true) (el_children e).

(** [./t[i]], [i] counted from 1. *)
Definition child_at (t : string) (i : nat) (e : element) : list element :=
  option_list (child t e !! pred i).

End XPath.

(** [extract_main_image], lines 39-42:
    [//figure[contains(@class,"pi-image")]//img/@src]. *)
Definition main_image_srcs (tree : element) : list string :=
  omap (λ e, el_get e "src")
    (filter (λ e, XPath.is_tag "img" e = true)
       (XPath.under
          (λ e, XPath.is_tag "figure" e && XPath.class_contains "pi-image" e)
          false tree)).

Definition extract_main_image (tree : element) : option string :=
  head (main_image_srcs tree).

(** [extract_item_images], lines 45-46:
    [//div[@class="item-tooltip"]//img/@src]. *)
Definition extract_item_images (tree : element) : list string :=
  omap (λ e, el_get e "src")
    (filter (λ e, XPath.is_tag "img" e = true)
       (XPath.under
          (λ e, XPath.is_tag "div" e && XPath.class_is "item-tooltip" e)
          false tree)).

(** ** The general-information table, lines 52-67 *)

(** [section[h2[text()="General Information"]]]. *)
Definition is_general_section (e : element) : bool :=
  XPath.is_tag "section" e &&
  existsb
    (λ h, bool_decide ("General Information" ∈ XPath.child_texts h))
    (XPath.child "h2" e).

(** [//section[...]//div[contains(@class, "pi-data")]]. *)
Definition data_items (tree : element) : list element :=
  filter
    (λ e, (XPath.is_tag "div" e && XPath.class_contains "pi-data" e) = true)
    (XPath.under is_general_section false tree).

(** [./h3[contains(@class, "pi-data-label")]]. *)
Definition label_el (item : element) : list element :=
  filter (λ e, XPath.class_contains "pi-data-label" e = true)
    (XPath.child "h3" item).

(** [./div[contains(@class, "pi-data-value")]]. *)
Definition value_elements (item : element) : list element :=
  filter (λ e, XPath.class_contains "pi-data-value" e = true)
    (XPath.child "div" item).

(** [label_el[0].text.strip() if label_el else None]. *)
Definition row_label (item : element) : result (option string) :=
  match label_el item with
  | [] => Ok None
  | e :: _ => t ← text_strip e; Ok (Some t)
  end.

(** [" ".join(value_elements[0].xpath(".//text()")).strip()], or [None]. *)
Definition row_value (item : element) : option string :=
  match value_elements item with
  | [] => None
  | e :: _ => Some (Py.strip (Py.join " " (XPath.texts e)))
  end.

(** One turn of the loop of [get_general_info]. *)
Definition general_info_step (info : gmap string string) (item : element)
    : result (gmap string string) :=
  label ← row_label item;
  let value := row_value item in
  if Py.truthy label && Py.truthy value
  then Ok (<[default "" label := default "" value]> info)
  else Ok info.

Definition get_general_info (tree : element) : result (gmap string string) :=
  for_each general_info_step (data_items tree) ∅.

(** ** The recipe table, lines 97-138 *)

(** An entry of [input_materials], and [output_product]. *)
Record raw_material : Type := RawMaterial {
  name : option string;          (* ["name"]: the [data-name] attribute *)
  quantity : Z                   (* ["quantity"] *)
}.

(** An entry of the list [get_recipes] returns. *)
Record raw_recipe : Type := RawRecipe {
  inputs : list raw_material;
  outputs : list raw_material;
  time : string
}.

(** [(//table[@class="mrfz-wtable"])[1]/tbody/tr[position() > 1]]. *)
Definition recipe_rows (tree : element) : list element :=
  match
    filter
      (λ e, (XPath.is_tag "table" e && XPath.class_is "mrfz-wtable" e) = true)
      (XPath.all tree)
  with
  | [] => []
  | table :: _ =>
      concat (map (λ tbody, drop 1 (XPath.child "tr" tbody))
                (XPath.child "tbody" table))
  end.

(** [./td[i]//div[@class=c]]. *)
Definition cell_divs (i : nat) (c : string) (row : element) : list element :=
  concat
    (map (λ td,
       filter (λ e, (XPath.is_tag "div" e && XPath.class_is c e) = true)
         (XPath.descendants td))
       (XPath.child_at "td" i row)).

(** [{"name": name_el.get("data-name"),
      "quantity": int(count_el.text.strip())}]. *)
Definition material (name_el count_el : element) : result raw_material :=
  t ← text_strip count_el;
  q ← Py.int t;
  Ok (RawMaterial (el_get name_el "data-name") q).

(** The body of the loop of [get_recipes]: [None] stands for [continue]. *)
Definition get_recipes_row (row : element) : result (option raw_recipe) :=
  let input_name_elements := cell_divs 1 "item-tooltip" row in
  let input_count_elements := cell_divs 1 "item-count" row in
  match input_name_elements with
  | [] => Ok None
  | _ :: _ =>
      input_materials ←
        mapM (λ p, material p.1 p.2)
          (zip input_name_elements input_count_elements);
      let output_name_elements := cell_divs 2 "item-tooltip" row in
      let output_count_elements := cell_divs 2 "item-count" row in
      match output_name_elements with
      | [] => Ok None
      | name_el :: _ =>
          count_el ← Py.getitem output_count_elements 0;
          output_product ← material name_el count_el;
          match XPath.child_at "td" 3 row with
          | [] => Ok None
          | time_el :: _ =>
              t ← text_strip time_el;
              Ok (Some (RawRecipe input_materials [output_product] t))
          end
      end
  end.

Definition get_recipes_step (recipes : list raw_recipe) (row : element)
    : result (list raw_recipe) :=
  r ← get_recipes_row row;
  Ok (recipes ++ option_list r).

Definition get_recipes (tree : element) : result (list raw_recipe) :=
  for_each get_recipes_step (recipe_rows tree) [].

(** ** The exported records *)

(** An Item record; [name] is the dict [{"en": ...}]. *)
Record item : Type := Item {
  item_id : string;
  item_name_en : string;
  item_image : option string;
  item_tier : option string
}.

(** [general_info.get("Power", 0)]: the scraped text, or the number 0. *)
Inductive power : Type :=
  | PowerText (s : string)
  | PowerInt (z : Z).

(** A Facility record. *)
Record facility : Type := Facility {
  facility_id : string;
  facility_name : string;
  facility_tier : option string;
  powerConsumption : power;
  supportedRecipes : list string;
  facility_image : option string
}.

(** An entry of a recipe's [inputs] and [outputs]. *)
Record item_amount : Type := ItemAmount {
  itemId : string;
  amount : Z
}.

(** A Recipe record. *)
Record recipe : Type := Recipe {
  recipe_id : string;
  facilityId : string;
  recipe_inputs : list item_amount;
  recipe_outputs : list item_amount;
  craftingTime : string
}.

(** ** The [items] dict: keys in insertion order *)

Module ODict.
Section odict.
Context {V : Type}.

(** [d.get(k)]. *)
Fixpoint lookup (k : string) (d : list (string * V)) : option V :=
  match d with
  | [] => None
  | (k', v) :: d' => if decide (k = k') then Some v else lookup k d'
  end.

(** [k in d]. *)
Definition mem (k : string) (d : list (string * V)) : bool :=
  match lookup k d with Some _ => true | None => false end.

(** [d.setdefault(k, v)]: a new key goes to the end. *)
Fixpoint setdefault (k : string) (v : V) (d : list (string * V))
    : list (string * V) :=
  match d with
  | [] => [(k, v)]
  | (k', v') :: d' =>
      if decide (k = k') then d else (k', v') :: setdefault k v d'
  end.

(** An update in place of the value stored under [k]. *)
Fixpoint alter (f : V → V) (k : string) (d : list (string * V))
    : list (string * V) :=
  match d with
  | [] => []
  | (k', v) :: d' =>
      if decide (k = k') then (k', f v) :: d' else (k', v) :: alter f k d'
  end.

(** [d.keys()], [d.values()]. *)
Definition keys (d : list (string * V)) : list string := d.*1.
Definition values (d : list (string * V)) : list V := d.*2.
End odict.
End ODict.

(** ** The pipeline, lines 177-315 *)

Definition BASE_URL : string := "https://endfield.wiki.gg".

(** What [get_facility_and_recipes] returns for a facility (the parsed tree
    itself, which the caller does not use, is left out). *)
Record facility_page : Type := FacilityPage {
  facility_img_src : option string;
  item_img_srcs : list string;
  general_info : gmap string string;
  facility_recipes : list raw_recipe
}.

(** The four accumulators of [run]. An image job is a pair of a URL and a
    destination path. *)
Record state : Type := State {
  items : list (string * item);
  facilities : gmap string facility;
  recipes : gmap string recipe;
  img_jobs : list (string * string)
}.

Definition initial_state : state := State [] ∅ ∅ [].

Definition set_image (img : string) (it : item) : item :=
  Item (item_id it) (item_name_en it) (Some img) (item_tier it).

Definition set_tier (t : option string) (it : item) : item :=
  Item (item_id it) (item_name_en it) (item_image it) t.

Definition append_supported (rid : string) (f : facility) : facility :=
  Facility (facility_id f) (facility_name f) (facility_tier f)
    (powerConsumption f) (supportedRecipes f ++ [rid]) (facility_image f).

(** [m["name"].replace(" ", "_")] needs a name: [None.replace] raises. *)
Definition material_name (m : raw_material) : result string :=
  match name m with
  | Some n => Ok n
  | None => Raise AttributeError
  end.

(** [items.setdefault(item_id, {...})], lines 224-233 and 235-244. *)
Definition setdefault_item (its : list (string * item)) (m : raw_material)
    : result (list (string * item)) :=
  n ← material_name m;
  let item_id := Py.replace_space n in
  Ok (ODict.setdefault item_id (Item item_id n None None) its).

(** The body of the loop of lines 222-244. *)
Definition add_recipe_items (its : list (string * item)) (r : raw_recipe)
    : result (list (string * item)) :=
  its' ← for_each setdefault_item (inputs r) its;
  for_each setdefault_item (outputs r) its'.

(** [{"itemId": m["name"].replace(" ", "_"), "amount": m["quantity"]}]. *)
Definition item_amount_of (m : raw_material) : result item_amount :=
  n ← material_name m;
  Ok (ItemAmount (Py.replace_space n) (quantity m)).

(** [f"{facility_id}__{first_out_id}__{seq}"]. *)
Definition make_recipe_id (fid first_out_id : string) (seq : nat) : string :=
  fid +:+ "__" +:+ first_out_id +:+ "__" +:+ Py.str_of_nat seq.

(** The body of the loop of lines 248-267, on the pair of [recipe_count]
    and the accumulators. *)
Definition add_recipe (fid : string) (acc : gmap string nat * state)
    (r : raw_recipe) : result (gmap string nat * state) :=
  let recipe_count := acc.1 in
  let st := acc.2 in
  out ← Py.getitem (outputs r) 0;
  n ← material_name out;
  let first_out_id := Py.replace_space n in
  let seq := (default 0 (recipe_count !! first_out_id) + 1)%nat in
  let recipe_id := make_recipe_id fid first_out_id seq in
  ins ← mapM item_amount_of (inputs r);
  outs ← mapM item_amount_of (outputs r);
  let rec := Recipe recipe_id fid ins outs (time r) in
  match facilities st !! fid with
  | None => Raise KeyError
  | Some f =>
      Ok (<[first_out_id := seq]> recipe_count,
          State (items st)
            (<[fid := append_supported recipe_id f]> (facilities st))
            (<[recipe_id := rec]> (recipes st))
            (img_jobs st))
  end.

Section pipeline.

(** Library functions the script calls and whose results no property
    below looks into: [urllib.parse.urljoin], [urllib.parse.unquote] and
    [pathlib.Path(...).stem]. *)
Variable urljoin : string → string → string.
Variable unquote : string → string.
Variable stem : string → string.

(** [src.split("/")[-1].split("?")[0]], then [unquote]. *)
Definition image_filename (src : string) : result string :=
  last_segment ← Py.getitem_last (Py.split "/" src);
  filename ← Py.getitem (Py.split "?" last_segment) 0;
  Ok (unquote filename).

(** [Path(filename).stem.replace(" ", "_")], line 277. *)
Definition thumbnail_item_id (filename : string) : string :=
  Py.replace_space (stem filename).

(** The body of the loop of lines 270-279. *)
Definition add_item_image (st : state) (src : string) : result state :=
  full_src ← normalize_item_image_url src;
  let full_url := urljoin BASE_URL full_src in
  filename ← image_filename full_src;
  let img_path := "export/images/items/" +:+ filename in
  let jobs := img_jobs st ++ [(full_url, img_path)] in
  let item_id := thumbnail_item_id filename in
  let its :=
    if ODict.mem item_id (items st)
    then ODict.alter (set_image ("images/items/" +:+ filename)) item_id
           (items st)
    else items st in
  Ok (State its (facilities st) (recipes st) jobs).

(** The body of the loop of lines 193-279. *)
Definition process_facility (st : state) (p : string * facility_page)
    : result state :=
  let facility_name := p.1 in
  let page := p.2 in
  let facility_id := Py.replace_space facility_name in
  let power :=
    match general_info page !! "Power" with
    | Some s => PowerText s
    | None => PowerInt 0%Z
    end in
  let tier := general_info page !! "Tier" in
  let has_image := Py.truthy (facility_img_src page) in
  let jobs :=
    if has_image
    then img_jobs st ++
           [(urljoin BASE_URL (default "" (facility_img_src page)),
             "export/images/facilities/" +:+ facility_id +:+ ".png")]
    else img_jobs st in
  let fac :=
    Facility facility_id facility_name tier power []
      (if has_image
       then Some ("images/facilities/" +:+ facility_id +:+ ".png")
       else None) in
  let st1 :=
    State (items st) (<[facility_id := fac]> (facilities st))
      (recipes st) jobs in
  its ← for_each add_recipe_items (facility_recipes page) (items st1);
  acc ← for_each (add_recipe facility_id) (facility_recipes page)
          (∅, State its (facilities st1) (recipes st1) (img_jobs st1));
  for_each add_item_image (item_img_srcs page) acc.2.

(** Phase 2: the loop over [zip(facility_names, results)]. *)
Definition aggregate (facility_names : list string)
    (results : list facility_page) : result state :=
  for_each process_facility (zip facility_names results) initial_state.

(** Lines 288-298: what one item-page result does to its item, and the
    image jobs it queues. *)
Definition item_detail (it : item) (res : option string * gmap string string)
    : result (item * list (string * string)) :=
  let image_src := res.1 in
  let tier := res.2 !! "Tier" in
  let it1 := if Py.truthy tier then set_tier tier it else it in
  if Py.truthy image_src then
    let src := default "" image_src in
    filename ← image_filename src;
    Ok (set_image ("images/items/" +:+ filename) it1,
        [(urljoin BASE_URL src, "export/images/items/" +:+ filename)])
  else Ok (it1, []).

(** The loop over [zip(items.values(), results)], line 287: the records
    are updated in place, so keys and order stay. *)
Fixpoint apply_item_details (its : list (string * item))
    (results : list (option string * gmap string string))
    : result (list (string * item) * list (string * string)) :=
  match its, results with
  | (k, it) :: its', res :: results' =>
      d ← item_detail it res;
      rest ← apply_item_details its' results';
      Ok ((k, d.1) :: rest.1, d.2 ++ rest.2)
  | _, _ => Ok (its, [])
  end.

(** The wiki: the tree parsed from the page of a title, or the exception
    the request or the decoding raises. *)
Variable fetch : string → result element.

(** [get_facility_and_recipes], lines 144-155. *)
Definition get_facility_and_recipes (facility_name : string)
    : result facility_page :=
  tree ← fetch (Py.replace_space facility_name);
  let facility_image := extract_main_image tree in
  let item_images := extract_item_images tree in
  info ← get_general_info tree;
  rs ← get_recipes tree;
  Ok (FacilityPage facility_image item_images info rs).

(** [get_item_info_page], lines 161-171. *)
Definition get_item_info_page (item_name : string)
    : result (option string * gmap string string) :=
  tree ← fetch (Py.replace_space item_name);
  let image_src := extract_main_image tree in
  info ← get_general_info tree;
  Ok (image_src, info).

(** [item_names], line 283. *)
Definition item_names (its : list (string * item)) : list string :=
  item_name_en <$> ODict.values its.

(** Phase 3, lines 282-298. *)
Definition item_details (st : state) : result state :=
  results ← mapM get_item_info_page (item_names (items st));
  r ← apply_item_details (items st) results;
  Ok (State r.1 (facilities st) (recipes st) (img_jobs st ++ r.2)).

(** Phases 1 to 3 of [run], from the list of facility names on. *)
Definition run (facility_names : list string) : result state :=
  results ← mapM get_facility_and_recipes facility_names;
  st ← aggregate facility_names results;
  item_details st.

End pipeline.

(** ** The image fetcher, lines 19-24 *)

(** The part of the world [download_image] touches: the files on disk with
    their contents, the requests sent so far, and the lines printed. *)
Record world : Type := World {
  files : gmap string string;
  requests : list string;
  printed : list string
}.

Section download.

(** The remote side: the body served for a URL, or a failure. *)
Variable http_get : string → result string.
(** Whether a file can be created at a path. *)
Variable writable : string → bool.

Definition download_image (w : world) (url save_path : string)
    : result world :=
  if bool_decide (is_Some (files w !! save_path)) then Ok w
  else
    content ← http_get url;
    if writable save_path then
      Ok (World (<[save_path := content]> (files w))
            (requests w ++ [url])
            (printed w ++ ["[IMG] Saved " +:+ save_path]))
    else Raise OSError.

End download.

(** ** Definitions the statements use *)

(** *** URL normalization, in the words of the specification *)

(** The text before the first occurrence of [sep], all of [s] without one. *)
Definition before (sep s : string) : string :=
  match Py.cut sep s with
  | Some (a, _) => a
  | None => s
  end.

(** Everything after the first occurrence of [sep]. *)
Definition after (sep s : string) : string :=
  match Py.cut sep s with
  | Some (_, b) => b
  | None => ""
  end.

(** The original query string: from the first question mark to the end. *)
Definition query_string (src : string) : string :=
  match Py.cut "?" src with
  | Some (_, q) => "?" +:+ q
  | None => ""
  end.

(** Take everything after [/thumb/], keep only the first path segment, and
    rebuild as [/images/{filename}{original query string if any}]; a URL
    without [/thumb/] is returned unchanged. *)
Definition normalize_spec (src : string) : string :=
  if Py.contains "/thumb/" src
  then "/images/" +:+ before "/" (after "/thumb/" src) +:+ query_string src
  else src.

(** The query [normalize_item_image_url] appends: the text between the
    first and the second question mark. *)
Definition appended_query (src : string) : string :=
  if Py.contains "?" src then "?" +:+ before "?" (after "?" src) else "".

(** The first path segment of [s]: it ends at the first slash, and at
    the latest where the path ends, at a question mark or a hash sign. *)
Definition path_segment (s : string) : string :=
  before "/" (before "?" (before "#" s)).

(** The query string of a URL: from the first question mark up to the
    fragment. *)
Definition url_query (src : string) : string :=
  match Py.cut "?" (before "#" src) with
  | Some (_, q) => "?" +:+ q
  | None => ""
  end.

(** The specification once more, with the file name read as a path
    segment: [/images/], the original file name, the original query
    string. *)
Definition normalize_described (src : string) : string :=
  if Py.contains "/thumb/" src
  then "/images/" +:+ path_segment (after "/thumb/" src) +:+ url_query src
  else src.

(** A thumbnail URL without a size suffix after the file name. *)
Definition url_without_suffix : string :=
  "/images/thumb/Iron_Ore.png?foo=bar".

(** A thumbnail URL whose query string holds a question mark. *)
Definition url_two_marks : string :=
  "https://endfield.wiki.gg/images/thumb/Iron_Ore.png/64px-Iron_Ore.png?foo=bar?v=2".

(** *** A world to fetch an image in *)

Definition empty_world : world := World ∅ [] [].
Definition serve_png (url : string) : result string := Ok "PNG".
Definition any_path (path : string) : bool := true.

(** *** The general-information table, in the words of the specification *)

(** The entry of a row: the label is the trimmed text of the data-label
    element, the value is the text below the data-value element, joined by
    spaces and trimmed; a row missing either gives no entry. *)
Definition entry_of (item : element) : option (string * string) :=
  e ← head (label_el item);
  t ← el_text e;
  v ← head (value_elements item);
  let l := Py.strip t in
  let w := Py.strip (Py.join " " (XPath.texts v)) in
  if bool_decide (l ≠ "" ∧ w ≠ "") then Some (l, w) else None.

(** The mapping of a list of rows: a later row wins over an earlier one
    with the same label. *)
Definition info_of (rows : list element) : gmap string string :=
  foldl (λ info kv, <[kv.1 := kv.2]> info) ∅ (omap entry_of rows).

(** The data-label element of the row, if there is one, has a text node. *)
Definition label_has_text (item : element) : bool :=
  match label_el item with
  | e :: _ => bool_decide (is_Some (el_text e))
  | [] => true
  end.

Definition labels_have_text (rows : list element) : bool :=
  forallb label_has_text rows.

(** The row gives an entry for the label [k]. *)
Definition gives_label (k : string) (item : element) : bool :=
  bool_decide (fst <$> entry_of item = Some k).

(** [s] without its spaces. *)
Fixpoint unspaced (s : string) : string :=
  match s with
  | "" => ""
  | String c s' =>
      if Ascii.eqb c " " then unspaced s' else String c (unspaced s')
  end.

(** *** Pages to evaluate the parsers on *)

Definition leaf (tag : string) (attrib : list (string * string))
    (text : option string) : element :=
  Element tag attrib text [] None.

Definition node (tag : string) (attrib : list (string * string))
    (children : list element) : element :=
  Element tag attrib None children None.

Definition tooltip (data_name : string) : element :=
  node "div" [("class", "item-tooltip"); ("data-name", data_name)]
    [leaf "img" [("src", "/images/thumb/" +:+ data_name +:+ ".png/64px-"
                           +:+ data_name +:+ ".png")] None].

Definition item_count (text : option string) : element :=
  leaf "div" [("class", "item-count")] text.

Definition header_row : element :=
  node "tr" [] [leaf "th" [] (Some "Input"); leaf "th" [] (Some "Output");
                leaf "th" [] (Some "Time")].

Definition recipe_page (rows : list element) : element :=
  node "html" []
    [node "body" []
       [node "table" [("class", "mrfz-wtable")]
          [node "tbody" [] (header_row :: rows)]]].

(** A general-information section with one row. *)
Definition info_page (label : element) (value : element) : element :=
  node "html" []
    [node "body" []
       [node "section" []
          [leaf "h2" [] (Some "General Information");
           node "div" [("class", "pi-item pi-data")] [label; value]]]].

(** A row whose label element has no text node. *)
Definition page_label_without_text : element :=
  info_page
    (node "h3" [("class", "pi-data-label")] [leaf "b" [] (Some "Tier")])
    (leaf "div" [("class", "pi-data-value")] (Some "2")).

(** The row of the specification: label [" Tier "], value spans whose
    texts concatenate to [" 2 "]. *)
Definition page_tier : element :=
  info_page
    (leaf "h3" [("class", "pi-data-label pi-secondary-font")] (Some " Tier "))
    (node "div" [("class", "pi-data-value pi-font")]
       [leaf "span" [] (Some " "); leaf "span" [] (Some "2");
        leaf "span" [] (Some " ")]).

(** Recipe rows. *)

Definition cell (children : list element) : element := node "td" [] children.

Definition recipe_row (input output : list element) (time : option string)
    : element :=
  node "tr" [] [cell input; cell output; leaf "td" [] time].

(** The row of the specification's scenario: 2 Ore give 1 Ingot in 5s. *)
Definition row_ore_ingot : element :=
  recipe_row [tooltip "Ore"; item_count (Some "2")]
    [tooltip "Ingot"; item_count (Some "1")] (Some "5s").

(** Two input tooltips and a single count. *)
Definition row_count_missing : element :=
  recipe_row [tooltip "Ore"; item_count (Some "2"); tooltip "Coal"]
    [tooltip "Ingot"; item_count (Some "1")] (Some "5s").

(** An input count without a text node. *)
Definition row_count_without_text : element :=
  recipe_row [tooltip "Ore"; item_count None]
    [tooltip "Ingot"; item_count (Some "1")] (Some "5s").

(** No output tooltip, and an input count without a text node. *)
Definition row_no_output_bad_count : element :=
  recipe_row [tooltip "Ore"; item_count None] [] (Some "5s").

(** No output tooltip, the inputs well formed. *)
Definition row_no_output : element :=
  recipe_row [tooltip "Ore"; item_count (Some "2")] [] (Some "5s").

(** A wiki that serves one page under every title. *)
Definition serve (tree : element) (title : string) : result element :=
  Ok tree.

(** Stand-ins for the library functions, good enough on plain file names:
    [urljoin] concatenates, [unquote] decodes nothing, [stem] cuts at the
    first dot. *)
Definition urljoin_plain (base url : string) : string := base +:+ url.
Definition unquote_plain (s : string) : string := s.
Definition stem_plain (s : string) : string := before "." s.

(** *** Recipe ids *)

(** The id of the first output of a recipe, [None] where line 249 raises. *)
Definition first_out_id (r : raw_recipe) : option string :=
  out ← head (outputs r);
  n ← name out;
  Some (Py.replace_space n).

(** The sequence numbers the counter [recipe_count] hands out to a list of
    first-output ids. *)
Fixpoint number (count : gmap string nat) (outs : list string)
    : list (string * nat) :=
  match outs with
  | [] => []
  | o :: outs' =>
      let seq := default 0 (count !! o) + 1 in
      (o, seq) :: number (<[o := seq]> count) outs'
  end.

(** The ids the loop of lines 248-267 gives to the recipes of a facility,
    in order. *)
Definition recipe_ids_from (fid : string) (count : gmap string nat)
    (rs : list raw_recipe) : list string :=
  (λ p, make_recipe_id fid p.1 p.2) <$> number count (omap first_out_id rs).

Definition recipe_ids (fid : string) (rs : list raw_recipe) : list string :=
  recipe_ids_from fid ∅ rs.

(** How often [o] occurs in [outs]. *)
Definition occurrences (o : string) (outs : list string) : nat :=
  length (filter (λ x, x = o) outs).

Fixpoint all_digits (s : string) : bool :=
  match s with
  | "" => true
  | String c s' => bool_decide (is_Some (Py.digit c)) && all_digits s'
  end.

(** *** Relations between the accumulators before and after a loop *)

(** [f] with more supported recipes. *)
Definition with_supported (f : facility) (ids : list string) : facility :=
  Facility (facility_id f) (facility_name f) (facility_tier f)
    (powerConsumption f) (supportedRecipes f ++ ids) (facility_image f).

(** The Recipe record [r] was built under the id [rid] from the scraped
    recipe [raw] of the facility [fid]. *)
Definition recipe_of (fid rid : string) (raw : raw_recipe) (r : recipe)
    : Prop :=
  recipe_id r = rid ∧ facilityId r = fid ∧
  mapM item_amount_of (inputs raw) = Ok (recipe_inputs r) ∧
  mapM item_amount_of (outputs raw) = Ok (recipe_outputs r) ∧
  craftingTime r = time raw.

(** [its'] holds what [its] holds, and beyond that only entries as
    [setdefault] makes them: id, name, no image, no tier. *)
Definition extends (its its' : list (string * item)) : Prop :=
  (∀ k v, ODict.lookup k its = Some v → ODict.lookup k its' = Some v) ∧
  (∀ k v, ODict.lookup k its' = Some v →
     ODict.lookup k its = Some v ∨
     (ODict.lookup k its = None ∧
      ∃ n, k = Py.replace_space n ∧ v = Item k n None None)).

(** The items a scraped recipe refers to are keys of [its]. *)
Definition items_known (its : list (string * item)) (raw : raw_recipe)
    : Prop :=
  ∀ m, m ∈ inputs raw ++ outputs raw →
    ∃ n, name m = Some n ∧ Py.replace_space n ∈ ODict.keys its.

(** [its'] differs from [its] in image fields only. *)
Definition same_but_images (its its' : list (string * item)) : Prop :=
  ODict.keys its' = ODict.keys its ∧
  ∀ k it, ODict.lookup k its = Some it →
    ∃ it', ODict.lookup k its' = Some it' ∧
      item_id it' = item_id it ∧ item_name_en it' = item_name_en it ∧
      item_tier it' = item_tier it.

(** *** Invariants of the aggregation *)

(** Every item a recipe refers to is a key of [items]. *)
Definition items_cover_recipes (st : state) : Prop :=
  ∀ rid r ia, recipes st !! rid = Some r →
    ia ∈ recipe_inputs r ++ recipe_outputs r →
    itemId ia ∈ ODict.keys (items st).

(** Every facility record stems from a page of the list [ps], lists the
    ids given to the recipes of that page, and these are keys of
    [recipes]. *)
Definition facilities_from (ps : list (string * facility_page)) (st : state)
    : Prop :=
  ∀ fid f, facilities st !! fid = Some f →
    ∃ fname page, (fname, page) ∈ ps ∧ fid = Py.replace_space fname ∧
      facility_id f = fid ∧
      Forall (λ r, is_Some (first_out_id r)) (facility_recipes page) ∧
      supportedRecipes f = recipe_ids fid (facility_recipes page) ∧
      ∀ rid, rid ∈ supportedRecipes f → is_Some (recipes st !! rid).

(** Every recipe record is stored under its id and stems from a scraped
    recipe of a page of the list [ps]. *)
Definition recipes_from (ps : list (string * facility_page)) (st : state)
    : Prop :=
  ∀ rid r, recipes st !! rid = Some r →
    recipe_id r = rid ∧
    ∃ fname page raw, (fname, page) ∈ ps ∧ raw ∈ facility_recipes page ∧
      Forall (λ r, is_Some (first_out_id r)) (facility_recipes page) ∧
      rid ∈ recipe_ids (Py.replace_space fname) (facility_recipes page) ∧
      recipe_of (Py.replace_space fname) rid raw r.

(** The [supportedRecipes] of every facility record hold, once each,
    exactly the ids of the recipe records of that facility. *)
Definition supported_exact (st : state) : Prop :=
  ∀ fid f, facilities st !! fid = Some f →
    NoDup (supportedRecipes f) ∧
    ∀ rid, rid ∈ supportedRecipes f ↔
      ∃ r, recipes st !! rid = Some r ∧ facilityId r = facility_id f.

(** The facility ids of the pages, and the recipe ids given on all pages. *)
Definition facility_ids (ps : list (string * facility_page)) : list string :=
  (λ p, Py.replace_space p.1) <$> ps.

Definition all_recipe_ids (ps : list (string * facility_page))
    : list string :=
  concat ((λ p, recipe_ids (Py.replace_space p.1) (facility_recipes p.2))
            <$> ps).

(** *** Facility pages to aggregate *)

Definition one_to_one (input output time : string) : raw_recipe :=
  RawRecipe [RawMaterial (Some input) 1] [RawMaterial (Some output) 1] time.

(** A smelter with two recipes for the same first output. *)
Definition smelter_page : facility_page :=
  FacilityPage (Some "/images/Smelter.png")
    ["/images/thumb/Iron_Ore.png/64px-Iron_Ore.png?1a2b"] ∅
    [one_to_one "Iron Ore" "Iron Ingot" "2s";
     one_to_one "Iron Dust" "Iron Ingot" "4s"].

Definition grinder_page : facility_page :=
  FacilityPage None [] ∅ [one_to_one "Iron Ore" "Iron Dust" "3s"].

(** Two facilities whose recipes get the same id [A__B__C__1]. *)
Definition page_a : facility_page :=
  FacilityPage None [] ∅ [one_to_one "X" "B__C" "1s"].
Definition page_a_b : facility_page :=
  FacilityPage None [] ∅ [one_to_one "Y" "C" "1s"].

(** *** Items to run the image passes on *)

Definition iron_ore : item := Item "Iron_Ore" "Iron Ore" None (Some "1").

Definition state_with_iron_ore : state :=
  State [("Iron_Ore", iron_ore)] ∅ ∅ [].

(** *** The item-detail pass *)

(** What the result [res] of an item page makes of the item [it]: the tier
    of the page's general information when there is one, and, when the
    page has a main image, the path derived from it. *)
Definition detailed (unquote : string → string) (it : item)
    (res : option string * gmap string string) (it' : item) : Prop :=
  item_id it' = item_id it ∧ item_name_en it' = item_name_en it ∧
  item_tier it' =
    match res.2 !! "Tier" with
    | Some t => Some t
    | None => item_tier it
    end ∧
  if Py.truthy res.1
  then ∃ filename,
         image_filename unquote (default "" res.1) = Ok filename ∧
         item_image it' = Some ("images/items/" +:+ filename)
  else item_image it' = item_image it.

(** An item page with a main image and a tier. *)
Definition item_page : element :=
  node "html" []
    [node "body" []
       [node "figure" [("class", "pi-item pi-image")]
          [leaf "img" [("src", "/images/Iron_Ore_icon.png?9f")] None];
        node "section" []
          [leaf "h2" [] (Some "General Information");
           node "div" [("class", "pi-item pi-data")]
             [leaf "h3" [("class", "pi-data-label")] (Some "Tier");
              leaf "div" [("class", "pi-data-value")] (Some "2")]]]].

(** An item that already has an image from a recipe thumbnail. *)
Definition state_with_thumbnail : state :=
  State [("Iron_Ore",
          Item "Iron_Ore" "Iron Ore" (Some "images/items/Iron_Ore.png") None)]
    ∅ ∅ [].

(** *** The scenario of the specification *)

(** What [get_recipes] makes of the row "2 Ore give 1 Ingot in 5s". *)
Definition ore_ingot_raw : raw_recipe :=
  RawRecipe [RawMaterial (Some "Ore") 2] [RawMaterial (Some "Ingot") 1] "5s".

(** The Recipe record of the scenario, for the facility [fid]. *)
Definition ore_ingot_recipe (fid : string) : recipe :=
  Recipe (make_recipe_id fid "Ingot" 1) fid
    [ItemAmount "Ore" 2] [ItemAmount "Ingot" 1] "5s".

(** The inputs of the row can be read: every paired count holds an
    integer. *)
Definition inputs_readable (row : element) : Prop :=
  is_Ok (mapM (λ p, material p.1 p.2)
           (zip (cell_divs 1 "item-tooltip" row)
                (cell_divs 1 "item-count" row))).

(** ** The list of facilities, lines 73-94 *)

(** [div[./div/text()=h]]: a [div] with a [div] child one of whose text
    nodes is [h]. *)
Definition has_heading (h : string) (e : element) : bool :=
  XPath.is_tag "div" e &&
  existsb (λ d, bool_decide (h ∈ XPath.child_texts d)) (XPath.child "div" e).

(** [following-sibling::*] of the elements of the child list [cs] that
    satisfy [P]; an element is listed once for every such element before
    it. *)
Fixpoint following_siblings (P : element → bool) (cs : list element)
    : list element :=
  match cs with
  | [] => []
  | c :: cs' => (if P c then cs' else []) ++ following_siblings P cs'
  end.

(** [div[@class='ranger-listbox']] and [a[@title]]. *)
Definition is_listbox (e : element) : bool :=
  XPath.is_tag "div" e && XPath.class_is "ranger-listbox" e.

Definition is_titled_link (e : element) : bool :=
  XPath.is_tag "a" e && bool_decide (is_Some (el_get e "title")).

(** [//div[./div/text()=h]/following-sibling::div[@class='ranger-listbox']]. *)
Definition listboxes (h : string) (tree : element) : list element :=
  p ← XPath.all tree;
  filter (λ e, is_listbox e = true)
    (following_siblings (has_heading h) (el_children p)).

(** The links of the query of lines 82-84 and 88-90. The query gives a
    node set; this list holds a link once for every way to reach it, which
    the set the titles are added to does not see. *)
Definition section_links (h : string) (tree : element) : list element :=
  box ← listboxes h tree;
  filter (λ e, is_titled_link e = true) (XPath.descendants box).

(** [link.get("title")] for every link. *)
Definition link_titles (links : list element) : list string :=
  omap (λ a, el_get a "title") links.

(** The set [facilities] when the two loops of lines 85-93 are done. *)
Definition facility_titles (tree : element) : gset string :=
  list_to_set (link_titles (section_links "Processing" tree)) ∪
  list_to_set (link_titles (section_links "Assembly" tree)).

(** [list(facilities)], line 94: the elements of the set, each once, in an
    order the language leaves open. *)
Definition enumerates (l : list string) (s : gset string) : Prop :=
  NoDup l ∧ list_to_set l = s.

Section entry.

Variable fetch : string → result element.

(** [get_facilities], up to the order of the list it returns. *)
Definition get_facilities : result (gset string) :=
  tree ← fetch "EFDB";
  Ok (facility_titles tree).

End entry.

(** *** The maps the aggregation builds *)

(** The list comprehensions of lines 257-264, empty where they raise. *)
Definition amounts (ms : list raw_material) : list item_amount :=
  match mapM item_amount_of ms with
  | Ok l => l
  | Raise _ => []
  end.

(** The Recipe record of lines 254-266. *)
Definition recipe_record (fid rid : string) (raw : raw_recipe) : recipe :=
  Recipe rid fid (amounts (inputs raw)) (amounts (outputs raw)) (time raw).

(** The Facility record of lines 210-219, with the recipe ids line 267
    appends. *)
Definition facility_record (fname : string) (page : facility_page)
    : facility :=
  let fid := Py.replace_space fname in
  Facility fid fname (general_info page !! "Tier")
    (match general_info page !! "Power" with
     | Some s => PowerText s
     | None => PowerInt 0%Z
     end)
    (recipe_ids fid (facility_recipes page))
    (if Py.truthy (facility_img_src page)
     then Some ("images/facilities/" +:+ fid +:+ ".png")
     else None).

(** The assignments [facilities[facility_id] = ...] and
    [recipes[recipe_id] = ...] of the loop, in the order they are made. *)
Definition facility_entries (ps : list (string * facility_page))
    : list (string * facility) :=
  (λ p, (Py.replace_space p.1, facility_record p.1 p.2)) <$> ps.

Definition page_recipe_entries (p : string * facility_page)
    : list (string * recipe) :=
  let fid := Py.replace_space p.1 in
  zip_with (λ rid raw, (rid, recipe_record fid rid raw))
    (recipe_ids fid (facility_recipes p.2)) (facility_recipes p.2).

Definition recipe_entries (ps : list (string * facility_page))
    : list (string * recipe) :=
  ps ≫= page_recipe_entries.

(** A dict after a sequence of assignments to [m]: a later assignment to a
    key replaces an earlier one. *)
Definition assign_all {V} (m : gmap string V) (l : list (string * V))
    : gmap string V :=
  foldl (λ m e, <[e.1 := e.2]> m) m l.

(** Every scraped material has a name and every scraped recipe an output:
    lines 224, 235 and 249 do not raise. *)
Definition material_named (m : raw_material) : bool :=
  bool_decide (is_Some (name m)).

Definition recipe_usable (r : raw_recipe) : bool :=
  forallb material_named (inputs r) && forallb material_named (outputs r) &&
  bool_decide (outputs r ≠ []).

Definition page_usable (page : facility_page) : bool :=
  forallb recipe_usable (facility_recipes page).

(** *** The items map *)

(** The item ids the scraped recipes refer to. *)
Definition material_id (m : raw_material) : option string :=
  Py.replace_space <$> name m.

Definition recipe_item_ids (r : raw_recipe) : list string :=
  omap material_id (inputs r ++ outputs r).

Definition page_item_ids (ps : list (string * facility_page)) : list string :=
  p ← ps; r ← facility_recipes p.2; recipe_item_ids r.

(** An entry of the items map as the aggregation keeps it: stored under
    its id, which is its name with underscores for spaces, and without a
    tier. *)
Definition item_fresh (kv : string * item) : Prop :=
  item_id kv.2 = kv.1 ∧ kv.1 = Py.replace_space (item_name_en kv.2) ∧
  item_tier kv.2 = None.

Definition items_fresh (its : list (string * item)) : Prop :=
  NoDup (ODict.keys its) ∧ Forall item_fresh its.

(** *** The image jobs *)

(** The file an image path of a record refers to is the destination of a
    queued job. *)
Definition image_queued (jobs : list (string * string)) (img : option string)
    : Prop :=
  ∀ p, img = Some p → ∃ url, (url, "export/" +:+ p) ∈ jobs.

Definition images_queued (st : state) : Prop :=
  Forall (λ kv, image_queued (img_jobs st) (item_image kv.2)) (items st) ∧
  ∀ fid f, facilities st !! fid = Some f →
    image_queued (img_jobs st) (facility_image f).

(** ** The download phase, lines 300-304 *)

(** A call of [download_image] that [asyncio.gather] runs as a task: not
    started, suspended at line 22 until the response is there, returned,
    or ended by an exception. *)
Inductive task : Type :=
  | Ready (url save_path : string)
  | Waiting (url save_path : string)
  | Returned
  | Failed (e : exn).

Section pool.

Variable http_get : string → result string.
Variable writable : string → bool.

(** The next uninterrupted stretch of a task: lines 20-22 up to the
    [await], where the request is sent, then lines 22-24 from the
    response on. The request is on the list of requests from the moment
    it is sent, whatever becomes of it. *)
Definition task_step (w : world) (t : task) : world * task :=
  match t with
  | Ready url save_path =>
      if bool_decide (is_Some (files w !! save_path)) then (w, Returned)
      else (World (files w) (requests w ++ [url]) (printed w),
            Waiting url save_path)
  | Waiting url save_path =>
      match http_get url with
      | Ok content =>
          if writable save_path then
            (World (<[save_path := content]> (files w)) (requests w)
               (printed w ++ ["[IMG] Saved " +:+ save_path]),
             Returned)
          else (w, Failed OSError)
      | Raise e => (w, Failed e)
      end
  | Returned => (w, Returned)
  | Failed e => (w, Failed e)
  end.

(** The event loop lets the task at position [i] take its next step. *)
Definition pool_step (c : world * list task) (i : nat) : world * list task :=
  match c.2 !! i with
  | Some t => ((task_step c.1 t).1, <[i := (task_step c.1 t).2]> c.2)
  | None => c
  end.

(** The tasks take their steps in the order [sched]; which order that is,
    is up to the event loop and the network. *)
Definition pool_run (sched : list nat) (c : world * list task)
    : world * list task :=
  foldl pool_step c sched.

(** One call after the other, as a plain loop would make them. *)
Definition download_each (w : world) (job : string * string) : result world :=
  download_image http_get writable w job.1 job.2.

End pool.

(** The tasks [gather] is given, line 303. *)
Definition start (jobs : list (string * string)) : list task :=
  (λ job, Ready job.1 job.2) <$> jobs.

(** Every task runs to its end before the next one starts. *)
Definition one_by_one (n : nat) : list nat := i ← seq 0 n; [i; i].

(** What holds of the world and the tasks at any time of the download
    phase that started in the world [w0] with the jobs [jobs]. *)
Definition pool_invariant (w0 : world) (jobs : list (string * string))
    (c : world * list task) : Prop :=
  length c.2 = length jobs ∧
  (∀ p content, files w0 !! p = Some content → files c.1 !! p = Some content) ∧
  (∀ p, is_Some (files c.1 !! p) → is_Some (files w0 !! p) ∨ p ∈ jobs.*2) ∧
  (∀ u, u ∈ requests c.1 →
     u ∈ requests w0 ∨ ∃ p, (u, p) ∈ jobs ∧ files w0 !! p = None) ∧
  ∀ i t, c.2 !! i = Some t →
    ∃ u p, jobs !! i = Some (u, p) ∧
      (t = Ready u p ∨
       (t = Waiting u p ∧ files w0 !! p = None ∧ u ∈ requests c.1) ∨
       (t = Returned ∧ is_Some (files c.1 !! p)) ∨
       ((∃ e, t = Failed e) ∧ u ∈ requests c.1)).

(** The tasks once every one of them waits for its response. *)
Definition in_flight (jobs : list (string * string)) : list task :=
  (λ job, Waiting job.1 job.2) <$> jobs.

(** A job whose destination is not in [w] and whose download succeeds. *)
Definition downloadable (http_get : string → result string)
    (writable : string → bool) (w : world) (job : string * string) : Prop :=
  files w !! job.2 = None ∧ is_Ok (http_get job.1) ∧ writable job.2 = true.

(** *** A small wiki to run the script on *)

Definition heading_div (h : string) : element :=
  node "div" [] [leaf "div" [] (Some h)].

Definition listbox (titles : list string) : element :=
  node "div" [("class", "ranger-listbox")]
    ((λ t, leaf "a" [("href", "/wiki/" +:+ Py.replace_space t); ("title", t)]
             (Some t)) <$> titles).

(** The index page: three headed lists side by side. *)
Definition efdb_page : element :=
  node "html" []
    [node "body" []
       [node "div" []
          [heading_div "Processing"; listbox ["Refining Unit"];
           heading_div "Assembly"; listbox ["Fitting Unit"];
           heading_div "Power"; listbox ["Thermal Bank"]]]].

(** A facility page: a main image and a recipe table. *)
Definition facility_wiki_page (img : string) (rows : list element)
    : element :=
  node "html" []
    [node "body" []
       [node "figure" [("class", "pi-item pi-image")]
          [leaf "img" [("src", img)] None];
        node "table" [("class", "mrfz-wtable")]
          [node "tbody" [] (header_row :: rows)]]].

Definition row_ingot_plate : element :=
  recipe_row [tooltip "Ingot"; item_count (Some "3")]
    [tooltip "Plate"; item_count (Some "1")] (Some "8s").

Definition wiki (title : string) : result element :=
  if decide (title = "EFDB") then Ok efdb_page
  else if decide (title = "Refining_Unit") then
    Ok (facility_wiki_page "/images/Refining_Unit.png" [row_ore_ingot])
  else if decide (title = "Fitting_Unit") then
    Ok (facility_wiki_page "/images/Fitting_Unit.png" [row_ingot_plate])
  else Ok item_page.

Definition wiki_names : list string :=
  ["Refining Unit"; "Fitting Unit"; "Thermal Bank"].

(** What the wiki gives for these names, and the run on them. *)
Definition wiki_pages : list facility_page :=
  match mapM (get_facility_and_recipes wiki) wiki_names with
  | Ok pages => pages
  | Raise _ => []
  end.

Definition wiki_state : state :=
  match run urljoin_plain unquote_plain stem_plain wiki wiki_names with
  | Ok st => st
  | Raise _ => initial_state
  end.

(** Recipe rows that are out of order. *)

(** An output tooltip without a count. *)
Definition row_output_without_count : element :=
  recipe_row [tooltip "Ore"; item_count (Some "2")] [tooltip "Ingot"]
    (Some "5s").

(** Inputs and an output in order, no third cell. *)
Definition row_two_cells : element :=
  node "tr" []
    [cell [tooltip "Ore"; item_count (Some "2")];
     cell [tooltip "Ingot"; item_count (Some "1")]].

(** Two image jobs for one destination. *)
Definition twin_jobs : list (string * string) :=
  [("https://endfield.wiki.gg/images/Ore.png?1", "export/images/items/Ore.png");
   ("https://endfield.wiki.gg/images/Ore.png?2", "export/images/items/Ore.png")].

(** The aggregation of the smelter and the grinder. *)
Definition smelter_grinder_state : state :=
  match
    aggregate urljoin_plain unquote_plain stem_plain
      ["Smelter"; "Grinder"] [smelter_page; grinder_page]
  with
  | Ok st => st
  | Raise _ => initial_state
  end.

(** The world after the images of the small wiki are fetched one by one. *)
Definition wiki_downloads : world * list task :=
  pool_run serve_png any_path (one_by_one (length (img_jobs wiki_state)))
    (empty_world, start (img_jobs wiki_state)).

(** A page with a recipe whose input has no [data-name]. *)
Definition nameless_page : facility_page :=
  FacilityPage None [] ∅
    [RawRecipe [RawMaterial None 1] [RawMaterial (Some "Ingot") 1] "1s"].

(** * Properties *)

(** ** The error monad *)

Lemma bind_Ok {A B} (m : result A) (f : A → result B) (b : B) :
  m ≫= f = Ok b ↔ ∃ a, m = Ok a ∧ f a = Ok b.
Proof.
  destruct m as [a|e]; simpl; split.
  - intros H. exists a. done.
  - intros (a' & [= <-] & H). done.
  - discriminate.
  - intros (a' & [=] & _).
Qed.

Lemma bind_Raise {A B} (m : result A) (f : A → result B) :
  raises m → raises (m ≫= f).
Proof. intros [e ->]. exists e. done. Qed.

(** Take apart the hypotheses saying that a chain of binds returned. *)
Ltac inv_bind :=
  repeat match goal with
  | H : (_ ≫= _) = Ok _ |- _ =>
      let a := fresh "a" in
      let Ha := fresh "Ha" in
      apply bind_Ok in H as (a & Ha & H)
  | H : mret ?x = Ok _ |- _ => change (mret x) with (Ok x) in H
  | H : Ok _ = Ok _ |- _ => injection H as H
  | H : Raise _ = Ok _ |- _ => discriminate H
  end.

Lemma for_each_app {A S} (body : S → A → result S) (l1 l2 : list A) (s : S) :
  for_each body (l1 ++ l2) s = for_each body l1 s ≫= for_each body l2.
Proof.
  revert s. induction l1 as [|x l1 IH]; intros s; simpl; [done|].
  destruct (body s x) as [s'|e]; simpl; [apply IH | done].
Qed.

(** An invariant of the loop body holds after the loop. *)
Lemma for_each_invariant {A S} (I : S → Prop) (body : S → A → result S)
    (l : list A) (s s' : S) :
  (∀ s x s', x ∈ l → I s → body s x = Ok s' → I s') →
  I s → for_each body l s = Ok s' → I s'.
Proof.
  revert s. induction l as [|x l IH]; intros s Hstep Hs Hrun; simpl in *.
  - by injection Hrun as <-.
  - inv_bind. eapply IH; [| |done].
    + intros ?????. eapply Hstep; [by right|done..].
    + eapply Hstep; [by left|done..].
Qed.

(** A raising turn of the loop makes the loop raise. *)
Lemma for_each_raises {A S} (body : S → A → result S) (l : list A) (s : S)
    (x : A) :
  x ∈ l → (∀ s, raises (body s x)) → raises (for_each body l s).
Proof.
  intros Hx Hbad. revert s.
  induction l as [|y l IH]; intros s; [by apply elem_of_nil in Hx|].
  simpl. apply elem_of_cons in Hx as [<-|Hx].
  - by apply bind_Raise.
  - destruct (body s y) as [s'|e]; simpl; [by apply IH | by exists e].
Qed.

(** ** Strings *)

Lemma str_app_cons (c : ascii) (s t : string) :
  String c s +:+ t = String c (s +:+ t).
Proof. reflexivity. Qed.

Lemma str_app_nil_l (t : string) : "" +:+ t = t.
Proof. reflexivity. Qed.

Lemma str_app_length (a b : string) :
  String.length (a +:+ b) = String.length a + String.length b.
Proof. induction a as [|x a IH]; [done|]. rewrite str_app_cons. simpl. lia. Qed.

Lemma prefix_nil_l (s : string) : String.prefix "" s = true.
Proof. by destruct s. Qed.

Lemma prefix_drop (p s : string) :
  String.prefix p s = true → s = p +:+ Py.drop (String.length p) s.
Proof.
  revert s. induction p as [|c p IH]; intros s H.
  - by destruct s.
  - destruct s as [|d s]; [done|]. simpl in H.
    destruct (ascii_dec c d) as [->|]; [|done].
    rewrite str_app_cons. simpl. f_equal. by apply IH.
Qed.

Lemma cut_eq (sep s : string) :
  Py.cut sep s =
    if String.prefix sep s then Some ("", Py.drop (String.length sep) s)
    else
      match s with
      | "" => None
      | String c s' =>
          match Py.cut sep s' with
          | Some (a, b) => Some (String c a, b)
          | None => None
          end
      end.
Proof. by destruct s. Qed.

(** [cut] splits its argument around an occurrence of the separator. *)
Lemma cut_Some (sep s a b : string) :
  Py.cut sep s = Some (a, b) → s = a +:+ sep +:+ b.
Proof.
  revert a. induction s as [|c s IH]; intros a; rewrite cut_eq.
  - destruct (String.prefix sep "") eqn:Hp; [|done].
    intros [= <- <-]. by apply prefix_drop.
  - destruct (String.prefix sep (String c s)) eqn:Hp.
    + intros [= <- <-]. by apply prefix_drop.
    + destruct (Py.cut sep s) as [[a' b']|] eqn:Hc; [|done].
      intros [= <- <-]. rewrite str_app_cons. f_equal. by apply IH.
Qed.

Lemma cut_nil (sep : string) : sep ≠ "" → Py.cut sep "" = None.
Proof. by destruct sep. Qed.

Lemma cut_length (sep s a b : string) :
  Py.cut sep s = Some (a, b) →
  String.length s = String.length a + String.length sep + String.length b.
Proof. intros ->%cut_Some. rewrite !str_app_length. lia. Qed.

(** The fuel of [split] is enough: more of it changes nothing. *)
Lemma split_fuel_enough (sep s : string) (n m : nat) :
  sep ≠ "" → String.length s ≤ n → String.length s ≤ m →
  Py.split_fuel n sep s = Py.split_fuel m sep s.
Proof.
  intros Hsep. revert s m.
  induction n as [|n IH]; intros s m Hn Hm.
  - destruct s; [|simpl in Hn; lia].
    destruct m; cbn [Py.split_fuel]; [done|]. by rewrite cut_nil.
  - destruct m as [|m].
    + destruct s; [|simpl in Hm; lia]. cbn [Py.split_fuel]. by rewrite cut_nil.
    + cbn [Py.split_fuel]. destruct (Py.cut sep s) as [[a b]|] eqn:Hc; [|done].
      f_equal. apply cut_length in Hc.
      assert (0 < String.length sep) by (destruct sep; [done|simpl; lia]).
      apply IH; lia.
Qed.

Lemma split_cut_Some (sep s a b : string) :
  sep ≠ "" → Py.cut sep s = Some (a, b) →
  Py.split sep s = a :: Py.split sep b.
Proof.
  intros Hsep Hc. unfold Py.split.
  pose proof (cut_length _ _ _ _ Hc) as Hlen.
  assert (0 < String.length sep) by (destruct sep; [done|simpl; lia]).
  destruct (String.length s) as [|n] eqn:Hs; [lia|].
  cbn [Py.split_fuel]. rewrite Hc. f_equal. apply split_fuel_enough; [done|lia..].
Qed.

Lemma split_cut_None (sep s : string) :
  Py.cut sep s = None → Py.split sep s = [s].
Proof.
  intros Hc. unfold Py.split.
  destruct (String.length s); cbn [Py.split_fuel]; [done|]. by rewrite Hc.
Qed.

(** [s.split(sep)[0]] is the text before the first separator. *)
Lemma split_head (sep s : string) :
  sep ≠ "" → Py.getitem (Py.split sep s) 0 = Ok (before sep s).
Proof.
  intros Hsep. unfold before.
  destruct (Py.cut sep s) as [[a b]|] eqn:Hc.
  - by erewrite split_cut_Some.
  - by rewrite split_cut_None.
Qed.

(** [s.split(sep)] is never empty, so [[-1]] is defined. *)
Lemma split_last (sep s : string) :
  sep ≠ "" → is_Ok (Py.getitem_last (Py.split sep s)).
Proof.
  intros Hsep. unfold Py.split.
  generalize (String.length s) as n. intros n. revert s.
  induction n as [|n IH]; intros s; cbn [Py.split_fuel].
  - by exists s.
  - destruct (Py.cut sep s) as [[a b]|]; [|by exists s].
    destruct (IH b) as [x Hx]. exists x. unfold Py.getitem_last in *.
    destruct (Py.split_fuel n sep b) as [|y l] eqn:Hl; [done|].
    by rewrite last_cons_cons.
Qed.

Lemma cut_char_cons (ch c : ascii) (s : string) :
  Py.cut (String ch "") (String c s) =
    if decide (ch = c) then Some ("", s)
    else
      match Py.cut (String ch "") s with
      | Some (a, b) => Some (String c a, b)
      | None => None
      end.
Proof.
  rewrite cut_eq. simpl.
  destruct (ascii_dec ch c) as [->|Hne].
  - rewrite prefix_nil_l. by rewrite decide_True.
  - by rewrite decide_False.
Qed.

(** Text after the next [ch] does not change what comes before it. *)
Lemma before_char_app (ch : ascii) (a x : string) :
  before (String ch "") (a +:+ String ch x) = before (String ch "") a.
Proof.
  unfold before. induction a as [|c a IH].
  - rewrite str_app_nil_l, cut_char_cons, decide_True by done.
    by rewrite cut_nil.
  - rewrite str_app_cons, !cut_char_cons.
    destruct (decide (ch = c)); [done|].
    destruct (Py.cut (String ch "") (a +:+ String ch x)) as [[a1 b1]|],
      (Py.cut (String ch "") a) as [[a2 b2]|]; simpl in *; congruence.
Qed.

(** ** URL normalization *)

Lemma split_second (sep s : string) :
  sep ≠ "" → Py.contains sep s = true →
  Py.getitem (Py.split sep s) 1 = Ok (before sep (after sep s)).
Proof.
  intros Hsep Hin. unfold Py.contains, after in *.
  destruct (Py.cut sep s) as [[a b]|] eqn:Hc; [|done].
  erewrite split_cut_Some by done.
  change (Py.getitem (a :: Py.split sep b) 1)
    with (Py.getitem (Py.split sep b) 0).
  by apply split_head.
Qed.

Lemma before_slash_before_thumb (b : string) :
  before "/" (before "/thumb/" b) = before "/" b.
Proof.
  unfold before at 2.
  destruct (Py.cut "/thumb/" b) as [[a c]|] eqn:Hc; [|done].
  apply cut_Some in Hc as ->. symmetry. apply before_char_app.
Qed.

(** A URL without [/thumb/] is returned unchanged. *)
Lemma normalize_no_thumb (src : string) :
  Py.contains "/thumb/" src = false → normalize_item_image_url src = Ok src.
Proof. intros H. unfold normalize_item_image_url. by rewrite H. Qed.

(** What the function returns for a thumbnail URL. *)
Lemma normalize_thumb (src : string) :
  Py.contains "/thumb/" src = true →
  normalize_item_image_url src =
    Ok ("/images/" +:+ before "/" (after "/thumb/" src)
          +:+ appended_query src).
Proof.
  intros H. unfold normalize_item_image_url, appended_query. rewrite H.
  cbn [negb]. rewrite (split_second "/thumb/" src) by done.
  cbn [mbind result_bind]. rewrite split_head by done.
  cbn [mbind result_bind].
  rewrite before_slash_before_thumb.
  destruct (Py.contains "?" src) eqn:Hq; [|done].
  by rewrite split_second.
Qed.

(** The function never raises. *)
Lemma normalize_total (src : string) : is_Ok (normalize_item_image_url src).
Proof.
  destruct (Py.contains "/thumb/" src) eqn:H.
  - rewrite normalize_thumb by done. by eexists.
  - rewrite normalize_no_thumb by done. by eexists.
Qed.

Lemma contains_char_cons (ch c : ascii) (s : string) :
  Py.contains (String ch "") (String c s) =
    bool_decide (ch = c) || Py.contains (String ch "") s.
Proof.
  unfold Py.contains. rewrite cut_char_cons.
  destruct (decide (ch = c)) as [->|Hne].
  - by rewrite bool_decide_eq_true_2.
  - rewrite bool_decide_eq_false_2 by done.
    by destruct (Py.cut (String ch "") s) as [[]|].
Qed.

Lemma before_char_cons (ch c : ascii) (s : string) :
  before (String ch "") (String c s) =
    if decide (ch = c) then "" else String c (before (String ch "") s).
Proof.
  unfold before. rewrite cut_char_cons.
  destruct (decide (ch = c)); [done|].
  by destruct (Py.cut (String ch "") s) as [[]|].
Qed.

Lemma contains_char_app_r (ch : ascii) (a b : string) :
  Py.contains (String ch "") (a +:+ b) = false →
  Py.contains (String ch "") b = false.
Proof.
  induction a as [|c a IH]; [done|]. rewrite str_app_cons, contains_char_cons.
  intros [_ H]%orb_false_iff. by apply IH.
Qed.

Lemma before_absent (sep s : string) :
  Py.contains sep s = false → before sep s = s.
Proof. unfold Py.contains, before. by destruct (Py.cut sep s) as [[]|]. Qed.

(** What follows the first separator holds no character the whole string
    does not hold. *)
Lemma after_absent (ch : ascii) (sep s : string) :
  Py.contains (String ch "") s = false →
  Py.contains (String ch "") (after sep s) = false.
Proof.
  intros H. unfold after. destruct (Py.cut sep s) as [[a b]|] eqn:Hc; [|done].
  apply cut_Some in Hc. rewrite Hc in H.
  by apply contains_char_app_r, contains_char_app_r in H.
Qed.

(** A file name that ends at a slash is not cut short by a later question
    mark. *)
Lemma before_slash_before_mark (s : string) :
  Py.contains "?" (before "/" s) = false →
  before "/" (before "?" s) = before "/" s.
Proof.
  induction s as [|c s IH]; [done|]. rewrite !before_char_cons.
  destruct (decide ("/"%char = c)) as [<-|Hslash].
  - intros _. rewrite decide_False by done. by rewrite before_char_cons.
  - rewrite contains_char_cons. intros [Hc H]%orb_false_iff.
    apply bool_decide_eq_false in Hc. rewrite decide_False by done.
    rewrite before_char_cons, decide_False by done. by rewrite IH.
Qed.

(** On a URL without a fragment and with at most one question mark, in
    which the file name after [/thumb/] ends at a slash before any
    question mark, the function does what the specification describes. *)
Lemma normalize_single_mark (src : string) :
  Py.contains "#" src = false →
  Py.contains "?" (after "?" src) = false →
  Py.contains "?" (before "/" (after "/thumb/" src)) = false →
  normalize_item_image_url src = Ok (normalize_described src).
Proof.
  intros Hfrag Hone Hname. unfold normalize_described.
  destruct (Py.contains "/thumb/" src) eqn:H.
  - rewrite normalize_thumb by done. do 2 f_equal.
    unfold path_segment, url_query.
    rewrite (before_absent "#" src) by done.
    rewrite (before_absent "#" (after "/thumb/" src))
      by by apply (after_absent "#").
    rewrite before_slash_before_mark by done. f_equal.
    unfold appended_query, Py.contains, after, before in *.
    destruct (Py.cut "?" src) as [[a q]|]; [|done].
    by destruct (Py.cut "?" q) as [[]|].
  - by apply normalize_no_thumb.
Qed.

(** Without a slash after the file name the function takes the query
    string into the file name and appends it once more. *)
Lemma normalize_without_suffix :
  normalize_item_image_url url_without_suffix =
    Ok "/images/Iron_Ore.png?foo=bar?foo=bar" ∧
  normalize_described url_without_suffix = "/images/Iron_Ore.png?foo=bar".
Proof. vm_compute. done. Qed.

(** The example of the specification. *)
Lemma normalize_iron_ore :
  normalize_item_image_url
    "https://endfield.wiki.gg/images/thumb/Iron_Ore.png/64px-Iron_Ore.png?foo=bar"
  = Ok "/images/Iron_Ore.png?foo=bar".
Proof. vm_compute. reflexivity. Qed.

(** C1. The specification rebuilds a thumbnail URL as [/images/] followed
    by the file name and the original query string. On a URL whose query
    string holds a second question mark, the function keeps the query only
    up to that mark: its result is not the one the specification
    describes. *)
Theorem normalize_item_image_url_truncates_query :
  Py.contains "/thumb/" url_two_marks = true ∧
  query_string url_two_marks = "?foo=bar?v=2" ∧
  normalize_spec url_two_marks = "/images/Iron_Ore.png?foo=bar?v=2" ∧
  normalize_item_image_url url_two_marks = Ok "/images/Iron_Ore.png?foo=bar" ∧
  normalize_item_image_url url_two_marks ≠ Ok (normalize_spec url_two_marks).
Proof. vm_compute. repeat split. discriminate. Qed.

(** ** The image fetcher *)

Section download_properties.
Variable http_get : string → result string.
Variable writable : string → bool.

(** A call that returns leaves the destination on disk. *)
Lemma download_image_exists (w w1 : world) (url save_path : string) :
  download_image http_get writable w url save_path = Ok w1 →
  is_Some (files w1 !! save_path).
Proof.
  unfold download_image. case_bool_decide as Hex.
  - by intros [= <-].
  - intros H. inv_bind. destruct (writable save_path); [|done].
    injection H as <-. simpl. rewrite lookup_insert_eq. by eexists.
Qed.

(** C7. When the destination exists, [download_image] returns the world
    as it found it: no request is sent and no file is written. So of two
    calls in sequence for the same URL and destination, the second is a
    no-op, and starting without the file the two calls send exactly one
    request. *)
Theorem download_image_idempotent (w : world) (url save_path : string) :
  (is_Some (files w !! save_path) →
   download_image http_get writable w url save_path = Ok w) ∧
  (∀ w1 w2,
     files w !! save_path = None →
     download_image http_get writable w url save_path = Ok w1 →
     download_image http_get writable w1 url save_path = Ok w2 →
     w2 = w1 ∧ requests w2 = requests w ++ [url]).
Proof.
  split.
  - intros Hex. unfold download_image. by rewrite bool_decide_eq_true_2.
  - intros w1 w2 Hnone H1 H2.
    pose proof (download_image_exists _ _ _ _ H1) as Hex.
    unfold download_image in H2.
    rewrite bool_decide_eq_true_2 in H2 by done. injection H2 as <-.
    split; [done|]. unfold download_image in H1.
    rewrite bool_decide_eq_false_2 in H1
      by (rewrite Hnone; by intros [? [=]]).
    inv_bind. destruct (writable save_path); [|done].
    by injection H1 as <-.
Qed.
End download_properties.

Lemma download_image_idempotent_witness :
  files empty_world !! "export/images/items/Ore.png" = None ∧
  ∃ w1,
    download_image serve_png any_path empty_world
      "https://endfield.wiki.gg/images/Ore.png"
      "export/images/items/Ore.png" = Ok w1 ∧
    download_image serve_png any_path w1
      "https://endfield.wiki.gg/images/Ore.png"
      "export/images/items/Ore.png" = Ok w1 ∧
    requests w1 = [] ++ ["https://endfield.wiki.gg/images/Ore.png"].
Proof.
  split; [reflexivity|]. eexists. split; [reflexivity|].
  split; [reflexivity|].
  eapply (proj2 (download_image_idempotent serve_png any_path empty_world
            "https://endfield.wiki.gg/images/Ore.png"
            "export/images/items/Ore.png"));
    reflexivity.
Defined.

(** ** Trimming *)

Lemma truthy_Some (s : string) : Py.truthy (Some s) = bool_decide (s ≠ "").
Proof. by destruct s. Qed.

Lemma unspaced_app (a b : string) :
  unspaced (a +:+ b) = unspaced a +:+ unspaced b.
Proof.
  induction a as [|c a IH]; [done|]. rewrite str_app_cons. simpl.
  destruct (Ascii.eqb c " "); [done|]. by rewrite str_app_cons, IH.
Qed.

(** Joining by spaces only adds spaces. *)
Lemma unspaced_join (l : list string) :
  unspaced (Py.join " " l) = unspaced (Py.join "" l).
Proof.
  induction l as [|x l IH]; [done|].
  destruct l as [|y l]; [done|].
  change (Py.join " " (x :: y :: l)) with (x +:+ " " +:+ Py.join " " (y :: l)).
  change (Py.join "" (x :: y :: l)) with (x +:+ "" +:+ Py.join "" (y :: l)).
  by rewrite !unspaced_app, IH.
Qed.

Lemma rstrip_spaces (t : string) : unspaced t = "" → Py.rstrip t = "".
Proof.
  induction t as [|a t IH]; [done|]. simpl.
  destruct (Ascii.eqb a " ") eqn:Ha; [|done].
  apply Ascii.eqb_eq in Ha as ->. intros ->%IH. done.
Qed.

(** A string made of spaces around one character that is not white space
    is trimmed to that character. *)
Lemma strip_single (c : ascii) (s : string) :
  Py.isspace c = false → unspaced s = String c "" →
  Py.strip s = String c "".
Proof.
  intros Hc. unfold Py.strip. induction s as [|a s IH]; [done|]. simpl.
  destruct (Ascii.eqb a " ") eqn:Ha.
  - apply Ascii.eqb_eq in Ha as ->. intros H.
    change (Py.isspace " ") with true. cbn match. by apply IH.
  - intros [= -> Hs]. rewrite Hc. cbn [Py.rstrip].
    by rewrite rstrip_spaces, Hc.
Qed.

(** The value of the specification's example: texts that concatenate to
    [" 2 "] are joined and trimmed to ["2"]. *)
Lemma strip_join_2 (texts : list string) :
  Py.join "" texts = " 2 " → Py.strip (Py.join " " texts) = "2".
Proof.
  intros H. apply strip_single; [done|].
  by rewrite unspaced_join, H.
Qed.

(** ** The general-information table *)

Lemma general_info_step_entry (info : gmap string string) (item : element) :
  label_has_text item = true →
  general_info_step info item =
    Ok (match entry_of item with
        | Some kv => <[kv.1 := kv.2]> info
        | None => info
        end).
Proof.
  unfold label_has_text, general_info_step, row_label, row_value, entry_of.
  destruct (label_el item) as [|e ?]; [done|].
  unfold text_strip. cbn [head mbind option_bind result_bind].
  destruct (el_text e) as [t|]; [intros _|by intros [? [=]]%bool_decide_eq_true].
  cbn [mbind option_bind result_bind].
  destruct (value_elements item) as [|v ?]; cbn [head mbind option_bind].
  - by rewrite andb_false_r.
  - rewrite !truthy_Some.
    destruct (decide (Py.strip t ≠ "")) as [Hl|Hl];
      destruct (decide (Py.strip (Py.join " " (XPath.texts v)) ≠ ""))
        as [Hw|Hw];
      rewrite ?(bool_decide_eq_true_2 _ Hl), ?(bool_decide_eq_false_2 _ Hl),
        ?(bool_decide_eq_true_2 _ Hw), ?(bool_decide_eq_false_2 _ Hw);
      cbn [andb].
    + by rewrite bool_decide_eq_true_2.
    + rewrite bool_decide_eq_false_2; [done|]. by intros [? ?].
    + rewrite bool_decide_eq_false_2; [done|]. by intros [? ?].
    + rewrite bool_decide_eq_false_2; [done|]. by intros [? ?].
Qed.

Lemma general_info_loop (rows : list element) (info : gmap string string) :
  labels_have_text rows = true →
  for_each general_info_step rows info =
    Ok (foldl (λ info kv, <[kv.1 := kv.2]> info) info (omap entry_of rows)).
Proof.
  revert info. induction rows as [|item rows IH]; intros info Htext; [done|].
  unfold labels_have_text in *. cbn [forallb] in Htext.
  apply andb_prop in Htext as [Hitem Hrows].
  cbn [for_each]. rewrite general_info_step_entry by done.
  cbn [mbind result_bind]. rewrite IH by done.
  cbn [omap list_omap]. by destruct (entry_of item).
Qed.

(** Every entry of the mapping is the entry of some row. *)
Lemma info_of_lookup (rows : list element) (k v : string) :
  info_of rows !! k = Some v →
  ∃ item, item ∈ rows ∧ entry_of item = Some (k, v).
Proof.
  unfold info_of.
  assert (∀ (info : gmap string string),
    foldl (λ info kv, <[kv.1 := kv.2]> info) info (omap entry_of rows) !! k
      = Some v →
    info !! k = Some v ∨
    ∃ item, item ∈ rows ∧ entry_of item = Some (k, v)) as Hgen.
  { induction rows as [|item rows IH]; intros info; [by left|].
    cbn [omap list_omap]. destruct (entry_of item) as [[k' v']|] eqn:He.
    - cbn [foldl]. intros [Hin|(i & Hi & Hk)]%IH.
      + cbn [fst snd] in Hin. destruct (decide (k' = k)) as [->|Hne].
        * rewrite lookup_insert_eq in Hin. injection Hin as ->.
          right. exists item. split; [by left|done].
        * rewrite lookup_insert_ne in Hin by done. by left.
      + right. exists i. split; [by right|done].
    - intros [Hin|(i & Hi & Hk)]%IH; [by left|].
      right. exists i. split; [by right|done]. }
  intros [Hin|?]%Hgen; [|done]. by rewrite lookup_empty in Hin.
Qed.

(** No value of the mapping is empty. *)
Lemma entry_of_nonempty (item : element) (k v : string) :
  entry_of item = Some (k, v) → k ≠ "" ∧ v ≠ "".
Proof.
  unfold entry_of. intros H.
  destruct (head (label_el item)) as [e|]; [|done]. cbn in H.
  destruct (el_text e) as [t|]; [|done]. cbn in H.
  destruct (head (value_elements item)) as [w|]; [|done]. cbn in H.
  case_bool_decide as Hne; [|done]. by injection H as <- <-.
Qed.

(** The last row that gives an entry for a label decides its value. *)
Lemma info_of_last (pre post : list element) (item : element) (k v : string) :
  entry_of item = Some (k, v) →
  forallb (λ i, negb (gives_label k i)) post = true →
  info_of (pre ++ item :: post) !! k = Some v.
Proof.
  intros He Hpost. unfold info_of.
  rewrite omap_app. cbn [omap list_omap]. rewrite He, foldl_app. cbn [foldl].
  generalize (foldl (λ info kv, <[kv.1 := kv.2]> info) (∅ : gmap string string)
                (omap entry_of pre)).
  intros info0.
  assert (<[k := v]> info0 !! k = Some v) as Hk by apply lookup_insert_eq.
  cbn [fst snd]. revert Hk. generalize (<[k := v]> info0). intros info Hk.
  revert info Hk. induction post as [|i post IH]; intros info Hk; [done|].
  cbn [forallb] in Hpost. apply andb_prop in Hpost as [Hi Hpost].
  cbn [omap list_omap]. destruct (entry_of i) as [[k' v']|] eqn:Hei.
  - cbn [foldl]. apply IH; [done|]. cbn [fst snd].
    rewrite lookup_insert_ne; [done|]. intros ->.
    unfold gives_label in Hi. rewrite Hei in Hi.
    by rewrite bool_decide_eq_true_2 in Hi.
  - by apply IH.
Qed.

(** A page whose label element has no text node: the function raises. *)
Lemma get_general_info_label_without_text :
  labels_have_text (data_items page_label_without_text) = false ∧
  get_general_info page_label_without_text = Raise AttributeError.
Proof. vm_compute. done. Qed.

(** C6 (amended). On a page where every data-label element has a text
    node, [get_general_info] returns the mapping of the entries of the
    rows: the key of an entry is the trimmed text of the data-label
    element, its value the text below the data-value element, joined by
    spaces and trimmed; a row without a label element, without a value
    element, or with an empty trimmed label or value gives no entry. A
    row with label text [" Tier "] and value texts that concatenate to
    [" 2 "] gives the entry [("Tier", "2")]. *)
Theorem get_general_info_entries (tree : element) :
  labels_have_text (data_items tree) = true →
  get_general_info tree = Ok (info_of (data_items tree)) ∧
  (∀ k v, info_of (data_items tree) !! k = Some v →
     k ≠ "" ∧ v ≠ "" ∧
     ∃ item, item ∈ data_items tree ∧ entry_of item = Some (k, v)) ∧
  (∀ pre item post e w,
     data_items tree = pre ++ item :: post →
     head (label_el item) = Some e → el_text e = Some " Tier " →
     head (value_elements item) = Some w →
     Py.join "" (XPath.texts w) = " 2 " →
     forallb (λ i, negb (gives_label "Tier" i)) post = true →
     entry_of item = Some ("Tier", "2") ∧
     info_of (data_items tree) !! "Tier" = Some "2").
Proof.
  intros Htext. split; [|split].
  - unfold get_general_info. by rewrite general_info_loop.
  - intros k v (item & Hin & He)%info_of_lookup.
    destruct (entry_of_nonempty _ _ _ He) as [? ?]. eauto.
  - intros pre item post e w Hrows He Ht Hw Hjoin Hpost.
    assert (entry_of item = Some ("Tier", "2")) as Hentry.
    { unfold entry_of. rewrite He. cbn [mbind option_bind].
      rewrite Ht. cbn [mbind option_bind]. rewrite Hw.
      cbn [mbind option_bind]. by rewrite (strip_join_2 _ Hjoin). }
    split; [done|]. rewrite Hrows. by apply info_of_last.
Qed.

Lemma get_general_info_entries_witness :
  labels_have_text (data_items page_tier) = true ∧
  get_general_info page_tier = Ok (info_of (data_items page_tier)) ∧
  info_of (data_items page_tier) !! "Tier" = Some "2".
Proof.
  split; [vm_compute; reflexivity|].
  split.
  - apply (get_general_info_entries page_tier). vm_compute; reflexivity.
  - eapply (proj2 (proj2 (get_general_info_entries page_tier eq_refl))
              [] _ _ _ _ eq_refl eq_refl eq_refl eq_refl eq_refl eq_refl).
Defined.

(** ** The recipe table *)

Lemma mapM_raises {A B} (f : A → result B) (l : list A) (x : A) :
  x ∈ l → raises (f x) → raises (mapM f l).
Proof.
  intros Hx Hbad. induction l as [|y l IH]; [by apply elem_of_nil in Hx|].
  cbn [mapM]. apply elem_of_cons in Hx as [<-|Hx].
  - by apply bind_Raise.
  - destruct (f y) as [b|e]; [|by exists e]. cbn [mbind result_bind].
    by apply bind_Raise, IH.
Qed.

Lemma mapM_Ok {A B} (f : A → result B) (l : list A) (k : list B) :
  mapM f l = Ok k → Forall2 (λ x y, f x = Ok y) l k.
Proof.
  revert k. induction l as [|x l IH]; intros k H; cbn [mapM] in H.
  - injection H as <-. constructor.
  - inv_bind. subst. constructor; [done|]. by apply IH.
Qed.

(** A skipped row leaves no trace in the list of recipes. *)
Lemma get_recipes_skip (pre post : list element) (row : element)
    (acc : list raw_recipe) :
  get_recipes_row row = Ok None →
  for_each get_recipes_step (pre ++ row :: post) acc =
  for_each get_recipes_step (pre ++ post) acc.
Proof.
  intros Hrow. rewrite !for_each_app.
  destruct (for_each get_recipes_step pre acc) as [acc'|e]; [|done].
  cbn [mbind result_bind for_each]. unfold get_recipes_step.
  rewrite Hrow. cbn [mbind result_bind option_list]. by rewrite app_nil_r.
Qed.

(** A row without input tooltips is skipped. *)
Lemma get_recipes_row_no_input (row : element) :
  cell_divs 1 "item-tooltip" row = [] → get_recipes_row row = Ok None.
Proof. intros H. unfold get_recipes_row. by rewrite H. Qed.

(** A row without output tooltips is skipped, once its inputs are read. *)
Lemma get_recipes_row_no_output (row : element) :
  cell_divs 2 "item-tooltip" row = [] → inputs_readable row →
  get_recipes_row row = Ok None.
Proof.
  intros Hout [ms Hms]. unfold get_recipes_row.
  destruct (cell_divs 1 "item-tooltip" row); [done|].
  rewrite Hms. cbn [mbind result_bind]. by rewrite Hout.
Qed.

(** A paired input count without text makes the row raise. *)
Lemma get_recipes_row_raises (row name_el count_el : element) :
  (name_el, count_el) ∈ zip (cell_divs 1 "item-tooltip" row)
                            (cell_divs 1 "item-count" row) →
  el_text count_el = None →
  raises (get_recipes_row row).
Proof.
  intros Hin Htext. unfold get_recipes_row.
  destruct (cell_divs 1 "item-tooltip" row) as [|n ns] eqn:Hn.
  { by apply elem_of_nil in Hin. }
  apply bind_Raise. eapply mapM_raises; [done|].
  unfold material, text_strip. cbn [fst snd]. rewrite Htext.
  by exists AttributeError.
Qed.

(** The inputs of a recipe are the paired ones. *)
Lemma get_recipes_row_inputs (row : element) (r : raw_recipe) :
  get_recipes_row row = Ok (Some r) →
  Forall2 (λ p m, material p.1 p.2 = Ok m)
    (zip (cell_divs 1 "item-tooltip" row) (cell_divs 1 "item-count" row))
    (inputs r).
Proof.
  unfold get_recipes_row. intros H.
  destruct (cell_divs 1 "item-tooltip" row) as [|n ns]; [done|].
  inv_bind. apply mapM_Ok in Ha.
  destruct (cell_divs 2 "item-tooltip" row); [done|]. inv_bind.
  destruct (XPath.child_at "td" 3 row); [done|]. inv_bind.
  by subst.
Qed.

Section recipe_errors.
Variable urljoin : string → string → string.
Variable unquote : string → string.
Variable stem : string → string.
Variable fetch : string → result element.

Lemma get_recipes_raises (tree row : element) :
  row ∈ recipe_rows tree → raises (get_recipes_row row) →
  raises (get_recipes tree).
Proof.
  intros Hrow Hbad. unfold get_recipes.
  eapply for_each_raises; [done|]. intros acc. by apply bind_Raise.
Qed.

Lemma run_raises (facility_names : list string) (fname : string)
    (tree : element) :
  fname ∈ facility_names → fetch (Py.replace_space fname) = Ok tree →
  raises (get_recipes tree) →
  raises (run urljoin unquote stem fetch facility_names).
Proof.
  intros Hname Hfetch Hbad. unfold run. apply bind_Raise.
  eapply mapM_raises; [done|]. unfold get_facility_and_recipes.
  rewrite Hfetch. cbn [mbind result_bind].
  destruct (get_general_info tree) as [info|e]; [|by exists e].
  cbn [mbind result_bind]. by apply bind_Raise.
Qed.

(** C8 (amended). An input count element without text, paired by position
    with an input tooltip, makes [get_recipes] raise, and the run abort.
    An input tooltip without a count element at its position is no error:
    the pairing stops at the shorter list, and a recipe made from the row
    holds the paired inputs only. *)
Theorem get_recipes_missing_count (facility_names : list string)
    (fname : string) (tree row : element) :
  (∀ name_el count_el,
     fname ∈ facility_names → fetch (Py.replace_space fname) = Ok tree →
     row ∈ recipe_rows tree →
     (name_el, count_el) ∈ zip (cell_divs 1 "item-tooltip" row)
                               (cell_divs 1 "item-count" row) →
     el_text count_el = None →
     raises (get_recipes tree) ∧
     raises (run urljoin unquote stem fetch facility_names)) ∧
  (∀ r, get_recipes_row row = Ok (Some r) →
     length (inputs r) =
       length (cell_divs 1 "item-tooltip" row) `min`
       length (cell_divs 1 "item-count" row)).
Proof.
  split.
  - intros name_el count_el Hname Hfetch Hrow Hpair Htext.
    assert (raises (get_recipes tree)) as Hbad.
    { eapply get_recipes_raises; [done|].
      by eapply get_recipes_row_raises. }
    split; [done|]. by eapply run_raises.
  - intros r Hr%get_recipes_row_inputs.
    apply Forall2_length in Hr. rewrite <-Hr. apply length_zip.
Qed.
End recipe_errors.

(** Two input tooltips and one count: no error, and a recipe with a
    single input. *)
Lemma get_recipes_drops_unpaired_input :
  recipe_rows (recipe_page [row_count_missing]) = [row_count_missing] ∧
  length (cell_divs 1 "item-tooltip" row_count_missing) = 2 ∧
  length (cell_divs 1 "item-count" row_count_missing) = 1 ∧
  get_recipes (recipe_page [row_count_missing]) =
    Ok [RawRecipe [RawMaterial (Some "Ore") 2]
          [RawMaterial (Some "Ingot") 1] "5s"].
Proof. vm_compute. done. Qed.

Lemma get_recipes_missing_count_witness :
  raises (get_recipes (recipe_page [row_count_without_text])) ∧
  raises (run urljoin_plain unquote_plain stem_plain
            (serve (recipe_page [row_count_without_text])) ["Smelter"]).
Proof.
  eapply (proj1 (get_recipes_missing_count urljoin_plain unquote_plain
                   stem_plain (serve (recipe_page [row_count_without_text]))
                   ["Smelter"] "Smelter"
                   (recipe_page [row_count_without_text])
                   row_count_without_text)
            (tooltip "Ore") (item_count None)).
  - vm_compute. left.
  - reflexivity.
  - vm_compute. left.
  - vm_compute. left.
  - reflexivity.
Defined.

(** ** The insertion-ordered dict *)

Section odict_properties.
Context {V : Type}.
Implicit Types (d : list (string * V)) (k : string) (v : V).

Lemma odict_lookup_keys d k : k ∈ ODict.keys d ↔ is_Some (ODict.lookup k d).
Proof.
  unfold ODict.keys. induction d as [|[k' v'] d IH]; simpl.
  - split; [by intros ?%elem_of_nil | by intros [? [=]]].
  - rewrite elem_of_cons. destruct (decide (k = k')) as [->|Hne].
    + split; [by eexists | by left].
    + rewrite IH. split; [by intros [?|?] | by right].
Qed.

(** [setdefault] keeps what is there and appends a new key. *)
Lemma odict_setdefault_old d k v :
  k ∈ ODict.keys d → ODict.setdefault k v d = d.
Proof.
  unfold ODict.keys. induction d as [|[k' v'] d IH]; simpl.
  - by intros ?%elem_of_nil.
  - destruct (decide (k = k')) as [->|Hne]; [done|].
    rewrite elem_of_cons. intros [?|Hin]; [done|]. by rewrite IH.
Qed.

Lemma odict_setdefault_new d k v :
  k ∉ ODict.keys d → ODict.setdefault k v d = d ++ [(k, v)].
Proof.
  unfold ODict.keys. induction d as [|[k' v'] d IH]; simpl; [done|].
  rewrite not_elem_of_cons. intros [Hne Hin].
  rewrite decide_False by done. by rewrite IH.
Qed.

Lemma odict_setdefault_keys d k v k' :
  k' ∈ ODict.keys (ODict.setdefault k v d) ↔ k' = k ∨ k' ∈ ODict.keys d.
Proof.
  destruct (decide (k ∈ ODict.keys d)) as [Hin|Hin].
  - rewrite odict_setdefault_old by done. split; [by right|].
    by intros [->|?].
  - rewrite odict_setdefault_new by done. unfold ODict.keys.
    rewrite fmap_app, elem_of_app. simpl. rewrite list_elem_of_singleton.
    tauto.
Qed.

Lemma odict_lookup_app_l d d' k :
  k ∈ ODict.keys d → ODict.lookup k (d ++ d') = ODict.lookup k d.
Proof.
  unfold ODict.keys. induction d as [|[k' v'] d IH]; simpl.
  - by intros ?%elem_of_nil.
  - destruct (decide (k = k')); [done|].
    rewrite elem_of_cons. intros [?|?]; [done|]. by apply IH.
Qed.

Lemma odict_lookup_app_r d d' k :
  k ∉ ODict.keys d → ODict.lookup k (d ++ d') = ODict.lookup k d'.
Proof.
  unfold ODict.keys. induction d as [|[k' v'] d IH]; simpl; [done|].
  rewrite not_elem_of_cons. intros [Hne Hin].
  rewrite decide_False by done. by apply IH.
Qed.

Lemma odict_setdefault_lookup d k v k' :
  ODict.lookup k' (ODict.setdefault k v d) =
    match ODict.lookup k' d with
    | Some v' => Some v'
    | None => if decide (k' = k) then Some v else None
    end.
Proof.
  destruct (decide (k ∈ ODict.keys d)) as [Hin|Hin].
  - rewrite odict_setdefault_old by done.
    destruct (ODict.lookup k' d) eqn:Hl; [done|].
    rewrite decide_False; [done|]. intros ->.
    apply odict_lookup_keys in Hin as [? Hin]. congruence.
  - rewrite odict_setdefault_new by done.
    destruct (decide (k' ∈ ODict.keys d)) as [Hin'|Hin'].
    + rewrite odict_lookup_app_l by done.
      apply odict_lookup_keys in Hin' as [? ->]. done.
    + rewrite odict_lookup_app_r by done.
      destruct (ODict.lookup k' d) eqn:Hl.
      { destruct Hin'. apply odict_lookup_keys. by eexists. }
      simpl. by destruct (decide (k' = k)).
Qed.

(** An update in place changes neither the keys nor their order. *)
Lemma odict_alter_keys (f : V → V) d k :
  ODict.keys (ODict.alter f k d) = ODict.keys d.
Proof.
  unfold ODict.keys. induction d as [|[k' v'] d IH]; simpl; [done|].
  destruct (decide (k = k')); simpl; [done|]. by f_equal.
Qed.

Lemma odict_alter_lookup (f : V → V) d k k' :
  ODict.lookup k' (ODict.alter f k d) =
    if decide (k' = k) then f <$> ODict.lookup k' d else ODict.lookup k' d.
Proof.
  induction d as [|[k0 v0] d IH]; simpl.
  - by destruct (decide (k' = k)).
  - destruct (decide (k = k0)) as [->|Hne]; simpl.
    + destruct (decide (k' = k0)) as [->|Hne']; [done|done].
    + destruct (decide (k' = k0)) as [->|Hne'].
      * by rewrite decide_False.
      * apply IH.
Qed.

End odict_properties.

(** ** Recipe ids *)

Lemma pretty_N_char_digit (x : N) :
  bool_decide (is_Some (Py.digit (pretty_N_char x))) = true.
Proof. unfold pretty_N_char. by repeat case_match. Qed.

Lemma pretty_N_go_digits (x : N) (s : string) :
  all_digits s = true → all_digits (pretty_N_go x s) = true.
Proof.
  revert s. induction (N.lt_wf_0 x) as [x _ IH]; intros s Hs.
  destruct (decide (x = 0%N)) as [->|Hx]; [by rewrite pretty_N_go_0|].
  rewrite pretty_N_go_step by lia. apply IH.
  - apply N.div_lt; lia.
  - cbn [all_digits]. by rewrite pretty_N_char_digit, Hs.
Qed.

(** [str(n)] is made of decimal digits. *)
Lemma str_of_nat_digits (n : nat) : all_digits (Py.str_of_nat n) = true.
Proof.
  unfold Py.str_of_nat, pretty, pretty_nat, pretty, pretty_N.
  case_decide; [done|]. by apply pretty_N_go_digits.
Qed.

Lemma all_digits_underscore (x y : string) :
  all_digits (x +:+ String "_" y) = false.
Proof.
  induction x as [|c x IH]; [done|].
  rewrite str_app_cons. cbn [all_digits]. rewrite IH. apply andb_false_r.
Qed.

(** Digits after the last [__] can be told from what is before it. *)
Lemma sep_digits_inj (a b d1 d2 : string) :
  all_digits d1 = true → all_digits d2 = true →
  a +:+ "__" +:+ d1 = b +:+ "__" +:+ d2 → a = b ∧ d1 = d2.
Proof.
  intros H1 H2. revert b.
  induction a as [|x a IH]; intros [|y b]; rewrite ?str_app_cons, ?str_app_nil_l.
  - by intros [= ->].
  - intros [= <- H]. destruct b as [|z b]; rewrite ?str_app_cons, ?str_app_nil_l in H.
    + injection H as ->. done.
    + injection H as <- ->.
      by rewrite (all_digits_underscore b (String "_" d2)) in H1.
  - intros [= -> H]. destruct a as [|z a]; rewrite ?str_app_cons, ?str_app_nil_l in H.
    + injection H as <-. done.
    + injection H as -> <-.
      by rewrite (all_digits_underscore a (String "_" d1)) in H2.
  - intros [= -> H]. destruct (IH _ H) as [-> ->]. done.
Qed.

(** For a given facility, the id tells the first output and the number. *)
Lemma make_recipe_id_inj (fid o1 o2 : string) (n1 n2 : nat) :
  make_recipe_id fid o1 n1 = make_recipe_id fid o2 n2 → o1 = o2 ∧ n1 = n2.
Proof.
  unfold make_recipe_id. intros H.
  apply (inj (String.app fid)) in H. apply (inj (String.app "__")) in H.
  apply sep_digits_inj in H as [-> H]; [|apply str_of_nat_digits..].
  split; [done|]. by apply (inj pretty) in H.
Qed.

Lemma number_length (count : gmap string nat) (outs : list string) :
  length (number count outs) = length outs.
Proof.
  revert count. induction outs as [|o outs IH]; intros count; [done|].
  simpl. by rewrite IH.
Qed.

(** The counter only grows. *)
Lemma number_gt (count : gmap string nat) (outs : list string)
    (o : string) (n : nat) :
  (o, n) ∈ number count outs → default 0 (count !! o) < n.
Proof.
  revert count. induction outs as [|o' outs IH]; intros count.
  - by intros ?%elem_of_nil.
  - cbn [number]. intros [[= -> ->]|Hin]%elem_of_cons; [lia|].
    apply IH in Hin. destruct (decide (o' = o)) as [->|Hne].
    + rewrite lookup_insert_eq in Hin. simpl in Hin. lia.
    + by rewrite lookup_insert_ne in Hin.
Qed.

(** No pair of a first output and a number is handed out twice. *)
Lemma number_NoDup (count : gmap string nat) (outs : list string) :
  NoDup (number count outs).
Proof.
  revert count. induction outs as [|o outs IH]; intros count.
  - constructor.
  - cbn [number]. constructor; [|apply IH].
    intros Hin%number_gt. rewrite lookup_insert_eq in Hin. simpl in Hin. lia.
Qed.

Lemma occurrences_cons (o x : string) (outs : list string) :
  occurrences o (x :: outs) =
    (if decide (x = o) then 1 else 0) + occurrences o outs.
Proof.
  unfold occurrences. rewrite filter_cons.
  by destruct (decide (x = o)).
Qed.

(** The number of the recipe at position [k]: the count before the loop
    plus the occurrences of its first output up to [k]. *)
Lemma number_lookup (count : gmap string nat) (outs : list string)
    (k : nat) (o : string) :
  outs !! k = Some o →
  number count outs !! k =
    Some (o, default 0 (count !! o) + occurrences o (take (S k) outs)).
Proof.
  revert count k. induction outs as [|x outs IH]; intros count k; [done|].
  destruct k as [|k]; cbn [number].
  - intros [= ->]. cbn [take lookup list_lookup].
    rewrite occurrences_cons, decide_True by done.
    unfold occurrences. simpl. repeat f_equal; lia.
  - intros Hk. change ((x :: outs) !! S k) with (outs !! k) in Hk.
    change (((x, default 0 (count !! x) + 1)
               :: number (<[x := default 0 (count !! x) + 1]> count) outs)
              !! S k)
      with (number (<[x := default 0 (count !! x) + 1]> count) outs !! k).
    rewrite (IH _ _ Hk).
    change (take (S (S k)) (x :: outs)) with (x :: take (S k) outs).
    rewrite occurrences_cons. f_equal. f_equal.
    destruct (decide (x = o)) as [->|Hne].
    + rewrite lookup_insert_eq. simpl. lia.
    + rewrite lookup_insert_ne by done. lia.
Qed.

(** The ids given to the recipes of a facility are pairwise distinct. *)
Lemma recipe_ids_from_NoDup (fid : string) (count : gmap string nat)
    (rs : list raw_recipe) :
  NoDup (recipe_ids_from fid count rs).
Proof.
  unfold recipe_ids_from. apply NoDup_fmap_2_strong; [|apply number_NoDup].
  intros [o1 n1] [o2 n2] _ _ H. cbn [fst snd] in H.
  by apply make_recipe_id_inj in H as [-> ->].
Qed.

Lemma recipe_ids_from_length (fid : string) (count : gmap string nat)
    (rs : list raw_recipe) :
  Forall (λ r, is_Some (first_out_id r)) rs →
  length (recipe_ids_from fid count rs) = length rs.
Proof.
  intros Hall. unfold recipe_ids_from. rewrite length_fmap, number_length.
  induction Hall as [|r rs [o Ho] _ IH]; [done|].
  cbn [omap list_omap]. rewrite Ho. simpl. by rewrite IH.
Qed.

Lemma omap_first_out_lookup (rs : list raw_recipe) (k : nat)
    (r : raw_recipe) :
  Forall (λ r, is_Some (first_out_id r)) rs →
  rs !! k = Some r → omap first_out_id rs !! k = first_out_id r.
Proof.
  intros Hall. revert k. induction Hall as [|r' rs [o Ho] _ IH]; intros k.
  - done.
  - cbn [omap list_omap]. rewrite Ho. destruct k as [|k].
    + intros [= <-]. by rewrite Ho.
    + apply IH.
Qed.

(** The id of the recipe at position [k] of a facility. *)
Lemma recipe_ids_lookup (fid : string) (rs : list raw_recipe) (k : nat)
    (r : raw_recipe) (o : string) :
  Forall (λ r, is_Some (first_out_id r)) rs →
  rs !! k = Some r → first_out_id r = Some o →
  recipe_ids fid rs !! k =
    Some (make_recipe_id fid o
            (occurrences o (take (S k) (omap first_out_id rs)))).
Proof.
  intros Hall Hk Ho. unfold recipe_ids, recipe_ids_from.
  rewrite list_lookup_fmap, (number_lookup _ _ _ o).
  - by rewrite lookup_empty.
  - by rewrite (omap_first_out_lookup _ _ r).
Qed.

(** ** The loops of the aggregation *)

Lemma getitem_0 {A} (l : list A) (x : A) :
  Py.getitem l 0 = Ok x ↔ head l = Some x.
Proof.
  unfold Py.getitem. destruct l as [|y l]; simpl; [by split|].
  split; by intros [= ->].
Qed.

Lemma material_name_Ok (m : raw_material) (n : string) :
  material_name m = Ok n ↔ name m = Some n.
Proof. unfold material_name. destruct (name m); split; by intros [= ->]. Qed.

Lemma with_supported_nil (f : facility) : with_supported f [] = f.
Proof. destruct f. unfold with_supported. simpl. by rewrite app_nil_r. Qed.

Lemma with_supported_app (f : facility) (l1 l2 : list string) :
  with_supported (with_supported f l1) l2 = with_supported f (l1 ++ l2).
Proof. unfold with_supported. simpl. by rewrite app_assoc. Qed.

(** *** Items *)

Lemma extends_refl (its : list (string * item)) : extends its its.
Proof. split; [done|]. intros k v ?. by left. Qed.

Lemma extends_trans (a b c : list (string * item)) :
  extends a b → extends b c → extends a c.
Proof.
  intros [Hab1 Hab2] [Hbc1 Hbc2]. split; [by eauto|].
  intros k v [Hb|[Hb Hnew]]%Hbc2.
  - by apply Hab2.
  - right. split; [|done].
    destruct (ODict.lookup k a) as [v'|] eqn:Ha; [|done].
    apply Hab1 in Ha. congruence.
Qed.

Lemma extends_keys (its its' : list (string * item)) (k : string) :
  extends its its' → k ∈ ODict.keys its → k ∈ ODict.keys its'.
Proof.
  intros [H _]. rewrite !odict_lookup_keys. intros [v Hv]. eauto.
Qed.

Lemma setdefault_item_spec (its its' : list (string * item))
    (m : raw_material) :
  setdefault_item its m = Ok its' →
  ∃ n, name m = Some n ∧
    its' = ODict.setdefault (Py.replace_space n)
             (Item (Py.replace_space n) n None None) its.
Proof.
  unfold setdefault_item. intros H. inv_bind.
  apply material_name_Ok in Ha. eauto.
Qed.

Lemma setdefault_extends (its : list (string * item)) (n : string) :
  extends its
    (ODict.setdefault (Py.replace_space n)
       (Item (Py.replace_space n) n None None) its).
Proof.
  split; intros k v; rewrite odict_setdefault_lookup.
  - by intros ->.
  - destruct (ODict.lookup k its) as [v'|]; [intros [= ->]; by left|].
    case_decide as Hk; [|done]. intros [= <-]. right.
    split; [done|]. exists n. by subst k.
Qed.

Lemma setdefault_items_spec (ms : list raw_material)
    (its its' : list (string * item)) :
  for_each setdefault_item ms its = Ok its' →
  extends its its' ∧
  ∀ m, m ∈ ms → ∃ n, name m = Some n ∧ Py.replace_space n ∈ ODict.keys its'.
Proof.
  revert its. induction ms as [|m ms IH]; intros its H; cbn [for_each] in H.
  - injection H as <-. split; [apply extends_refl|].
    by intros m ?%elem_of_nil.
  - inv_bind. apply setdefault_item_spec in Ha as (n & Hn & ->).
    destruct (IH _ H) as [Hext Hall]. split.
    + eapply extends_trans; [apply setdefault_extends|done].
    + intros m' [->|Hin]%elem_of_cons; [|by apply Hall].
      exists n. split; [done|]. eapply extends_keys; [done|].
      apply odict_setdefault_keys. by left.
Qed.

Lemma items_known_mono (its its' : list (string * item)) (raw : raw_recipe) :
  extends its its' → items_known its raw → items_known its' raw.
Proof.
  intros Hext Hraw m Hm. destruct (Hraw m Hm) as (n & Hn & Hk).
  exists n. split; [done|]. by eapply extends_keys.
Qed.

Lemma add_recipe_items_spec (its its' : list (string * item))
    (r : raw_recipe) :
  add_recipe_items its r = Ok its' → extends its its' ∧ items_known its' r.
Proof.
  unfold add_recipe_items. intros H. inv_bind.
  apply setdefault_items_spec in Ha as [Hext1 Hin].
  apply setdefault_items_spec in H as [Hext2 Hout].
  split; [by eapply extends_trans|].
  intros m [Hm|Hm]%elem_of_app; [|by apply Hout].
  destruct (Hin m Hm) as (n & Hn & Hk). exists n. split; [done|].
  by eapply extends_keys.
Qed.

(** After the loop of lines 222-244 every item the facility's recipes
    refer to is a key of [items]. *)
Lemma add_items_spec (rs : list raw_recipe)
    (its its' : list (string * item)) :
  for_each add_recipe_items rs its = Ok its' →
  extends its its' ∧ ∀ r, r ∈ rs → items_known its' r.
Proof.
  revert its. induction rs as [|r rs IH]; intros its H; cbn [for_each] in H.
  - injection H as <-. split; [apply extends_refl|].
    by intros r ?%elem_of_nil.
  - inv_bind. apply add_recipe_items_spec in Ha as [Hext1 Hr].
    destruct (IH _ H) as [Hext2 Hall]. split.
    + by eapply extends_trans.
    + intros r' [->|Hin]%elem_of_cons; [|by apply Hall].
      by eapply items_known_mono.
Qed.

(** *** Recipes *)

Lemma add_recipe_spec (fid : string) (count : gmap string nat) (st : state)
    (r : raw_recipe) (acc' : gmap string nat * state) :
  add_recipe fid (count, st) r = Ok acc' →
  ∃ o f ins outs,
    first_out_id r = Some o ∧ facilities st !! fid = Some f ∧
    mapM item_amount_of (inputs r) = Ok ins ∧
    mapM item_amount_of (outputs r) = Ok outs ∧
    let seq := default 0 (count !! o) + 1 in
    let rid := make_recipe_id fid o seq in
    acc' = (<[o := seq]> count,
            State (items st)
              (<[fid := append_supported rid f]> (facilities st))
              (<[rid := Recipe rid fid ins outs (time r)]> (recipes st))
              (img_jobs st)).
Proof.
  unfold add_recipe. cbn [fst snd]. intros H. inv_bind.
  apply getitem_0 in Ha. apply material_name_Ok in Ha0.
  destruct (facilities st !! fid) as [f|] eqn:Hf; [|done].
  injection H as <-. exists (Py.replace_space a0), f, a1, a2.
  split; [|done]. unfold first_out_id. rewrite Ha. cbn [mbind option_bind].
  by rewrite Ha0.
Qed.

Lemma add_recipes_spec (fid : string) (rs : list raw_recipe)
    (count : gmap string nat) (st : state)
    (acc' : gmap string nat * state) (f : facility)
    (F0 : gmap string facility) :
  for_each (add_recipe fid) rs (count, st) = Ok acc' →
  facilities st = <[fid := f]> F0 →
  Forall (λ r, is_Some (first_out_id r)) rs ∧
  facilities acc'.2 =
    <[fid := with_supported f (recipe_ids_from fid count rs)]> F0 ∧
  items acc'.2 = items st ∧ img_jobs acc'.2 = img_jobs st ∧
  (∀ rid, rid ∉ recipe_ids_from fid count rs →
     recipes acc'.2 !! rid = recipes st !! rid) ∧
  (∀ rid, rid ∈ recipe_ids_from fid count rs →
     ∃ raw r, raw ∈ rs ∧ recipes acc'.2 !! rid = Some r ∧
       recipe_of fid rid raw r).
Proof.
  revert count st f.
  induction rs as [|raw rs IH]; intros count st f H HF; cbn [for_each] in H.
  - injection H as <-. cbn [snd]. rewrite with_supported_nil.
    repeat split; try done. by intros rid ?%elem_of_nil.
  - inv_bind.
    apply add_recipe_spec in Ha as (o & f0 & ins & outs & Ho & Hf & Hi & Hou & ->).
    rewrite HF, lookup_insert_eq in Hf. injection Hf as <-.
    set (seq := default 0 (count !! o) + 1) in *.
    set (rid := make_recipe_id fid o seq) in *.
    eapply IH in H as (Hall & HF' & Hits & Hjobs & Hold & Hnew).
    2: { cbn [facilities]. rewrite HF. apply insert_insert_eq. }
    assert (recipe_ids_from fid count (raw :: rs) =
            rid :: recipe_ids_from fid (<[o := seq]> count) rs) as Hids.
    { unfold recipe_ids_from. cbn [omap list_omap]. by rewrite Ho. }
    rewrite Hids. split; [constructor; [by eexists|done]|].
    split.
    { rewrite HF'. f_equal.
      change (append_supported rid f) with (with_supported f [rid]).
      by rewrite with_supported_app. }
    split; [done|]. split; [done|]. split.
    + intros rid' [Hne Hnot]%not_elem_of_cons.
      rewrite Hold by done. cbn [recipes]. by rewrite lookup_insert_ne.
    + intros rid' Hin.
      destruct (decide (rid' ∈ recipe_ids_from fid (<[o := seq]> count) rs))
        as [Hin'|Hnot].
      * destruct (Hnew _ Hin') as (raw' & r & Hraw & Hr & Hof).
        exists raw', r. split; [by right|done].
      * apply elem_of_cons in Hin as [->|?]; [|done].
        exists raw, (Recipe rid fid ins outs (time raw)).
        split; [by left|]. split; [|done].
        rewrite Hold by done. cbn [recipes]. apply lookup_insert_eq.
Qed.

(** *** Item images *)

Lemma same_but_images_refl (its : list (string * item)) :
  same_but_images its its.
Proof. split; [done|]. intros k it ?. by exists it. Qed.

Lemma same_but_images_trans (a b c : list (string * item)) :
  same_but_images a b → same_but_images b c → same_but_images a c.
Proof.
  intros [Hk1 H1] [Hk2 H2]. split; [congruence|].
  intros k it Hit. destruct (H1 _ _ Hit) as (it1 & Hit1 & ? & ? & ?).
  destruct (H2 _ _ Hit1) as (it2 & Hit2 & ? & ? & ?).
  exists it2. repeat split; congruence.
Qed.

Lemma set_image_same_but_images (its : list (string * item))
    (k img : string) :
  same_but_images its (ODict.alter (set_image img) k its).
Proof.
  split; [apply odict_alter_keys|].
  intros k' it Hit. rewrite odict_alter_lookup, Hit.
  case_decide; [by exists (set_image img it) | by exists it].
Qed.

Section pipeline_properties.
Variable urljoin : string → string → string.
Variable unquote : string → string.
Variable stem : string → string.

(** [image_filename] never raises. *)
Lemma image_filename_total (src : string) :
  is_Ok (image_filename unquote src).
Proof.
  unfold image_filename.
  destruct (split_last "/" src) as [x ->]; [done|].
  cbn [mbind result_bind]. rewrite split_head by done. by eexists.
Qed.

(** One turn of the loop of lines 270-279 never raises; it queues a job
    and touches at most the image of one item. *)
Lemma add_item_image_spec (st : state) (src : string) :
  ∃ full_src filename,
    normalize_item_image_url src = Ok full_src ∧
    image_filename unquote full_src = Ok filename ∧
    add_item_image urljoin unquote stem st src =
      Ok (State
            (if ODict.mem (thumbnail_item_id stem filename) (items st)
             then ODict.alter (set_image ("images/items/" +:+ filename))
                    (thumbnail_item_id stem filename) (items st)
             else items st)
            (facilities st) (recipes st)
            (img_jobs st ++
               [(urljoin BASE_URL full_src,
                 "export/images/items/" +:+ filename)])).
Proof.
  destruct (normalize_total src) as [full_src Hn].
  destruct (image_filename_total full_src) as [filename Hf].
  exists full_src, filename. split; [done|]. split; [done|].
  unfold add_item_image. rewrite Hn. cbn [mbind result_bind].
  by rewrite Hf.
Qed.

Lemma add_item_images_spec (srcs : list string) (st : state) :
  ∃ st', for_each (add_item_image urljoin unquote stem) srcs st = Ok st' ∧
    same_but_images (items st) (items st') ∧
    facilities st' = facilities st ∧ recipes st' = recipes st.
Proof.
  revert st. induction srcs as [|src srcs IH]; intros st.
  - exists st. split; [done|]. split; [apply same_but_images_refl|done].
  - destruct (add_item_image_spec st src) as (full_src & filename & _ & _ & H).
    cbn [for_each]. rewrite H. cbn [mbind result_bind].
    match goal with |- context [for_each _ srcs ?s] =>
      destruct (IH s) as (st' & Hrun & Hits & Hf & Hr) end.
    exists st'. split; [done|]. cbn [items facilities recipes] in *.
    split; [|done].
    eapply same_but_images_trans; [|done].
    case_match; [apply set_image_same_but_images|apply same_but_images_refl].
Qed.

(** *** One facility *)

(** What processing one facility does to the accumulators. *)
Lemma process_facility_spec (st st' : state) (fname : string)
    (page : facility_page) :
  process_facility urljoin unquote stem st (fname, page) = Ok st' →
  ∃ its fac,
    for_each add_recipe_items (facility_recipes page) (items st) = Ok its ∧
    extends (items st) its ∧
    (∀ r, r ∈ facility_recipes page → items_known its r) ∧
    same_but_images its (items st') ∧
    Forall (λ r, is_Some (first_out_id r)) (facility_recipes page) ∧
    facility_id fac = Py.replace_space fname ∧
    facility_name fac = fname ∧
    supportedRecipes fac =
      recipe_ids (Py.replace_space fname) (facility_recipes page) ∧
    facilities st' = <[Py.replace_space fname := fac]> (facilities st) ∧
    (∀ rid,
       rid ∉ recipe_ids (Py.replace_space fname) (facility_recipes page) →
       recipes st' !! rid = recipes st !! rid) ∧
    (∀ rid,
       rid ∈ recipe_ids (Py.replace_space fname) (facility_recipes page) →
       ∃ raw r, raw ∈ facility_recipes page ∧
         recipes st' !! rid = Some r ∧
         recipe_of (Py.replace_space fname) rid raw r).
Proof.
  unfold process_facility. cbn [fst snd items facilities recipes img_jobs].
  intros H. inv_bind. rename a into its, a0 into acc.
  destruct (add_items_spec _ _ _ Ha) as [Hext Hknown].
  eapply add_recipes_spec in Ha0 as (Hall & HF & Hits & Hjobs & Hold & Hnew);
    [|reflexivity].
  destruct (add_item_images_spec (item_img_srcs page) acc.2)
    as (st'' & Hrun & Himg & Hfac & Hrec).
  rewrite Hrun in H. injection H as <-.
  cbn [items facilities recipes img_jobs] in *. rewrite Hits in Himg.
  eexists its, _. split; [done|]. split; [done|]. split; [done|].
  split; [done|]. split; [done|].
  split; [|split; [|split; [|split; [by rewrite Hfac, HF|]]]].
  - done.
  - done.
  - done.
  - rewrite Hrec. split; [done|]. intros rid Hin.
    destruct (Hnew rid Hin) as (raw & r & ? & ? & ?). eauto.
Qed.

End pipeline_properties.

(** ** The aggregation as a whole *)

Lemma item_amounts_known (its : list (string * item))
    (ms : list raw_material) (ias : list item_amount) (ia : item_amount) :
  mapM item_amount_of ms = Ok ias → ia ∈ ias →
  (∀ m, m ∈ ms →
     ∃ n, name m = Some n ∧ Py.replace_space n ∈ ODict.keys its) →
  itemId ia ∈ ODict.keys its.
Proof.
  intros Hms%mapM_Ok Hia Hknown.
  induction Hms as [|m ia' ms ias Hm _ IH]; [by apply elem_of_nil in Hia|].
  apply elem_of_cons in Hia as [->|Hia].
  - destruct (Hknown m) as (n & Hn & Hk); [by left|].
    unfold item_amount_of, material_name in Hm. rewrite Hn in Hm.
    by injection Hm as <-.
  - apply IH; [done|]. intros m' ?. apply Hknown. by right.
Qed.

Lemma recipe_of_items_known (its : list (string * item)) (fid rid : string)
    (raw : raw_recipe) (r : recipe) (ia : item_amount) :
  recipe_of fid rid raw r → items_known its raw →
  ia ∈ recipe_inputs r ++ recipe_outputs r →
  itemId ia ∈ ODict.keys its.
Proof.
  intros (_ & _ & Hin & Hout & _) Hknown [Hia|Hia]%elem_of_app.
  - eapply item_amounts_known; [exact Hin|exact Hia|].
    intros m ?. apply Hknown, elem_of_app. by left.
  - eapply item_amounts_known; [exact Hout|exact Hia|].
    intros m ?. apply Hknown, elem_of_app. by right.
Qed.

Section aggregate_properties.
Variable urljoin : string → string → string.
Variable unquote : string → string.
Variable stem : string → string.

(** The three invariants hold after the loop over the facilities. *)
Lemma aggregate_invariant (facility_names : list string)
    (results : list facility_page) (st : state) :
  aggregate urljoin unquote stem facility_names results = Ok st →
  items_cover_recipes st ∧
  facilities_from (zip facility_names results) st ∧
  recipes_from (zip facility_names results) st.
Proof.
  unfold aggregate. set (ps := zip facility_names results).
  apply (for_each_invariant
    (λ st, items_cover_recipes st ∧ facilities_from ps st ∧
           recipes_from ps st)).
  - clear st. intros st [fname page] st' Hp (Hcover & Hfac & Hrec) Hstep.
    apply process_facility_spec in Hstep
      as (its & fac & _ & Hext & Hknown & [Hkeys Himg] & Hall & Hid & _ &
          Hsup & HF & Hold & Hnew).
    set (fid := Py.replace_space fname) in *.
    set (ids := recipe_ids fid (facility_recipes page)) in *.
    assert (∀ rid, is_Some (recipes st !! rid) → is_Some (recipes st' !! rid))
      as Hkeep.
    { intros rid Hsome. destruct (decide (rid ∈ ids)) as [Hin|Hnot].
      - destruct (Hnew rid Hin) as (? & r & _ & -> & _). by eexists.
      - by rewrite Hold. }
    split; [|split].
    + intros rid r ia Hr Hia. unfold ODict.keys in *. rewrite Hkeys.
      destruct (decide (rid ∈ ids)) as [Hin|Hnot].
      * destruct (Hnew rid Hin) as (raw & r' & Hraw & Hr' & Hof).
        rewrite Hr in Hr'. injection Hr' as <-.
        eapply recipe_of_items_known; [done| |done]. by apply Hknown.
      * rewrite Hold in Hr by done.
        eapply (extends_keys (items st)); [done|]. by eapply Hcover.
    + intros fid' f. rewrite HF. destruct (decide (fid = fid')) as [<-|Hne].
      * rewrite lookup_insert_eq. intros [= <-].
        exists fname, page. repeat split; try done.
        intros rid Hin. rewrite Hsup in Hin.
        destruct (Hnew rid Hin) as (? & r & _ & -> & _). by eexists.
      * rewrite lookup_insert_ne by done. intros Hf.
        destruct (Hfac _ _ Hf) as (fn & pg & ? & ? & ? & ? & ? & Hin).
        exists fn, pg. repeat split; try done.
        intros rid ?. by apply Hkeep, Hin.
    + intros rid r Hr. destruct (decide (rid ∈ ids)) as [Hin|Hnot].
      * destruct (Hnew rid Hin) as (raw & r' & Hraw & Hr' & Hof).
        rewrite Hr in Hr'. injection Hr' as <-.
        split; [by destruct Hof|]. by exists fname, page, raw.
      * rewrite Hold in Hr by done. by apply Hrec.
  - split; [|split].
    + by intros rid r ia Hr.
    + by intros fid f Hf.
    + by intros rid r Hr.
Qed.

End aggregate_properties.

(** ** Recipe ids *)

Lemma occurrences_pos (outs : list string) (k : nat) (o : string) :
  outs !! k = Some o → 1 ≤ occurrences o (take (S k) outs).
Proof.
  revert k. induction outs as [|x outs IH]; intros k; [done|].
  change (take (S k) (x :: outs)) with (x :: take k outs).
  rewrite occurrences_cons. destruct k as [|k].
  - intros [= ->]. rewrite decide_True by done. lia.
  - intros Hk%IH. lia.
Qed.

Section claims_on_aggregate.
Variable urljoin : string → string → string.
Variable unquote : string → string.
Variable stem : string → string.

(** Within one facility the ids are numbered and unique. The id of every
    entry of the recipes map is
    [{facilityId}__{firstOutputItemId}__{sequenceNumber}] for a recipe of
    some page, the number being the number of recipes of that page, up to
    this one, with this first output: it starts at 1 and grows by one
    with each further recipe for the same first output. The ids a
    facility record lists, one for each recipe of its page and in their
    order, are pairwise distinct. *)
Theorem recipe_ids_within_facility (facility_names : list string)
    (results : list facility_page) (st : state) :
  aggregate urljoin unquote stem facility_names results = Ok st →
  (∀ rid r, recipes st !! rid = Some r →
     ∃ fname page k raw o,
       (fname, page) ∈ zip facility_names results ∧
       facility_recipes page !! k = Some raw ∧ first_out_id raw = Some o ∧
       facilityId r = Py.replace_space fname ∧
       1 ≤ occurrences o (take (S k) (omap first_out_id (facility_recipes page))) ∧
       recipe_id r =
         make_recipe_id (Py.replace_space fname) o
           (occurrences o
              (take (S k) (omap first_out_id (facility_recipes page))))) ∧
  (∀ fid f, facilities st !! fid = Some f →
     ∃ fname page,
       (fname, page) ∈ zip facility_names results ∧
       fid = Py.replace_space fname ∧
       NoDup (supportedRecipes f) ∧
       length (supportedRecipes f) = length (facility_recipes page) ∧
       ∀ k raw o,
         facility_recipes page !! k = Some raw → first_out_id raw = Some o →
         supportedRecipes f !! k =
           Some (make_recipe_id fid o
                   (occurrences o
                      (take (S k)
                         (omap first_out_id (facility_recipes page)))))).
Proof.
  intros (_ & Hfac & Hrec)%aggregate_invariant. split.
  - intros rid r [Hid (fname & page & raw0 & Hp & _ & Hall & Hin & Hof)]%Hrec.
    apply list_elem_of_lookup in Hin as [k Hk].
    pose proof (lookup_lt_Some _ _ _ Hk) as Hlt.
    unfold recipe_ids in Hlt. rewrite recipe_ids_from_length in Hlt by done.
    destruct (lookup_lt_is_Some_2 _ _ Hlt) as [raw Hraw].
    destruct (proj1 (Forall_lookup _ _) Hall _ _ Hraw) as [o Ho].
    rewrite (recipe_ids_lookup _ _ _ _ _ Hall Hraw Ho) in Hk.
    injection Hk as Hk. destruct Hof as (_ & Hfid & _).
    exists fname, page, k, raw, o. repeat split; try done.
    + apply occurrences_pos. by rewrite (omap_first_out_lookup _ _ raw).
    + congruence.
  - intros fid f (fname & page & Hp & Hfid & _ & Hall & Hsup & _)%Hfac.
    subst fid.
    exists fname, page. split; [done|]. split; [done|]. rewrite Hsup.
    split; [apply recipe_ids_from_NoDup|].
    split; [by apply recipe_ids_from_length|].
    intros k raw o Hraw Ho. by apply (recipe_ids_lookup _ _ _ raw).
Qed.

(** C3. After the aggregation, the item id of every input and output of
    every recipe record is a key of the items map. The entries are
    inserted, as [setdefault] makes them (id, name, no image, no tier),
    by the loop that runs before the recipe records of the facility are
    built: the items map that loop leaves already has all the keys the
    facility ends with. *)
Theorem recipe_items_exist (facility_names : list string)
    (results : list facility_page) (st : state) :
  aggregate urljoin unquote stem facility_names results = Ok st →
  (∀ rid r ia, recipes st !! rid = Some r →
     ia ∈ recipe_inputs r ++ recipe_outputs r →
     itemId ia ∈ ODict.keys (items st)) ∧
  (∀ st0 fname page st1,
     process_facility urljoin unquote stem st0 (fname, page) = Ok st1 →
     ∃ its,
       for_each add_recipe_items (facility_recipes page) (items st0) = Ok its ∧
       extends (items st0) its ∧
       (∀ r, r ∈ facility_recipes page → items_known its r) ∧
       ODict.keys (items st1) = ODict.keys its).
Proof.
  intros (Hcover & _ & _)%aggregate_invariant. split; [done|].
  intros st0 fname page st1 Hstep.
  apply process_facility_spec in Hstep
    as (its & fac & Hloop & Hext & Hknown & [Hkeys _] & _).
  by exists its.
Qed.

(** Two elements with the same image under a function that is injective
    on the list are equal. *)
Lemma NoDup_fmap_eq {A B} (f : A → B) (l : list A) (x y : A) :
  NoDup (f <$> l) → x ∈ l → y ∈ l → f x = f y → x = y.
Proof.
  induction l as [|a l IH]; [by intros _ ?%elem_of_nil|].
  rewrite fmap_cons, NoDup_cons.
  intros [Hnot Hnd] [->|Hx]%elem_of_cons [->|Hy]%elem_of_cons Hf.
  - done.
  - destruct Hnot. rewrite Hf. by apply list_elem_of_fmap_2.
  - destruct Hnot. rewrite <-Hf. by apply list_elem_of_fmap_2.
  - by apply IH.
Qed.

Lemma elem_of_concat {A} (x : A) (ls : list (list A)) :
  x ∈ concat ls ↔ ∃ l, x ∈ l ∧ l ∈ ls.
Proof.
  induction ls as [|l ls IH]; cbn [concat].
  - split; [by intros ?%elem_of_nil|]. by intros (l & _ & ?%elem_of_nil).
  - rewrite elem_of_app, IH. split.
    + intros [?|(l' & ? & ?)]; [exists l; split; [done|by left]|].
      exists l'. split; [done|by right].
    + intros (l' & ? & [->|?]%elem_of_cons); [by left|right; eauto].
Qed.

(** Two lists of a duplicate-free concatenation that share an element
    are the same. *)
Lemma NoDup_concat_eq {A B} (f : A → list B) (l : list A) (x y : A) (b : B) :
  NoDup (concat (f <$> l)) → x ∈ l → y ∈ l → b ∈ f x → b ∈ f y → x = y.
Proof.
  induction l as [|a l IH]; [by intros _ ?%elem_of_nil|].
  rewrite fmap_cons. cbn [concat]. rewrite NoDup_app.
  intros (_ & Hdis & Hnd) [->|Hx]%elem_of_cons [->|Hy]%elem_of_cons Hbx Hby.
  - done.
  - destruct (Hdis b Hbx). apply elem_of_concat.
    exists (f y). split; [done|]. by apply list_elem_of_fmap_2.
  - destruct (Hdis b Hby). apply elem_of_concat.
    exists (f x). split; [done|]. by apply list_elem_of_fmap_2.
  - by apply IH.
Qed.

(** After the aggregation of facilities whose facility ids are pairwise
    distinct and whose recipes get pairwise distinct ids, the
    [supportedRecipes] of every facility record hold exactly the ids of
    the recipe records whose [facilityId] is the id of the facility: none
    missing, none extra, none twice. *)
Lemma supported_recipes_exact (facility_names : list string)
    (results : list facility_page) (st : state) :
  aggregate urljoin unquote stem facility_names results = Ok st →
  NoDup (facility_ids (zip facility_names results)) →
  NoDup (all_recipe_ids (zip facility_names results)) →
  supported_exact st.
Proof.
  intros (_ & Hfac & Hrec)%aggregate_invariant Hfids Hrids fid f Hf.
  destruct (Hfac _ _ Hf) as (fname & page & Hp & Hfid & Hid & _ & Hsup & Hin).
  subst fid. rewrite Hsup. split; [apply recipe_ids_from_NoDup|].
  intros rid. split.
  - intros Hrid. destruct (Hin rid) as [r Hr]; [by rewrite Hsup|].
    exists r. split; [done|].
    destruct (Hrec _ _ Hr)
      as (_ & fname' & page' & raw & Hp' & _ & _ & Hrid' & _ & Hfid & _).
    assert ((fname, page) = (fname', page')) as [= <- <-]; [|congruence].
    by eapply (NoDup_concat_eq
      (λ p, recipe_ids (Py.replace_space p.1) (facility_recipes p.2))).
  - intros (r & Hr & Hfid).
    destruct (Hrec _ _ Hr)
      as (_ & fname' & page' & raw & Hp' & _ & _ & Hrid' & _ & Hfid' & _).
    assert ((fname', page') = (fname, page)) as [= -> ->]; [|done].
    eapply (NoDup_fmap_eq (λ p, Py.replace_space p.1)); [done..|].
    cbn [fst]. congruence.
Qed.

End claims_on_aggregate.

Lemma recipe_ids_within_facility_witness :
  ∃ st,
    aggregate urljoin_plain unquote_plain stem_plain
      ["Smelter"] [smelter_page] = Ok st ∧
    supportedRecipes <$> facilities st !! "Smelter" =
      Some ["Smelter__Iron_Ingot__1"; "Smelter__Iron_Ingot__2"] ∧
    ∀ fid f, facilities st !! fid = Some f →
      ∃ fname page,
        (fname, page) ∈ zip ["Smelter"] [smelter_page] ∧
        fid = Py.replace_space fname ∧
        NoDup (supportedRecipes f) ∧
        length (supportedRecipes f) = length (facility_recipes page) ∧
        ∀ k raw o,
          facility_recipes page !! k = Some raw → first_out_id raw = Some o →
          supportedRecipes f !! k =
            Some (make_recipe_id fid o
                    (occurrences o
                       (take (S k)
                          (omap first_out_id (facility_recipes page))))).
Proof.
  eexists. split; [vm_compute; reflexivity|].
  split; [vm_compute; reflexivity|].
  eapply (proj2 (recipe_ids_within_facility urljoin_plain unquote_plain
                   stem_plain ["Smelter"] [smelter_page] _ _)).
  Unshelve. vm_compute. reflexivity.
Defined.

(** C2. The ids the loop generates are not unique. The recipe of facility
    [A] with first output [B__C] and the recipe of facility [A__B] with
    first output [C] are both given the id [A__B__C__1]: after the
    aggregation both facility records list this id, and of the two
    records written under it the recipes map holds one, the one of
    facility [A__B] written last. Two scraped recipes share an id, and
    the record of one of them is lost. *)
Theorem recipe_ids_collide :
  ∃ st,
    aggregate urljoin_plain unquote_plain stem_plain
      ["A"; "A__B"] [page_a; page_a_b] = Ok st ∧
    length (facility_recipes page_a) + length (facility_recipes page_a_b) = 2 ∧
    supportedRecipes <$> facilities st !! "A" = Some ["A__B__C__1"] ∧
    supportedRecipes <$> facilities st !! "A__B" = Some ["A__B__C__1"] ∧
    size (recipes st) = 1 ∧
    recipes st !! "A__B__C__1" =
      Some (Recipe "A__B__C__1" "A__B" [ItemAmount "Y" 1] [ItemAmount "C" 1]
              "1s").
Proof.
  eexists. split; [vm_compute; reflexivity|].
  split; [reflexivity|]. split; [vm_compute; reflexivity|].
  split; [vm_compute; reflexivity|]. split; [vm_compute; reflexivity|].
  vm_compute. reflexivity.
Qed.

Lemma recipe_items_exist_witness :
  ∃ st,
    aggregate urljoin_plain unquote_plain stem_plain
      ["Smelter"; "Grinder"] [smelter_page; grinder_page] = Ok st ∧
    ODict.keys (items st) =
      ["Iron_Ore"; "Iron_Ingot"; "Iron_Dust"] ∧
    ∀ rid r ia, recipes st !! rid = Some r →
      ia ∈ recipe_inputs r ++ recipe_outputs r →
      itemId ia ∈ ODict.keys (items st).
Proof.
  eexists. split; [vm_compute; reflexivity|].
  split; [vm_compute; reflexivity|].
  eapply (proj1 (recipe_items_exist urljoin_plain unquote_plain stem_plain
                   ["Smelter"; "Grinder"] [smelter_page; grinder_page] _ _)).
  Unshelve. vm_compute. reflexivity.
Defined.

(** C4. The [supportedRecipes] of a facility should hold exactly the ids
    of the recipe records whose [facilityId] is the id of the facility.
    The ids the script generates are not unique across facilities:
    facility [A] with first output [B__C] and facility [A__B] with first
    output [C] both write the recipe [A__B__C__1], and after the
    aggregation facility [A] lists an id whose record belongs to facility
    [A__B]. *)
Theorem supported_recipes_collision :
  ∃ st,
    aggregate urljoin_plain unquote_plain stem_plain
      ["A"; "A__B"] [page_a; page_a_b] = Ok st ∧
    supportedRecipes <$> facilities st !! "A" = Some ["A__B__C__1"] ∧
    facilityId <$> recipes st !! "A__B__C__1" = Some "A__B" ∧
    ¬ supported_exact st.
Proof.
  eexists. split; [vm_compute; reflexivity|].
  split; [vm_compute; reflexivity|]. split; [vm_compute; reflexivity|].
  intros Hexact.
  match type of Hexact with supported_exact ?s =>
    destruct (facilities s !! "A") as [f|] eqn:Hf;
      [|by vm_compute in Hf]
  end.
  destruct (Hexact "A" f Hf) as [_ Hiff].
  vm_compute in Hf. injection Hf as <-.
  destruct (proj1 (Hiff "A__B__C__1")) as (r & Hr & Hfid);
    [apply list_elem_of_here|].
  vm_compute in Hr. injection Hr as <-. vm_compute in Hfid. discriminate.
Qed.

Lemma supported_recipes_exact_witness :
  ∃ st,
    aggregate urljoin_plain unquote_plain stem_plain
      ["Smelter"; "Grinder"] [smelter_page; grinder_page] = Ok st ∧
    NoDup (facility_ids (zip ["Smelter"; "Grinder"]
                           [smelter_page; grinder_page])) ∧
    NoDup (all_recipe_ids (zip ["Smelter"; "Grinder"]
                             [smelter_page; grinder_page])) ∧
    supported_exact st.
Proof.
  eexists. split; [vm_compute; reflexivity|].
  assert (NoDup (facility_ids (zip ["Smelter"; "Grinder"]
                                 [smelter_page; grinder_page]))) as H1.
  { apply (bool_decide_unpack _). vm_compute. exact I. }
  assert (NoDup (all_recipe_ids (zip ["Smelter"; "Grinder"]
                                   [smelter_page; grinder_page]))) as H2.
  { apply (bool_decide_unpack _). vm_compute. exact I. }
  split; [exact H1|]. split; [exact H2|].
  eapply (supported_recipes_exact urljoin_plain unquote_plain stem_plain
            ["Smelter"; "Grinder"] [smelter_page; grinder_page] _ _ H1 H2).
  Unshelve. vm_compute. reflexivity.
Defined.

(** ** The thumbnail pass *)

Section thumbnail_pass.
Variable urljoin : string → string → string.
Variable unquote : string → string.
Variable stem : string → string.

(** C10. The thumbnail pass never adds a key to the items map. A turn of
    the loop never raises; with [item_id] the id derived from the stem of
    the decoded file name, spaces replaced by underscores: when [item_id]
    is no key of the items map the map stays as it is, and when it is a
    key only the image field of that item changes. A whole pass leaves
    the keys, and the id, name and tier of every item, as they were. *)
Theorem thumbnail_pass_frame (st : state) (src : string) :
  (∃ full_src filename st',
     normalize_item_image_url src = Ok full_src ∧
     image_filename unquote full_src = Ok filename ∧
     add_item_image urljoin unquote stem st src = Ok st' ∧
     ODict.keys (items st') = ODict.keys (items st) ∧
     (ODict.mem (thumbnail_item_id stem filename) (items st) = false →
      items st' = items st) ∧
     (∀ k it, ODict.lookup k (items st) = Some it →
        ∃ it', ODict.lookup k (items st') = Some it' ∧
          item_id it' = item_id it ∧ item_name_en it' = item_name_en it ∧
          item_tier it' = item_tier it ∧
          (k ≠ thumbnail_item_id stem filename → it' = it) ∧
          (k = thumbnail_item_id stem filename →
           item_image it' = Some ("images/items/" +:+ filename)))) ∧
  (∀ srcs, ∃ st',
     for_each (add_item_image urljoin unquote stem) srcs st = Ok st' ∧
     same_but_images (items st) (items st')).
Proof.
  split.
  - destruct (add_item_image_spec urljoin unquote stem st src)
      as (full_src & filename & Hn & Hf & Hrun).
    eexists full_src, filename, _. split; [done|]. split; [done|].
    split; [exact Hrun|]. cbn [items].
    destruct (ODict.mem (thumbnail_item_id stem filename) (items st)) eqn:Hmem.
    + split; [apply odict_alter_keys|]. split; [done|].
      intros k it Hit. rewrite odict_alter_lookup, Hit.
      case_decide as Hk.
      * eexists. split; [done|]. by repeat split.
      * eexists. split; [done|]. by repeat split.
    + split; [done|]. split; [done|].
      intros k it Hit. exists it. repeat split; try done.
      intros ->. unfold ODict.mem in Hmem. by rewrite Hit in Hmem.
  - intros srcs.
    destruct (add_item_images_spec urljoin unquote stem srcs st)
      as (st' & Hrun & Himg & _).
    by exists st'.
Qed.

End thumbnail_pass.

Lemma thumbnail_pass_frame_witness :
  ODict.mem (thumbnail_item_id stem_plain "Coal.png")
    (items state_with_iron_ore) = false ∧
  ∃ st',
    add_item_image urljoin_plain unquote_plain stem_plain state_with_iron_ore
      "/images/thumb/Coal.png/64px-Coal.png?1a2b" = Ok st' ∧
    items st' = items state_with_iron_ore.
Proof.
  split; [reflexivity|].
  destruct (proj1 (thumbnail_pass_frame urljoin_plain unquote_plain stem_plain
                     state_with_iron_ore
                     "/images/thumb/Coal.png/64px-Coal.png?1a2b"))
    as (full_src & filename & st' & Hn & Hf & Hrun & _ & Hnot & _).
  vm_compute in Hn. injection Hn as <-.
  vm_compute in Hf. injection Hf as <-.
  exists st'. split; [exact Hrun|]. apply Hnot. reflexivity.
Defined.

(** ** The item-detail pass *)

Lemma general_info_step_raises (info : gmap string string) (item : element) :
  label_has_text item = false → raises (general_info_step info item).
Proof.
  unfold label_has_text, general_info_step, row_label, text_strip.
  destruct (label_el item) as [|e ?]; [done|].
  destruct (el_text e); [|by exists AttributeError].
  intros H. apply bool_decide_eq_false in H. destruct H. by eexists.
Qed.

Lemma forallb_false {A} (f : A → bool) (l : list A) :
  forallb f l = false → ∃ x, x ∈ l ∧ f x = false.
Proof.
  induction l as [|x l IH]; [done|]. cbn [forallb].
  destruct (f x) eqn:Hx.
  - intros (y & ? & ?)%IH. exists y. split; [by right|done].
  - intros _. exists x. split; [by left|done].
Qed.

(** When [get_general_info] returns, every label had its text, and the
    mapping is the one of the entries of the rows. *)
Lemma get_general_info_Ok (tree : element) (info : gmap string string) :
  get_general_info tree = Ok info →
  labels_have_text (data_items tree) = true ∧
  info = info_of (data_items tree).
Proof.
  intros H.
  assert (labels_have_text (data_items tree) = true) as Htext.
  { destruct (labels_have_text (data_items tree)) eqn:Hl; [done|].
    unfold labels_have_text in Hl.
    apply forallb_false in Hl as (item & Hitem & Hbad).
    destruct (for_each_raises general_info_step (data_items tree) ∅ item)
      as [e He]; [done| |].
    - intros info'. by apply general_info_step_raises.
    - unfold get_general_info in H. congruence. }
  split; [done|]. unfold get_general_info in H.
  rewrite general_info_loop in H by done. by injection H as <-.
Qed.

Lemma get_general_info_value (tree : element) (info : gmap string string)
    (k v : string) :
  get_general_info tree = Ok info → info !! k = Some v → v ≠ "".
Proof.
  intros [_ ->]%get_general_info_Ok (item & _ & He)%info_of_lookup.
  by apply entry_of_nonempty in He as [_ ?].
Qed.

Section item_details_properties.
Variable urljoin : string → string → string.
Variable unquote : string → string.
Variable fetch : string → result element.

Lemma item_detail_spec (it : item) (res : option string * gmap string string) :
  (∀ t, res.2 !! "Tier" = Some t → t ≠ "") →
  ∃ d, item_detail urljoin unquote it res = Ok d ∧ detailed unquote it res d.1.
Proof.
  intros Htier. unfold item_detail, detailed.
  assert ((if Py.truthy (res.2 !! "Tier")
           then set_tier (res.2 !! "Tier") it else it) =
          set_tier (match res.2 !! "Tier" with
                    | Some t => Some t
                    | None => item_tier it
                    end) it) as ->.
  { destruct (res.2 !! "Tier") as [t|] eqn:Ht; [|by destruct it].
    rewrite truthy_Some, bool_decide_eq_true_2; [done|]. by apply Htier. }
  destruct (Py.truthy res.1) eqn:Himg.
  - destruct (image_filename_total unquote (default "" res.1))
      as [filename Hf].
    rewrite Hf. cbn [mbind result_bind]. eexists. split; [done|].
    cbn [fst]. repeat split. by exists filename.
  - eexists. split; [done|]. by repeat split.
Qed.

Lemma get_item_info_page_tier (item_name : string)
    (res : option string * gmap string string) (t : string) :
  get_item_info_page fetch item_name = Ok res →
  res.2 !! "Tier" = Some t → t ≠ "".
Proof.
  unfold get_item_info_page. intros H Ht. inv_bind. subst res.
  by eapply get_general_info_value.
Qed.

(** The loop of line 287 pairs the item at each position with the result
    at that position, and keeps keys and order. *)
Lemma apply_item_details_spec (its : list (string * item))
    (results : list (option string * gmap string string)) :
  Forall2 (λ kv res, get_item_info_page fetch (item_name_en kv.2) = Ok res)
    its results →
  ∃ r, apply_item_details urljoin unquote its results = Ok r ∧
    Forall2 (λ kv kv', kv'.1 = kv.1 ∧
               ∃ res, get_item_info_page fetch (item_name_en kv.2) = Ok res ∧
                      detailed unquote kv.2 res kv'.2)
      its r.1.
Proof.
  induction 1 as [|[k it] res its results Hres _ (r & Hr & Hall)].
  - eexists. split; [done|]. constructor.
  - cbn [snd] in Hres.
    destruct (item_detail_spec it res) as (d & Hd & Hdet).
    { intros t. by eapply get_item_info_page_tier. }
    cbn [apply_item_details]. rewrite Hd. cbn [mbind result_bind].
    rewrite Hr. cbn [mbind result_bind]. eexists. split; [done|].
    cbn [fst]. constructor; [|done]. split; [done|]. by exists res.
Qed.

(** C9. The item-detail pass pairs the result of every item page with the
    item whose name the page was fetched by: the items map keeps its keys
    and their order, and the item at each position is updated from the
    page of its own name. The tier of the item becomes the tier of the
    page's general information when there is one; when the page has a
    main image, the image of the item becomes the path derived from it,
    whatever image the item had before. *)
Theorem item_details_pairing (st st' : state) :
  item_details urljoin unquote fetch st = Ok st' →
  ODict.keys (items st') = ODict.keys (items st) ∧
  ∀ i k it, items st !! i = Some (k, it) →
    ∃ res it',
      get_item_info_page fetch (item_name_en it) = Ok res ∧
      items st' !! i = Some (k, it') ∧
      detailed unquote it res it'.
Proof.
  unfold item_details. intros H. inv_bind. rename a into results.
  apply mapM_Ok in Ha. unfold item_names, ODict.values in Ha.
  rewrite <-list_fmap_compose in Ha. apply Forall2_fmap_l in Ha.
  destruct (apply_item_details_spec (items st) results) as (r & Hr & Hall).
  { eapply Forall2_impl; [exact Ha|]. by intros [k it] res. }
  rewrite Ha0 in Hr. injection Hr as ->. subst st'. cbn [items].
  split.
  - unfold ODict.keys. clear -Hall.
    induction Hall as [|[k it] [k' it'] its its' [Hk _] _ IH]; [done|].
    cbn [fst] in Hk. rewrite !fmap_cons. cbn [fst]. by rewrite Hk, IH.
  - intros i k it Hi.
    destruct (Forall2_lookup_l _ _ _ _ _ Hall Hi)
      as ([k' it'] & Hi' & Hk & res & Hres & Hdet).
    cbn [fst snd] in *. subst k'. by exists res, it'.
Qed.

End item_details_properties.

Lemma item_details_pairing_witness :
  ∃ st',
    item_details urljoin_plain unquote_plain (serve item_page)
      state_with_thumbnail = Ok st' ∧
    items st' =
      [("Iron_Ore",
        Item "Iron_Ore" "Iron Ore" (Some "images/items/Iron_Ore_icon.png")
          (Some "2"))] ∧
    ODict.keys (items st') = ODict.keys (items state_with_thumbnail).
Proof.
  eexists. split; [vm_compute; reflexivity|]. split; [reflexivity|].
  eapply (proj1 (item_details_pairing urljoin_plain unquote_plain
                   (serve item_page) state_with_thumbnail _ _)).
  Unshelve. vm_compute. reflexivity.
Defined.

(** The item-detail pass leaves facilities, recipes and the keys of the
    items alone. *)
Lemma apply_item_details_keys (urljoin : string → string → string)
    (unquote : string → string) (its : list (string * item))
    (results : list (option string * gmap string string))
    (r : list (string * item) * list (string * string)) :
  apply_item_details urljoin unquote its results = Ok r →
  ODict.keys r.1 = ODict.keys its.
Proof.
  unfold ODict.keys. revert results r.
  induction its as [|[k it] its IH]; intros results r H.
  - by injection H as <-.
  - destruct results as [|res results]; [by injection H as <-|].
    cbn [apply_item_details] in H. inv_bind. subst r.
    cbn [fst]. rewrite !fmap_cons. cbn [fst]. f_equal. by eapply IH.
Qed.

Lemma item_details_frame (urljoin : string → string → string)
    (unquote : string → string) (fetch : string → result element)
    (st st' : state) :
  item_details urljoin unquote fetch st = Ok st' →
  facilities st' = facilities st ∧ recipes st' = recipes st ∧
  ODict.keys (items st') = ODict.keys (items st).
Proof.
  unfold item_details. intros H. inv_bind. subst st'.
  cbn [facilities recipes items]. repeat split.
  by eapply apply_item_details_keys.
Qed.

(** ** One recipe row, end to end *)

Lemma add_recipe_Ok (fid : string) (count : gmap string nat) (st : state)
    (r : raw_recipe) (o : string) (f : facility)
    (ins outs : list item_amount) :
  first_out_id r = Some o → facilities st !! fid = Some f →
  mapM item_amount_of (inputs r) = Ok ins →
  mapM item_amount_of (outputs r) = Ok outs →
  add_recipe fid (count, st) r =
    Ok (<[o := default 0 (count !! o) + 1]> count,
        State (items st)
          (<[fid := append_supported
                      (make_recipe_id fid o (default 0 (count !! o) + 1)) f]>
             (facilities st))
          (<[make_recipe_id fid o (default 0 (count !! o) + 1) :=
               Recipe (make_recipe_id fid o (default 0 (count !! o) + 1))
                 fid ins outs (time r)]> (recipes st))
          (img_jobs st)).
Proof.
  unfold first_out_id. intros Ho Hf Hins Houts.
  destruct (head (outputs r)) as [out|] eqn:Hhead; [|done].
  cbn [mbind option_bind] in Ho.
  destruct (name out) as [n|] eqn:Hn; [|done]. injection Ho as <-.
  unfold add_recipe. cbn [fst snd].
  rewrite (proj2 (getitem_0 _ _) Hhead). cbn [mbind result_bind].
  unfold material_name. rewrite Hn. cbn [mbind result_bind].
  rewrite Hins, Houts. cbn [mbind result_bind]. by rewrite Hf.
Qed.

Lemma scenario_texts :
  Py.int (Py.strip "2") = Ok 2%Z ∧ Py.int (Py.strip "1") = Ok 1%Z ∧
  Py.strip "5s" = "5s".
Proof. vm_compute. done. Qed.

(** The row of the scenario is read as the recipe of the scenario. *)
Lemma get_recipes_row_scenario
    (row i_name i_count o_name o_count t_el : element) :
  cell_divs 1 "item-tooltip" row = [i_name] →
  el_get i_name "data-name" = Some "Ore" →
  cell_divs 1 "item-count" row = [i_count] → el_text i_count = Some "2" →
  cell_divs 2 "item-tooltip" row = [o_name] →
  el_get o_name "data-name" = Some "Ingot" →
  cell_divs 2 "item-count" row = [o_count] → el_text o_count = Some "1" →
  XPath.child_at "td" 3 row = [t_el] → el_text t_el = Some "5s" →
  get_recipes_row row = Ok (Some ore_ingot_raw).
Proof.
  intros Hin Hiname Hic Hictext Hon Honame Hoc Hoctext Ht Httext.
  destruct scenario_texts as (H2 & H1 & H5).
  unfold get_recipes_row. rewrite Hin, Hic, Hon, Hoc, Ht.
  cbn [zip zip_with mapM fst snd]. unfold material, text_strip, Py.getitem.
  cbn [lookup list_lookup].
  repeat first
    [ rewrite Hictext | rewrite Hoctext | rewrite Httext
    | rewrite H2 | rewrite H1 | rewrite H5
    | rewrite Hiname | rewrite Honame
    | progress cbn [mbind result_bind mret result_ret] ].
  reflexivity.
Qed.

Section scenario.
Variable urljoin : string → string → string.
Variable unquote : string → string.
Variable stem : string → string.
Variable fetch : string → result element.

(** Once the two loops over the recipes of a facility have returned, the
    facility is processed: the thumbnail loop never raises. *)
Lemma process_facility_Ok (st : state) (fname : string) (page : facility_page)
    (its : list (string * item)) :
  for_each add_recipe_items (facility_recipes page) (items st) = Ok its →
  ∃ fac jobs,
    supportedRecipes fac = [] ∧
    ∀ acc,
      for_each (add_recipe (Py.replace_space fname)) (facility_recipes page)
        (∅, State its (<[Py.replace_space fname := fac]> (facilities st))
              (recipes st) jobs) = Ok acc →
      ∃ st',
        process_facility urljoin unquote stem st (fname, page) = Ok st' ∧
        same_but_images (items acc.2) (items st') ∧
        facilities st' = facilities acc.2 ∧ recipes st' = recipes acc.2.
Proof.
  intros Hits. eexists _, _. split; [|intros acc Hacc].
  2: { destruct (add_item_images_spec urljoin unquote stem
                   (item_img_srcs page) acc.2) as (st' & Hrun & ? & ? & ?).
       exists st'. split; [|done].
       unfold process_facility. cbn [fst snd items facilities recipes img_jobs].
       rewrite Hits. cbn [mbind result_bind]. rewrite Hacc.
       cbn [mbind result_bind]. exact Hrun. }
  done.
Qed.

(** C5 (amended). A facility page whose recipe table has one data row,
    with one input tooltip [Ore] and count [2], one output tooltip
    [Ingot] and count [1], and the time cell [5s], gives exactly one
    Recipe record, with inputs [Ore 2], outputs [Ingot 1] and crafting
    time [5s], and [Ore] and [Ingot] are keys of the items map. A row
    without input tooltips is skipped and gives no recipe; so is a row
    without output tooltips whose inputs can be read. *)
Theorem single_recipe_row (tree : element) :
  (∀ fname info row i_name i_count o_name o_count t_el,
     fetch (Py.replace_space fname) = Ok tree →
     get_general_info tree = Ok info →
     recipe_rows tree = [row] →
     cell_divs 1 "item-tooltip" row = [i_name] →
     el_get i_name "data-name" = Some "Ore" →
     cell_divs 1 "item-count" row = [i_count] → el_text i_count = Some "2" →
     cell_divs 2 "item-tooltip" row = [o_name] →
     el_get o_name "data-name" = Some "Ingot" →
     cell_divs 2 "item-count" row = [o_count] → el_text o_count = Some "1" →
     XPath.child_at "td" 3 row = [t_el] → el_text t_el = Some "5s" →
     ∃ page st,
       get_facility_and_recipes fetch fname = Ok page ∧
       facility_recipes page = [ore_ingot_raw] ∧
       aggregate urljoin unquote stem [fname] [page] = Ok st ∧
       recipes st =
         {[ make_recipe_id (Py.replace_space fname) "Ingot" 1 :=
              ore_ingot_recipe (Py.replace_space fname) ]} ∧
       ODict.keys (items st) = ["Ore"; "Ingot"] ∧
       ∀ st', run urljoin unquote stem fetch [fname] = Ok st' →
         recipes st' = recipes st ∧
         ODict.keys (items st') = ["Ore"; "Ingot"]) ∧
  (∀ pre row post,
     recipe_rows tree = pre ++ row :: post →
     cell_divs 1 "item-tooltip" row = [] ∨
     (cell_divs 2 "item-tooltip" row = [] ∧ inputs_readable row) →
     get_recipes_row row = Ok None ∧
     get_recipes tree = for_each get_recipes_step (pre ++ post) []).
Proof.
  split.
  - intros fname info row i_name i_count o_name o_count t_el Hfetch Hinfo
      Hrows Hin Hiname Hic Hictext Hon Honame Hoc Hoctext Ht Httext.
    pose proof (get_recipes_row_scenario _ _ _ _ _ _ Hin Hiname Hic Hictext
                  Hon Honame Hoc Hoctext Ht Httext) as Hrow.
    set (fid := Py.replace_space fname).
    set (page := FacilityPage (extract_main_image tree)
                   (extract_item_images tree) info [ore_ingot_raw]).
    assert (get_facility_and_recipes fetch fname = Ok page) as Hpage.
    { unfold get_facility_and_recipes. rewrite Hfetch.
      cbn [mbind result_bind]. rewrite Hinfo. cbn [mbind result_bind].
      unfold get_recipes. rewrite Hrows. cbn [for_each].
      unfold get_recipes_step. rewrite Hrow. reflexivity. }
    destruct (process_facility_Ok initial_state fname page
                [("Ore", Item "Ore" "Ore" None None);
                 ("Ingot", Item "Ingot" "Ingot" None None)])
      as (fac & jobs & Hsup & Hrun); [vm_compute; reflexivity|].
    fold fid in Hrun. cbn [facility_recipes page for_each] in Hrun.
    erewrite (add_recipe_Ok fid ∅ _ ore_ingot_raw "Ingot" fac
                [ItemAmount "Ore" 2] [ItemAmount "Ingot" 1]) in Hrun;
      [|vm_compute; reflexivity|apply lookup_insert_eq
       |vm_compute; reflexivity|vm_compute; reflexivity].
    rewrite lookup_empty in Hrun. cbn [default Nat.add] in Hrun.
    destruct (Hrun _ eq_refl) as (st & Hst & [Hkeys _] & _ & Hrec).
    assert (aggregate urljoin unquote stem [fname] [page] = Ok st) as Hagg.
    { unfold aggregate. cbn [zip zip_with for_each]. by rewrite Hst. }
    exists page, st. split; [done|]. split; [done|].
    split; [done|]. split; [|split].
    + rewrite Hrec. cbn [snd recipes initial_state]. apply insert_empty.
    + rewrite Hkeys. reflexivity.
    + intros st' Hrun'. unfold run in Hrun'. cbn [mapM] in Hrun'.
      rewrite Hpage in Hrun'. cbn [mbind result_bind mret result_ret] in Hrun'.
      rewrite Hagg in Hrun'. cbn [mbind result_bind] in Hrun'.
      apply item_details_frame in Hrun' as (_ & Hr & Hk).
      split; [done|]. rewrite Hk, Hkeys. reflexivity.
  - intros pre row post Hrows Hskip.
    assert (get_recipes_row row = Ok None) as Hrow.
    { destruct Hskip as [Hin|[Hout Hread]].
      - by apply get_recipes_row_no_input.
      - by apply get_recipes_row_no_output. }
    split; [done|]. unfold get_recipes. rewrite Hrows.
    by apply get_recipes_skip.
Qed.

End scenario.

(** A row without output tooltips whose input count has no text: the row
    is not skipped, [get_recipes] raises. *)
Lemma get_recipes_no_output_bad_count :
  recipe_rows (recipe_page [row_no_output_bad_count]) =
    [row_no_output_bad_count] ∧
  cell_divs 2 "item-tooltip" row_no_output_bad_count = [] ∧
  get_recipes_row row_no_output_bad_count = Raise AttributeError ∧
  get_recipes (recipe_page [row_no_output_bad_count]) = Raise AttributeError ∧
  get_recipes (recipe_page [row_no_output_bad_count]) ≠
    for_each get_recipes_step [] [].
Proof. vm_compute. repeat split. discriminate. Qed.

(** A row without output tooltips between the header and the row of the
    scenario leaves no trace. *)
Lemma get_recipes_skips_row_without_output :
  get_recipes (recipe_page [row_no_output; row_ore_ingot]) =
    Ok [ore_ingot_raw].
Proof. vm_compute. reflexivity. Qed.

Lemma single_recipe_row_witness :
  ∃ page st,
    get_facility_and_recipes (serve (recipe_page [row_ore_ingot])) "Smelter"
      = Ok page ∧
    facility_recipes page = [ore_ingot_raw] ∧
    aggregate urljoin_plain unquote_plain stem_plain ["Smelter"] [page]
      = Ok st ∧
    recipes st =
      {[ make_recipe_id (Py.replace_space "Smelter") "Ingot" 1 :=
           ore_ingot_recipe (Py.replace_space "Smelter") ]} ∧
    ODict.keys (items st) = ["Ore"; "Ingot"] ∧
    ∀ st',
      run urljoin_plain unquote_plain stem_plain
        (serve (recipe_page [row_ore_ingot])) ["Smelter"] = Ok st' →
      recipes st' = recipes st ∧ ODict.keys (items st') = ["Ore"; "Ingot"].
Proof.
  eapply (proj1 (single_recipe_row urljoin_plain unquote_plain stem_plain
                   (serve (recipe_page [row_ore_ingot]))
                   (recipe_page [row_ore_ingot])) "Smelter" ∅ row_ore_ingot);
    vm_compute; reflexivity.
Defined.

(** ** Further properties *)

(** [normalize_item_image_url] never raises. Without [/thumb/] it returns
    its input; otherwise it returns [/images/], the text between the first
    [/thumb/] and the next slash, and, when the input has a question mark,
    a question mark and the text up to the next one. *)
Theorem normalize_item_image_url_returns (src : string) :
  normalize_item_image_url src =
    Ok (if Py.contains "/thumb/" src
        then "/images/" +:+ before "/" (after "/thumb/" src)
               +:+ appended_query src
        else src).
Proof.
  destruct (Py.contains "/thumb/" src) eqn:H.
  - by apply normalize_thumb.
  - by apply normalize_no_thumb.
Qed.

Lemma normalize_single_mark_witness :
  normalize_described "/images/thumb/Iron_Ore.png/64px-Iron_Ore.png?foo=bar"
    = "/images/Iron_Ore.png?foo=bar" ∧
  normalize_item_image_url "/images/thumb/Iron_Ore.png/64px-Iron_Ore.png?foo=bar"
    = Ok (normalize_described
            "/images/thumb/Iron_Ore.png/64px-Iron_Ore.png?foo=bar").
Proof.
  split; [reflexivity|].
  apply (normalize_single_mark
           "/images/thumb/Iron_Ore.png/64px-Iron_Ore.png?foo=bar");
    reflexivity.
Defined.

(** Every recipe [get_recipes] returns has exactly one output: the first
    output pair of the row. *)
Theorem get_recipes_single_output (tree : element) (rs : list raw_recipe) :
  get_recipes tree = Ok rs → Forall (λ r, length (outputs r) = 1) rs.
Proof.
  unfold get_recipes.
  apply (for_each_invariant (Forall (λ r, length (outputs r) = 1))).
  - intros acc row acc' _ Hacc Hstep. unfold get_recipes_step in Hstep.
    inv_bind. subst acc'. apply Forall_app. split; [done|].
    destruct a as [r|]; [|constructor]. constructor; [|constructor].
    unfold get_recipes_row in Ha.
    destruct (cell_divs 1 "item-tooltip" row); [done|]. inv_bind.
    destruct (cell_divs 2 "item-tooltip" row); [done|]. inv_bind.
    destruct (XPath.child_at "td" 3 row); [done|]. inv_bind.
    by subst.
  - constructor.
Qed.

Lemma get_recipes_single_output_witness :
  get_recipes (recipe_page [row_no_output; row_ore_ingot]) =
    Ok [ore_ingot_raw] ∧
  Forall (λ r, length (outputs r) = 1) [ore_ingot_raw].
Proof.
  split; [vm_compute; reflexivity|].
  apply (get_recipes_single_output
           (recipe_page [row_no_output; row_ore_ingot])).
  vm_compute. reflexivity.
Defined.

(** [get_general_info] returns exactly when the data-label element of
    every row has a text node; it raises otherwise. *)
Theorem get_general_info_returns_iff (tree : element) :
  is_Ok (get_general_info tree) ↔
  labels_have_text (data_items tree) = true.
Proof.
  split.
  - intros [info Hinfo]. by apply get_general_info_Ok in Hinfo as [? _].
  - intros Htext. unfold get_general_info.
    rewrite general_info_loop by done. by eexists.
Qed.

(** ** The list of facilities *)

Lemma following_siblings_elem (P : element → bool) (cs : list element)
    (x : element) :
  x ∈ following_siblings P cs ↔
  ∃ i j hd, cs !! i = Some hd ∧ P hd = true ∧ i < j ∧ cs !! j = Some x.
Proof.
  induction cs as [|c cs IH]; cbn [following_siblings].
  - split; [by intros ?%elem_of_nil|]. by intros (i & j & hd & [=] & _).
  - rewrite elem_of_app, IH. split.
    + intros [Hx|(i & j & hd & Hi & HP & Hij & Hj)].
      * destruct (P c) eqn:Hc; [|by apply elem_of_nil in Hx].
        apply list_elem_of_lookup in Hx as [j Hj].
        exists 0, (S j), c. repeat split; [done|lia|done].
      * exists (S i), (S j), hd. repeat split; [done..|lia|done].
    + intros (i & j & hd & Hi & HP & Hij & Hj).
      destruct j as [|j]; [lia|]. cbn in Hj.
      destruct i as [|i].
      * left. injection Hi as <-. rewrite HP.
        by eapply list_elem_of_lookup_2.
      * right. exists i, j, hd. repeat split; [done..|lia|done].
Qed.

Lemma section_links_elem (h : string) (tree a : element) :
  a ∈ section_links h tree ↔
  ∃ p i j hd box,
    p ∈ XPath.all tree ∧
    el_children p !! i = Some hd ∧ has_heading h hd = true ∧ i < j ∧
    el_children p !! j = Some box ∧ is_listbox box = true ∧
    a ∈ XPath.descendants box ∧ is_titled_link a = true.
Proof.
  unfold section_links, listboxes. rewrite list_elem_of_bind. split.
  - intros (box & [Ha Hdesc]%list_elem_of_filter &
            (p & [Hbox Hsib]%list_elem_of_filter & Hp)%list_elem_of_bind).
    apply following_siblings_elem in Hsib as (i & j & hd & ? & ? & ? & ?).
    by exists p, i, j, hd, box.
  - intros (p & i & j & hd & box & Hp & Hi & Hh & Hij & Hj & Hbox & Hdesc & Ha).
    exists box. split; [by apply list_elem_of_filter|].
    apply list_elem_of_bind. exists p. split; [|done].
    apply list_elem_of_filter. split; [done|].
    apply following_siblings_elem. by exists i, j, hd.
Qed.

(** [get_facilities] returns the titles of the links that lie below a
    [ranger-listbox] division which has, among the siblings before it, a
    division headed [Processing] or [Assembly]: below any later such
    sibling, not only the next one. *)
Theorem get_facilities_titles (fetch : string → result element)
    (tree : element) (t : string) :
  fetch "EFDB" = Ok tree →
  ∃ s, get_facilities fetch = Ok s ∧
    (t ∈ s ↔
     ∃ h p i j hd box a,
       (h = "Processing" ∨ h = "Assembly") ∧
       p ∈ XPath.all tree ∧
       el_children p !! i = Some hd ∧ has_heading h hd = true ∧ i < j ∧
       el_children p !! j = Some box ∧ is_listbox box = true ∧
       a ∈ XPath.descendants box ∧ XPath.is_tag "a" a = true ∧
       el_get a "title" = Some t).
Proof.
  intros Hfetch. unfold get_facilities. rewrite Hfetch.
  eexists. split; [done|]. unfold facility_titles, link_titles.
  rewrite elem_of_union, !elem_of_list_to_set, !list_elem_of_omap.
  setoid_rewrite section_links_elem. split.
  - intros [(a & (p & i & j & hd & box & ? & ? & ? & ? & ? & ? & ? & Ha) & Ht)
           |(a & (p & i & j & hd & box & ? & ? & ? & ? & ? & ? & ? & Ha) & Ht)];
      apply andb_true_iff in Ha as [Ha _].
    + exists "Processing", p, i, j, hd, box, a. repeat split; auto.
    + exists "Assembly", p, i, j, hd, box, a. repeat split; auto.
  - intros (h & p & i & j & hd & box & a & Hh & ? & ? & ? & ? & ? & ? & ? &
            Ha & Ht).
    assert (is_titled_link a = true) as Hlink.
    { unfold is_titled_link. by rewrite Ha, Ht. }
    destruct Hh as [-> | ->]; [left|right];
      (exists a; split; [by exists p, i, j, hd, box|done]).
Qed.

(** ** The maps of facilities and recipes *)

Lemma assign_all_app {V} (m : gmap string V) (l k : list (string * V)) :
  assign_all m (l ++ k) = assign_all (assign_all m l) k.
Proof. apply foldl_app. Qed.

(** Assignments to an empty dict: the last one to a key wins. *)
Lemma assign_all_empty {V} (l : list (string * V)) :
  assign_all ∅ l = list_to_map (reverse l).
Proof.
  induction l as [|[k v] l IH] using rev_ind; [done|].
  rewrite assign_all_app, reverse_snoc, list_to_map_cons, IH. done.
Qed.

Lemma amounts_Ok (ms : list raw_material) (l : list item_amount) :
  mapM item_amount_of ms = Ok l → amounts ms = l.
Proof. unfold amounts. by intros ->. Qed.

Lemma recipe_ids_from_cons (fid : string) (count : gmap string nat)
    (r : raw_recipe) (rs : list raw_recipe) (o : string) :
  first_out_id r = Some o →
  recipe_ids_from fid count (r :: rs) =
    make_recipe_id fid o (default 0 (count !! o) + 1) ::
    recipe_ids_from fid (<[o := default 0 (count !! o) + 1]> count) rs.
Proof. intros Ho. unfold recipe_ids_from. cbn [omap list_omap]. by rewrite Ho. Qed.

(** The recipe records the loop of lines 248-267 writes. *)
Lemma add_recipes_entries (fid : string) (rs : list raw_recipe)
    (count : gmap string nat) (st : state)
    (acc' : gmap string nat * state) :
  for_each (add_recipe fid) rs (count, st) = Ok acc' →
  recipes acc'.2 =
    assign_all (recipes st)
      (zip_with (λ rid raw, (rid, recipe_record fid rid raw))
         (recipe_ids_from fid count rs) rs).
Proof.
  revert count st. induction rs as [|raw rs IH]; intros count st H;
    cbn [for_each] in H.
  - by injection H as <-.
  - inv_bind.
    apply add_recipe_spec in Ha as (o & f & ins & outs & Ho & Hf & Hi & Hou & ->).
    apply IH in H. rewrite H, (recipe_ids_from_cons _ _ _ _ _ Ho).
    cbn [recipes zip_with assign_all foldl fst snd]. unfold recipe_record.
    by rewrite (amounts_Ok _ _ Hi), (amounts_Ok _ _ Hou).
Qed.

Section maps.
Variable urljoin : string → string → string.
Variable unquote : string → string.
Variable stem : string → string.

(** What processing one facility assigns. *)
Lemma process_facility_entries (st st' : state) (fname : string)
    (page : facility_page) :
  process_facility urljoin unquote stem st (fname, page) = Ok st' →
  facilities st' =
    <[Py.replace_space fname := facility_record fname page]> (facilities st) ∧
  recipes st' = assign_all (recipes st) (page_recipe_entries (fname, page)).
Proof.
  unfold process_facility. cbn [fst snd items facilities recipes img_jobs].
  intros H. inv_bind. rename a into its, a0 into acc.
  pose proof (add_recipes_entries _ _ _ _ _ Ha0) as Hrec.
  eapply add_recipes_spec in Ha0 as (_ & HF & _); [|reflexivity].
  destruct (add_item_images_spec urljoin unquote stem (item_img_srcs page) acc.2)
    as (st'' & Hrun & _ & Hfac' & Hrec').
  rewrite Hrun in H. injection H as <-.
  rewrite Hfac', Hrec', HF, Hrec. done.
Qed.

Lemma for_each_process_entries (ps : list (string * facility_page))
    (st0 st : state) :
  for_each (process_facility urljoin unquote stem) ps st0 = Ok st →
  facilities st = assign_all (facilities st0) (facility_entries ps) ∧
  recipes st = assign_all (recipes st0) (recipe_entries ps).
Proof.
  revert st0. induction ps as [|[fname page] ps IH]; intros st0 H;
    cbn [for_each] in H.
  - by injection H as <-.
  - inv_bind. apply process_facility_entries in Ha as [HF HR].
    apply IH in H as [-> ->]. rewrite HF, HR.
    unfold recipe_entries. cbn [mbind list_bind]. fold (recipe_entries ps).
    by rewrite assign_all_app.
Qed.

(** After the aggregation the facilities map holds, under every facility
    id, the record made from the last page with this id: id, name, the
    tier and the power of the page's general information (the number 0
    without a power entry), the ids of the page's recipes, and an image
    path when the page has a main image. *)
Theorem aggregate_facilities (facility_names : list string)
    (results : list facility_page) (st : state) :
  aggregate urljoin unquote stem facility_names results = Ok st →
  facilities st =
    list_to_map (reverse (facility_entries (zip facility_names results))).
Proof.
  intros [H _]%for_each_process_entries. rewrite H. apply assign_all_empty.
Qed.

(** After the aggregation the recipes map holds, under every recipe id,
    the record made from the last scraped recipe that was given this id. *)
Theorem aggregate_recipes (facility_names : list string)
    (results : list facility_page) (st : state) :
  aggregate urljoin unquote stem facility_names results = Ok st →
  recipes st =
    list_to_map (reverse (recipe_entries (zip facility_names results))).
Proof.
  intros [_ H]%for_each_process_entries. rewrite H. apply assign_all_empty.
Qed.

End maps.

(** ** The items map *)

Lemma odict_setdefault_cases {V} (d : list (string * V)) (k : string) (v : V) :
  (k ∈ ODict.keys d ∧ ODict.setdefault k v d = d) ∨
  ((k ∉ ODict.keys d) ∧ ODict.setdefault k v d = d ++ [(k, v)]).
Proof.
  destruct (decide (k ∈ ODict.keys d)) as [Hin|Hin].
  - left. split; [done|]. by apply odict_setdefault_old.
  - right. split; [done|]. by apply odict_setdefault_new.
Qed.

Lemma odict_alter_Forall2 {V} (f : V → V) (d : list (string * V)) (k : string) :
  Forall2 (λ kv kv', kv'.1 = kv.1 ∧ (kv'.2 = kv.2 ∨ kv'.2 = f kv.2))
    d (ODict.alter f k d).
Proof.
  induction d as [|[k' v] d IH]; simpl; [constructor|].
  destruct (decide (k = k')).
  - constructor; [split; [done|by right]|].
    clear. induction d as [|[] d IH]; constructor; [split; [done|by left]|done].
  - constructor; [split; [done|by left]|done].
Qed.

Lemma setdefault_item_fresh (its its' : list (string * item))
    (m : raw_material) :
  setdefault_item its m = Ok its' → items_fresh its →
  items_fresh its' ∧
  (∀ p, Forall (λ kv, image_queued p (item_image kv.2)) its →
        Forall (λ kv, image_queued p (item_image kv.2)) its') ∧
  ∀ k, k ∈ ODict.keys its' ↔
       k ∈ ODict.keys its ∨ k ∈ omap material_id [m].
Proof.
  intros (n & Hn & ->)%setdefault_item_spec [Hnd Hall].
  assert (omap material_id [m] = [Py.replace_space n]) as ->.
  { cbn. unfold material_id. by rewrite Hn. }
  split; [|split].
  - destruct (odict_setdefault_cases its (Py.replace_space n)
                (Item (Py.replace_space n) n None None)) as [[_ ->]|[Hnew ->]];
      [done|].
    split.
    + unfold ODict.keys in *. rewrite fmap_app. apply NoDup_app.
      split; [done|]. split; [|apply NoDup_singleton].
      intros k Hk ->%list_elem_of_singleton. done.
    + apply Forall_app. split; [done|]. by repeat constructor.
  - intros p Hp.
    destruct (odict_setdefault_cases its (Py.replace_space n)
                (Item (Py.replace_space n) n None None)) as [[_ ->]|[Hnew ->]];
      [done|].
    apply Forall_app. split; [done|]. constructor; [|constructor].
    by intros q [=].
  - intros k. rewrite odict_setdefault_keys, list_elem_of_singleton. tauto.
Qed.

Lemma setdefault_items_fresh (ms : list raw_material)
    (its its' : list (string * item)) :
  for_each setdefault_item ms its = Ok its' → items_fresh its →
  items_fresh its' ∧
  (∀ p, Forall (λ kv, image_queued p (item_image kv.2)) its →
        Forall (λ kv, image_queued p (item_image kv.2)) its') ∧
  ∀ k, k ∈ ODict.keys its' ↔ k ∈ ODict.keys its ∨ k ∈ omap material_id ms.
Proof.
  revert its. induction ms as [|m ms IH]; intros its H Hfresh;
    cbn [for_each] in H.
  - injection H as <-. split; [done|]. split; [done|]. intros k.
    cbn. rewrite elem_of_nil. tauto.
  - inv_bind. apply setdefault_item_fresh in Ha as (Hf1 & Hq1 & Hk1); [|done].
    destruct (IH _ H Hf1) as (Hf2 & Hq2 & Hk2).
    split; [done|]. split; [by auto|]. intros k.
    rewrite Hk2, Hk1. change (m :: ms) with ([m] ++ ms).
    rewrite omap_app, elem_of_app. tauto.
Qed.

Lemma add_items_fresh (rs : list raw_recipe) (its its' : list (string * item)) :
  for_each add_recipe_items rs its = Ok its' → items_fresh its →
  items_fresh its' ∧
  (∀ p, Forall (λ kv, image_queued p (item_image kv.2)) its →
        Forall (λ kv, image_queued p (item_image kv.2)) its') ∧
  ∀ k, k ∈ ODict.keys its' ↔
       k ∈ ODict.keys its ∨ k ∈ (rs ≫= recipe_item_ids).
Proof.
  revert its. induction rs as [|r rs IH]; intros its H Hfresh;
    cbn [for_each] in H.
  - injection H as <-. split; [done|]. split; [done|]. intros k.
    cbn. rewrite elem_of_nil. tauto.
  - inv_bind. unfold add_recipe_items in Ha. inv_bind.
    apply setdefault_items_fresh in Ha0 as (Hf1 & Hq1 & Hk1); [|done].
    apply setdefault_items_fresh in Ha as (Hf2 & Hq2 & Hk2); [|done].
    destruct (IH _ H Hf2) as (Hf3 & Hq3 & Hk3).
    split; [done|]. split; [by auto|]. intros k.
    rewrite Hk3, Hk2, Hk1. cbn [mbind list_bind]. unfold recipe_item_ids at 2.
    rewrite omap_app, !elem_of_app. tauto.
Qed.

Lemma Forall2_transfer {A B} (R : A → B → Prop) (P : A → Prop) (Q : B → Prop)
    (l : list A) (k : list B) :
  Forall2 R l k → (∀ x y, R x y → P x → Q y) → Forall P l → Forall Q k.
Proof.
  intros HR Hstep. induction HR as [|x y l k Hxy _ IH]; [constructor|].
  intros [Hx Hl]%Forall_cons. constructor; [by eapply Hstep|by apply IH].
Qed.

Lemma image_queued_mono (jobs jobs' : list (string * string))
    (img : option string) :
  jobs ⊆ jobs' → image_queued jobs img → image_queued jobs' img.
Proof. intros Hsub Hq p [url Hp]%Hq. exists url. by apply Hsub. Qed.

Lemma image_queued_None (jobs : list (string * string)) :
  image_queued jobs None.
Proof. by intros p [=]. Qed.

Lemma image_queued_item (jobs : list (string * string)) (url filename : string) :
  image_queued (jobs ++ [(url, "export/images/items/" +:+ filename)])
    (Some ("images/items/" +:+ filename)).
Proof.
  intros p [= <-]. exists url. apply elem_of_app. right.
  by apply list_elem_of_singleton.
Qed.

Section items_properties.
Variable urljoin : string → string → string.
Variable unquote : string → string.
Variable stem : string → string.

(** A turn of the thumbnail loop keeps the items sound and queues the
    image it sets. *)
Lemma add_item_image_queued (st st' : state) (src : string) :
  add_item_image urljoin unquote stem st src = Ok st' →
  items_fresh (items st) → images_queued st →
  items_fresh (items st') ∧ images_queued st' ∧
  ODict.keys (items st') = ODict.keys (items st).
Proof.
  destruct (add_item_image_spec urljoin unquote stem st src)
    as (full_src & filename & _ & _ & ->).
  intros [= <-] [Hnd Hfresh] [Hits Hfacs]. cbn [items facilities img_jobs].
  set (jobs' := img_jobs st ++ _).
  assert (img_jobs st ⊆ jobs') as Hsub by (by apply list_subseteq_app_l).
  assert (∀ fid f, facilities st !! fid = Some f →
            image_queued jobs' (facility_image f)) as Hfacs'.
  { intros fid f Hf. eapply image_queued_mono; [done|]. by eapply Hfacs. }
  destruct (ODict.mem _ (items st)).
  - pose proof (odict_alter_Forall2
                  (set_image ("images/items/" +:+ filename)) (items st)
                  (thumbnail_item_id stem filename)) as Halter.
    split; [|split; [split; [|done]|apply odict_alter_keys]].
    + split; [by rewrite odict_alter_keys|].
      eapply Forall2_transfer; [exact Halter| |exact Hfresh].
      intros [k it] [k' it'] [Hk Hv] (? & ? & ?). cbn [fst snd] in *. subst k'.
      destruct Hv as [->| ->]; by repeat split.
    + eapply Forall2_transfer; [exact Halter| |exact Hits].
      intros [k it] [k' it'] [Hk Hv] Hq. cbn [fst snd] in *.
      destruct Hv as [->| ->]; [by eapply image_queued_mono|].
      apply image_queued_item.
  - split; [done|]. split; [|done]. split; [|done].
    eapply Forall_impl; [exact Hits|]. intros kv Hq.
    by eapply image_queued_mono.
Qed.

Lemma add_item_images_queued (srcs : list string) (st st' : state) :
  for_each (add_item_image urljoin unquote stem) srcs st = Ok st' →
  items_fresh (items st) → images_queued st →
  items_fresh (items st') ∧ images_queued st' ∧
  ODict.keys (items st') = ODict.keys (items st).
Proof.
  revert st. induction srcs as [|src srcs IH]; intros st H Hfresh Hq;
    cbn [for_each] in H.
  - by injection H as <-.
  - inv_bind. apply add_item_image_queued in Ha as (Hf1 & Hq1 & Hk1); [|done..].
    destruct (IH _ H Hf1 Hq1) as (Hf2 & Hq2 & Hk2).
    split; [done|]. split; [done|]. congruence.
Qed.

(** What processing one facility does to the items and the image jobs. *)
Lemma process_facility_items (st st' : state) (fname : string)
    (page : facility_page) :
  process_facility urljoin unquote stem st (fname, page) = Ok st' →
  items_fresh (items st) → images_queued st →
  items_fresh (items st') ∧ images_queued st' ∧
  ∀ k, k ∈ ODict.keys (items st') ↔
       k ∈ ODict.keys (items st) ∨
       k ∈ (facility_recipes page ≫= recipe_item_ids).
Proof.
  unfold process_facility. cbn [fst snd items facilities recipes img_jobs].
  intros H Hfresh [Hits Hfacs]. inv_bind. rename a into its, a0 into acc.
  apply add_items_fresh in Ha as (Hf1 & Hq1 & Hk1); [|done].
  match type of Ha0 with
  | for_each _ _ (_, State _ (<[_ := ?fac]> _) _ ?jobs) = _ =>
      set (fac0 := fac) in *; set (jobs0 := jobs) in *
  end.
  assert (img_jobs st ⊆ jobs0) as Hsub.
  { unfold jobs0. case_match; [by apply list_subseteq_app_l|done]. }
  assert (image_queued jobs0 (facility_image fac0)) as Hfac0.
  { unfold fac0, jobs0. cbn [facility_image].
    destruct (Py.truthy (facility_img_src page)); [|apply image_queued_None].
    intros p [= <-]. eexists. apply elem_of_app. right.
    by apply list_elem_of_singleton. }
  eapply add_recipes_spec in Ha0 as (_ & HF & Hi & Hj & _); [|reflexivity].
  cbn [items img_jobs] in Hi, Hj.
  apply add_item_images_queued in H as (Hf2 & Hq2 & Hk2).
  - split; [done|]. split; [done|]. intros k.
    unfold ODict.keys in *. by rewrite Hk2, Hi, Hk1.
  - by rewrite Hi.
  - split.
    + rewrite Hi, Hj. apply Hq1.
      eapply Forall_impl; [exact Hits|]. intros kv Hq.
      by eapply image_queued_mono.
    + intros fid f. rewrite HF, Hj.
      destruct (decide (Py.replace_space fname = fid)) as [<-|Hne].
      * rewrite lookup_insert_eq. intros [= <-]. exact Hfac0.
      * rewrite lookup_insert_ne by done. intros Hf.
        eapply image_queued_mono; [done|]. by eapply Hfacs.
Qed.

Lemma for_each_process_items (ps : list (string * facility_page))
    (st0 st : state) :
  for_each (process_facility urljoin unquote stem) ps st0 = Ok st →
  items_fresh (items st0) → images_queued st0 →
  items_fresh (items st) ∧ images_queued st ∧
  ∀ k, k ∈ ODict.keys (items st) ↔
       k ∈ ODict.keys (items st0) ∨ k ∈ page_item_ids ps.
Proof.
  revert st0. induction ps as [|[fname page] ps IH]; intros st0 H Hfresh Hq;
    cbn [for_each] in H.
  - injection H as <-. split; [done|]. split; [done|]. intros k.
    cbn. rewrite elem_of_nil. tauto.
  - inv_bind. apply process_facility_items in Ha as (Hf1 & Hq1 & Hk1); [|done..].
    destruct (IH _ H Hf1 Hq1) as (Hf2 & Hq2 & Hk2).
    split; [done|]. split; [done|]. intros k. rewrite Hk2, Hk1.
    unfold page_item_ids. cbn [mbind list_bind fst snd].
    rewrite elem_of_app. tauto.
Qed.

Lemma aggregate_items (facility_names : list string)
    (results : list facility_page) (st : state) :
  aggregate urljoin unquote stem facility_names results = Ok st →
  items_fresh (items st) ∧ images_queued st ∧
  ∀ k, k ∈ ODict.keys (items st) ↔
       k ∈ page_item_ids (zip facility_names results).
Proof.
  intros H. apply for_each_process_items in H as (Hf & Hq & Hk).
  - split; [done|]. split; [done|]. intros k. rewrite Hk.
    cbn. rewrite elem_of_nil. tauto.
  - split; [apply NoDup_nil_2|constructor].
  - split; [constructor|]. intros fid f Hf. cbn [facilities initial_state] in Hf.
    by rewrite lookup_empty in Hf.
Qed.

(** The items map the aggregation leaves holds exactly the items the
    scraped recipes refer to, each once: every key is the id of an input
    or an output of a recipe of one of the pages, and every such id is a
    key. Every item is stored under its own id, the id is the name with
    underscores for spaces, and no item has a tier yet. *)
Theorem aggregate_items_exact (facility_names : list string)
    (results : list facility_page) (st : state) :
  aggregate urljoin unquote stem facility_names results = Ok st →
  NoDup (ODict.keys (items st)) ∧
  (∀ k, k ∈ ODict.keys (items st) ↔
        k ∈ page_item_ids (zip facility_names results)) ∧
  Forall item_fresh (items st).
Proof. by intros ([? ?] & _ & ?)%aggregate_items. Qed.

End items_properties.

(** ** The whole run *)

Section run_properties.
Variable urljoin : string → string → string.
Variable unquote : string → string.
Variable stem : string → string.
Variable fetch : string → result element.

(** The three phases of a run that returns. *)
Lemma run_inv (facility_names : list string) (st : state) :
  run urljoin unquote stem fetch facility_names = Ok st →
  ∃ pages st2,
    mapM (get_facility_and_recipes fetch) facility_names = Ok pages ∧
    aggregate urljoin unquote stem facility_names pages = Ok st2 ∧
    item_details urljoin unquote fetch st2 = Ok st.
Proof. unfold run. intros H. inv_bind. by exists a, a0. Qed.

Lemma item_detail_queued (it : item) (res : option string * gmap string string)
    (d : item * list (string * string)) :
  item_detail urljoin unquote it res = Ok d →
  item_id d.1 = item_id it ∧ item_name_en d.1 = item_name_en it ∧
  (item_image d.1 = item_image it ∨ image_queued d.2 (item_image d.1)).
Proof.
  unfold item_detail. intros H.
  destruct (Py.truthy res.1).
  - inv_bind. subst d. cbn [fst snd]. split; [by case_match|].
    split; [by case_match|]. right. cbn [item_image set_image].
    apply (image_queued_item []).
  - injection H as <-. cbn [fst snd]. by case_match; repeat split; left.
Qed.

Lemma apply_item_details_queued (its : list (string * item))
    (results : list (option string * gmap string string))
    (r : list (string * item) * list (string * string)) :
  apply_item_details urljoin unquote its results = Ok r →
  Forall2 (λ kv kv', kv'.1 = kv.1 ∧ item_id kv'.2 = item_id kv.2 ∧
             item_name_en kv'.2 = item_name_en kv.2 ∧
             (item_image kv'.2 = item_image kv.2 ∨
              image_queued r.2 (item_image kv'.2)))
    its r.1.
Proof.
  revert results r. induction its as [|[k it] its IH]; intros results r H.
  - injection H as <-. constructor.
  - destruct results as [|res results].
    + injection H as <-. cbn [fst].
      apply Forall2_same_length_lookup_2; [done|].
      intros i kv kv' H1 H2. assert (kv' = kv) as -> by congruence.
      repeat split. by left.
    + cbn [apply_item_details] in H. inv_bind. subst r. cbn [fst snd].
      apply item_detail_queued in Ha as (Hid & Hname & Himg).
      constructor.
      * cbn [fst snd]. repeat split; [done..|].
        destruct Himg as [?|Hq]; [by left|right].
        eapply image_queued_mono; [|done]. by apply list_subseteq_app_l.
      * eapply Forall2_impl; [by eapply IH|].
        intros kv kv' (? & ? & ? & Himg'). repeat split; [done..|].
        destruct Himg' as [?|Hq]; [by left|right].
        eapply image_queued_mono; [|done]. by apply list_subseteq_app_r.
Qed.

(** After a run every item is stored once, under its own id, and the id
    is the name of the item with underscores for spaces: the exported
    items have pairwise distinct ids without spaces in them. *)
Theorem run_items_sound (facility_names : list string) (st : state) :
  run urljoin unquote stem fetch facility_names = Ok st →
  NoDup (item_id <$> ODict.values (items st)) ∧
  Forall (λ kv, item_id kv.2 = kv.1 ∧
                kv.1 = Py.replace_space (item_name_en kv.2)) (items st).
Proof.
  intros (pages & st2 & _ & Hagg & Hdet)%run_inv.
  apply aggregate_items in Hagg as ([Hnd Hfresh] & _ & _).
  pose proof (apply_item_details_keys urljoin unquote) as Hkeys.
  unfold item_details in Hdet. inv_bind. subst st. cbn [items].
  specialize (Hkeys _ _ _ Ha0).
  apply apply_item_details_queued in Ha0 as Hdet.
  assert (Forall (λ kv, item_id kv.2 = kv.1 ∧
                        kv.1 = Py.replace_space (item_name_en kv.2)) a0.1)
    as Hsound.
  { eapply Forall2_transfer; [exact Hdet| |exact Hfresh].
    intros kv kv' (Hk & Hid & Hname & _) (? & ? & _).
    rewrite Hk, Hid, Hname. done. }
  split; [|done].
  assert (item_id <$> ODict.values a0.1 = ODict.keys a0.1) as ->;
    [|by rewrite Hkeys].
  unfold ODict.values, ODict.keys. clear -Hsound.
  induction Hsound as [|[k it] l [Hid _] _ IH]; [done|].
  cbn in *. by rewrite Hid, IH.
Qed.

Lemma run_queued (facility_names : list string) (st : state) :
  run urljoin unquote stem fetch facility_names = Ok st →
  (∀ k it p, (k, it) ∈ items st → item_image it = Some p →
     ∃ url, (url, "export/" +:+ p) ∈ img_jobs st) ∧
  (∀ fid f p, facilities st !! fid = Some f → facility_image f = Some p →
     ∃ url, (url, "export/" +:+ p) ∈ img_jobs st).
Proof.
  intros (pages & st2 & _ & Hagg & Hdet)%run_inv.
  apply aggregate_items in Hagg as (_ & [Hits Hfacs] & _).
  unfold item_details in Hdet. inv_bind. subst st.
  cbn [items facilities img_jobs].
  apply apply_item_details_queued in Ha0 as Hdet. split.
  - assert (Forall (λ kv, image_queued (img_jobs st2 ++ a0.2)
                            (item_image kv.2)) a0.1) as Hall.
    { eapply Forall2_transfer; [exact Hdet| |exact Hits].
      intros kv kv' (_ & _ & _ & [->|Hq]) Hold.
      - eapply image_queued_mono; [|done]. by apply list_subseteq_app_l.
      - eapply image_queued_mono; [|done]. by apply list_subseteq_app_r. }
    intros k it p Hin Himg.
    by apply (proj1 (Forall_forall _ _) Hall (k, it) Hin).
  - intros fid f p Hf Himg.
    destruct (Hfacs fid f Hf p Himg) as [url Hurl].
    exists url. apply elem_of_app. by left.
Qed.

(** After a run the image path of every item and of every facility names
    the destination of a queued image job: no record refers to an image
    the download phase is not asked for. *)
Theorem run_images_queued (facility_names : list string) (st : state) :
  run urljoin unquote stem fetch facility_names = Ok st →
  (∀ k it p, (k, it) ∈ items st → item_image it = Some p →
     ∃ url, (url, "export/" +:+ p) ∈ img_jobs st) ∧
  (∀ fid f p, facilities st !! fid = Some f → facility_image f = Some p →
     ∃ url, (url, "export/" +:+ p) ∈ img_jobs st).
Proof. apply run_queued. Qed.

(** After a run the tier of every item is the [Tier] entry of the general
    information of the item's own page, and no tier when the page has no
    such entry. *)
Theorem run_item_tiers (facility_names : list string) (st : state) :
  run urljoin unquote stem fetch facility_names = Ok st →
  Forall (λ kv, ∃ res,
            get_item_info_page fetch (item_name_en kv.2) = Ok res ∧
            item_tier kv.2 = res.2 !! "Tier") (items st).
Proof.
  intros (pages & st2 & _ & Hagg & Hdet)%run_inv.
  apply aggregate_items in Hagg as ([_ Hfresh] & _ & _).
  unfold item_details in Hdet. inv_bind. rename a into results.
  apply mapM_Ok in Ha. unfold item_names, ODict.values in Ha.
  rewrite <-list_fmap_compose in Ha. apply Forall2_fmap_l in Ha.
  destruct (apply_item_details_spec urljoin unquote fetch (items st2) results)
    as (r & Hr & Hall).
  { eapply Forall2_impl; [exact Ha|]. by intros [k it] res. }
  rewrite Ha0 in Hr. injection Hr as ->. subst st. cbn [items].
  eapply Forall2_transfer; [exact Hall| |exact Hfresh].
  intros [k it] [k' it'] (_ & res & Hres & _ & Hname & Htier & _) (_ & _ & Hnone).
  cbn [fst snd] in *. exists res. rewrite Hname. split; [done|].
  rewrite Htier, Hnone. by destruct (res.2 !! "Tier").
Qed.

End run_properties.

(** ** When the aggregation returns *)

Lemma forallb_elem_of {A} (f : A → bool) (l : list A) :
  forallb f l = true ↔ ∀ x, x ∈ l → f x = true.
Proof.
  induction l as [|y l IH]; cbn [forallb].
  - split; [by intros _ x ?%elem_of_nil|done].
  - rewrite andb_true_iff, IH. split.
    + intros [Hy Hl] x [->|Hx]%elem_of_cons; auto.
    + intros Hall. split; [apply Hall; by left|].
      intros x Hx. apply Hall. by right.
Qed.

Lemma material_named_Some (m : raw_material) :
  material_named m = true ↔ ∃ n, name m = Some n.
Proof. unfold material_named. by rewrite bool_decide_eq_true. Qed.

Lemma item_amounts_Ok (ms : list raw_material) :
  forallb material_named ms = true → is_Ok (mapM item_amount_of ms).
Proof.
  induction ms as [|m ms IH]; cbn [forallb mapM]; [by eexists|].
  intros [[n Hn]%material_named_Some [l Hl]%IH]%andb_true_iff.
  assert (item_amount_of m =
          Ok (ItemAmount (Py.replace_space n) (quantity m))) as ->.
  { unfold item_amount_of, material_name. by rewrite Hn. }
  cbn [mbind result_bind]. rewrite Hl. by eexists.
Qed.

Lemma setdefault_items_Ok (ms : list raw_material) (its : list (string * item)) :
  forallb material_named ms = true → is_Ok (for_each setdefault_item ms its).
Proof.
  revert its. induction ms as [|m ms IH]; intros its; cbn [forallb for_each];
    [by eexists|].
  intros [[n Hn]%material_named_Some Hms]%andb_true_iff.
  assert (setdefault_item its m =
          Ok (ODict.setdefault (Py.replace_space n)
                (Item (Py.replace_space n) n None None) its)) as ->.
  { unfold setdefault_item, material_name. by rewrite Hn. }
  cbn [mbind result_bind]. by apply IH.
Qed.

Lemma recipe_usable_parts (r : raw_recipe) :
  recipe_usable r = true ↔
  forallb material_named (inputs r) = true ∧
  forallb material_named (outputs r) = true ∧ outputs r ≠ [].
Proof.
  unfold recipe_usable. rewrite !andb_true_iff, bool_decide_eq_true. tauto.
Qed.

Lemma add_items_Ok (rs : list raw_recipe) (its : list (string * item)) :
  forallb recipe_usable rs = true → is_Ok (for_each add_recipe_items rs its).
Proof.
  revert its. induction rs as [|r rs IH]; intros its; cbn [forallb for_each];
    [by eexists|].
  intros [(Hin & Hout & _)%recipe_usable_parts Hrs]%andb_true_iff.
  destruct (setdefault_items_Ok (inputs r) its Hin) as [its1 H1].
  destruct (setdefault_items_Ok (outputs r) its1 Hout) as [its2 H2].
  assert (add_recipe_items its r = Ok its2) as ->.
  { unfold add_recipe_items. by rewrite H1. }
  cbn [mbind result_bind]. by apply IH.
Qed.

Lemma add_recipes_Ok (fid : string) (rs : list raw_recipe)
    (count : gmap string nat) (st : state) :
  forallb recipe_usable rs = true → is_Some (facilities st !! fid) →
  is_Ok (for_each (add_recipe fid) rs (count, st)).
Proof.
  revert count st. induction rs as [|r rs IH]; intros count st;
    cbn [forallb for_each]; [by eexists|].
  intros [(Hin & Hout & Hne)%recipe_usable_parts Hrs]%andb_true_iff [f Hf].
  destruct (item_amounts_Ok _ Hin) as [ins Hins].
  destruct (item_amounts_Ok _ Hout) as [outs Houts].
  assert (∃ o, first_out_id r = Some o) as [o Ho].
  { unfold first_out_id. destruct (outputs r) as [|m ms]; [done|].
    cbn [forallb] in Hout.
    apply andb_true_iff in Hout as [[n Hn]%material_named_Some _].
    cbn. rewrite Hn. by eexists. }
  rewrite (add_recipe_Ok fid count st r o f ins outs) by done.
  cbn [mbind result_bind]. apply IH; [done|].
  cbn [facilities]. rewrite lookup_insert_eq. by eexists.
Qed.

Section returns.
Variable urljoin : string → string → string.
Variable unquote : string → string.
Variable stem : string → string.

(** With [urljoin] taken as a function that always returns, a facility is
    processed without an exception exactly when its page is usable. *)
Lemma process_facility_returns (st : state) (fname : string)
    (page : facility_page) :
  is_Ok (process_facility urljoin unquote stem st (fname, page)) ↔
  page_usable page = true.
Proof.
  split.
  - intros [st' H]. apply process_facility_spec in H
      as (its & fac & _ & _ & Hknown & _ & Hall & _).
    unfold page_usable. apply forallb_elem_of. intros r Hr.
    apply recipe_usable_parts.
    assert (∀ m, m ∈ inputs r ++ outputs r → material_named m = true) as Hm.
    { intros m Hin. apply material_named_Some.
      destruct (Hknown r Hr m Hin) as (n & Hn & _). by exists n. }
    split; [|split].
    + apply forallb_elem_of. intros m ?. apply Hm, elem_of_app. by left.
    + apply forallb_elem_of. intros m ?. apply Hm, elem_of_app. by right.
    + rewrite Forall_forall in Hall. destruct (Hall r Hr) as [o Ho].
      unfold first_out_id in Ho. by destruct (outputs r).
  - intros Hpage. unfold page_usable in Hpage.
    unfold process_facility. cbn [fst snd items facilities recipes img_jobs].
    destruct (add_items_Ok (facility_recipes page) (items st) Hpage)
      as [its ->].
    cbn [mbind result_bind].
    match goal with
    | |- is_Ok (for_each _ _ (?c, ?s) ≫= _) =>
        destruct (add_recipes_Ok (Py.replace_space fname)
                    (facility_recipes page) c s Hpage) as [acc ->]
    end.
    { cbn [facilities]. rewrite lookup_insert_eq. by eexists. }
    cbn [mbind result_bind].
    destruct (add_item_images_spec urljoin unquote stem (item_img_srcs page)
                acc.2) as (st' & -> & _).
    by eexists.
Qed.

Lemma for_each_process_returns (ps : list (string * facility_page))
    (st0 : state) :
  is_Ok (for_each (process_facility urljoin unquote stem) ps st0) ↔
  forallb (λ p, page_usable p.2) ps = true.
Proof.
  revert st0. induction ps as [|[fname page] ps IH]; intros st0;
    cbn [for_each forallb fst snd].
  - split; [done|by eexists].
  - rewrite andb_true_iff, <-(process_facility_returns st0 fname page). split.
    + intros [st H]. inv_bind. split; [by eexists|].
      apply (IH a). by eexists.
    + intros [[st1 ->] Hps]. cbn [mbind result_bind]. by apply IH.
Qed.

(** A page with a scraped recipe without an output, or with a scraped
    material without a name, makes the aggregation raise: the
    aggregation returns only when every material of every recipe of
    every page has a name and every recipe has an output. *)
Theorem aggregate_raises_unusable (facility_names : list string)
    (results : list facility_page) :
  forallb (λ p, page_usable p.2) (zip facility_names results) = false →
  raises (aggregate urljoin unquote stem facility_names results) ∧
  ∀ st, aggregate urljoin unquote stem facility_names results ≠ Ok st.
Proof.
  intros Hbad.
  assert (∀ st, aggregate urljoin unquote stem facility_names results ≠ Ok st)
    as Hnot.
  { intros st Hst.
    assert (is_Ok (aggregate urljoin unquote stem facility_names results))
      as Hok by by eexists.
    apply for_each_process_returns in Hok. congruence. }
  split; [|done].
  destruct (aggregate urljoin unquote stem facility_names results)
    as [st|e] eqn:Hagg; [by destruct (Hnot st)|by exists e].
Qed.

(** *** The order of the facilities *)

Lemma zip_with_keys {A B V} (g : A → B → V) (l : list A) (k : list B) :
  length l ≤ length k → (zip_with (λ a b, (a, g a b)) l k).*1 = l.
Proof.
  revert k. induction l as [|a l IH]; intros [|b k] Hlen; cbn in *;
    [done|done|lia|].
  f_equal. apply IH. lia.
Qed.

Lemma recipe_ids_length_le (fid : string) (rs : list raw_recipe) :
  length (recipe_ids fid rs) ≤ length rs.
Proof.
  unfold recipe_ids, recipe_ids_from. rewrite length_fmap, number_length.
  induction rs as [|r rs IH]; cbn [omap list_omap]; [done|].
  destruct (first_out_id r); cbn; lia.
Qed.

Lemma facility_entries_keys (ps : list (string * facility_page)) :
  (facility_entries ps).*1 = facility_ids ps.
Proof.
  unfold facility_entries, facility_ids. rewrite <-list_fmap_compose.
  by apply list_fmap_ext.
Qed.

Lemma recipe_entries_keys (ps : list (string * facility_page)) :
  (recipe_entries ps).*1 = all_recipe_ids ps.
Proof.
  unfold recipe_entries, all_recipe_ids.
  induction ps as [|p ps IH]; [done|].
  cbn [mbind list_bind fmap list_fmap concat]. rewrite fmap_app.
  f_equal; [|exact IH]. apply zip_with_keys, recipe_ids_length_le.
Qed.

Lemma later_wins_Permutation {V} (l l' : list (string * V)) :
  l' ≡ₚ l → NoDup l.*1 →
  (list_to_map (reverse l') : gmap string V) = list_to_map (reverse l).
Proof.
  intros Hperm Hnd. apply list_to_map_proper.
  - by rewrite fmap_reverse, reverse_Permutation, Hperm.
  - by rewrite !reverse_Permutation.
Qed.

Lemma aggregate_permuted (facility_names names' : list string)
    (results results' : list facility_page) (st : state) :
  aggregate urljoin unquote stem facility_names results = Ok st →
  zip names' results' ≡ₚ zip facility_names results →
  NoDup (facility_ids (zip facility_names results)) →
  NoDup (all_recipe_ids (zip facility_names results)) →
  ∃ st',
    aggregate urljoin unquote stem names' results' = Ok st' ∧
    facilities st' = facilities st ∧ recipes st' = recipes st ∧
    ODict.keys (items st') ≡ₚ ODict.keys (items st).
Proof.
  intros Hagg Hperm Hfids Hrids.
  assert (is_Ok (aggregate urljoin unquote stem names' results'))
    as [st' Hagg'].
  { apply for_each_process_returns, forallb_elem_of. intros p Hp.
    assert (is_Ok (aggregate urljoin unquote stem facility_names results))
      as Hok by by eexists.
    apply for_each_process_returns in Hok.
    apply (proj1 (forallb_elem_of _ _) Hok). by rewrite <-Hperm. }
  exists st'. split; [done|].
  destruct (for_each_process_entries _ _ _ _ _ _ Hagg) as [HF HR].
  destruct (for_each_process_entries _ _ _ _ _ _ Hagg') as [HF' HR'].
  rewrite HF, HR, HF', HR'. cbn [facilities recipes initial_state].
  rewrite !assign_all_empty.
  split; [|split].
  - apply later_wins_Permutation.
    + unfold facility_entries. by rewrite Hperm.
    + by rewrite facility_entries_keys.
  - apply later_wins_Permutation.
    + unfold recipe_entries. by rewrite Hperm.
    + by rewrite recipe_entries_keys.
  - apply aggregate_items in Hagg as ([Hnd _] & _ & Hk).
    apply aggregate_items in Hagg' as ([Hnd' _] & _ & Hk').
    apply NoDup_Permutation; [done..|]. intros k. rewrite Hk, Hk'.
    unfold page_item_ids. by rewrite Hperm.
Qed.

(** The facilities map and the recipes map do not depend on the order in
    which the facilities are processed, as long as the facility ids and
    the recipe ids are pairwise distinct; the items map keeps its keys,
    up to their order. The aggregation returns in one order when it does
    in the other. *)
Theorem aggregate_order_independent (facility_names names' : list string)
    (results results' : list facility_page) (st : state) :
  aggregate urljoin unquote stem facility_names results = Ok st →
  zip names' results' ≡ₚ zip facility_names results →
  NoDup (facility_ids (zip facility_names results)) →
  NoDup (all_recipe_ids (zip facility_names results)) →
  ∃ st',
    aggregate urljoin unquote stem names' results' = Ok st' ∧
    facilities st' = facilities st ∧ recipes st' = recipes st ∧
    ODict.keys (items st') ≡ₚ ODict.keys (items st).
Proof. apply aggregate_permuted. Qed.

(** The records of the two maps refer to each other: the facility of
    every recipe record is a key of the facilities map, and every id a
    facility record lists is a key of the recipes map; every record is
    stored under its own id. *)
Theorem aggregate_references (facility_names : list string)
    (results : list facility_page) (st : state) :
  aggregate urljoin unquote stem facility_names results = Ok st →
  (∀ rid r, recipes st !! rid = Some r →
     recipe_id r = rid ∧ is_Some (facilities st !! facilityId r)) ∧
  (∀ fid f, facilities st !! fid = Some f →
     facility_id f = fid ∧
     ∀ rid, rid ∈ supportedRecipes f → is_Some (recipes st !! rid)).
Proof.
  intros Hagg.
  destruct (for_each_process_entries _ _ _ _ _ _ Hagg) as [HF _].
  apply aggregate_invariant in Hagg as (_ & Hfac & Hrec). split.
  - intros rid r Hr.
    destruct (Hrec _ _ Hr) as (Hid & fname & page & raw & Hp & _ & _ & _ & Hof).
    split; [done|]. destruct Hof as (_ & -> & _).
    rewrite HF. cbn [facilities initial_state]. rewrite assign_all_empty.
    apply not_eq_None_Some. intros Hnone%not_elem_of_list_to_map.
    apply Hnone. rewrite fmap_reverse, elem_of_reverse, facility_entries_keys.
    unfold facility_ids.
    by apply (list_elem_of_fmap_2 (λ p, Py.replace_space p.1) _ (fname, page)).
  - intros fid f Hf.
    destruct (Hfac _ _ Hf) as (fname & page & _ & _ & Hid & _ & _ & Hin).
    done.
Qed.

End returns.

(** ** The download phase *)

Section pool_properties.
Variable http_get : string → result string.
Variable writable : string → bool.

Lemma pool_invariant_start (w : world) (jobs : list (string * string)) :
  pool_invariant w jobs (w, start jobs).
Proof.
  unfold pool_invariant, start. cbn [fst snd].
  split; [by rewrite length_fmap|]. split; [done|]. split; [by left|].
  split; [by left|]. intros i t. rewrite list_lookup_fmap.
  destruct (jobs !! i) as [[u p]|]; [|done]. intros [= <-].
  exists u, p. split; [done|]. by left.
Qed.

Lemma pool_invariant_step (w0 : world) (jobs : list (string * string))
    (c : world * list task) (i : nat) :
  pool_invariant w0 jobs c →
  pool_invariant w0 jobs (pool_step http_get writable c i).
Proof.
  destruct c as [w ts]. intros (Hlen & Hold & Hnew & Hreq & Htasks).
  unfold pool_step. cbn [fst snd] in *.
  destruct (ts !! i) as [t|] eqn:Hi; [|done].
  destruct (Htasks i t Hi) as (u & p & Hjob & Ht).
  assert ((u, p) ∈ jobs) as Hin by by eapply list_elem_of_lookup_2.
  assert (∀ w' t',
    (∀ q, is_Some (files w !! q) → is_Some (files w' !! q)) →
    (∀ v, v ∈ requests w → v ∈ requests w') →
    (∀ q content, files w0 !! q = Some content →
                  files w' !! q = Some content) →
    (∀ q, is_Some (files w' !! q) →
          is_Some (files w0 !! q) ∨ q ∈ jobs.*2) →
    (∀ v, v ∈ requests w' →
          v ∈ requests w0 ∨ ∃ q, (v, q) ∈ jobs ∧ files w0 !! q = None) →
    (t' = Ready u p ∨
     (t' = Waiting u p ∧ files w0 !! p = None ∧ u ∈ requests w') ∨
     (t' = Returned ∧ is_Some (files w' !! p)) ∨
     ((∃ e, t' = Failed e) ∧ u ∈ requests w')) →
    pool_invariant w0 jobs (w', <[i := t']> ts)) as Hmake.
  { intros w' t' Hgrow Hsent Hold' Hnew' Hreq' Ht'. unfold pool_invariant.
    cbn [fst snd]. split; [by rewrite length_insert|].
    split; [done|]. split; [done|]. split; [done|].
    intros j tj Hj. destruct (decide (i = j)) as [<-|Hne].
    { rewrite list_lookup_insert_eq in Hj by by eapply lookup_lt_Some.
      injection Hj as <-. by exists u, p. }
    rewrite list_lookup_insert_ne in Hj by done.
    destruct (Htasks j tj Hj) as (u' & p' & Hjob' & Htj).
    exists u', p'. split; [done|].
    destruct Htj as [?|[(? & ? & ?)|[[? ?]|[? ?]]]].
    - by left.
    - right. left. split; [done|]. split; [done|]. by apply Hsent.
    - right. right. left. split; [done|]. by apply Hgrow.
    - right. right. right. split; [done|]. by apply Hsent. }
  destruct Ht as [->|[(-> & Hfresh & Hu)|[[-> Hex]|[[e ->] Hu]]]];
    cbn [task_step].
  - case_bool_decide as Hex; cbn [fst snd].
    { apply Hmake; [done..|]. right. right. by left. }
    assert (files w0 !! p = None) as Hfresh.
    { destruct (files w0 !! p) as [content|] eqn:Hp; [|done].
      destruct Hex. rewrite (Hold _ _ Hp). by eexists. }
    apply Hmake; cbn [files requests]; [done| |done|done| |].
    + intros v Hv. apply elem_of_app. by left.
    + intros v [Hv| ->%list_elem_of_singleton]%elem_of_app; [by apply Hreq|].
      right. by exists p.
    + right. left. split; [done|]. split; [done|].
      apply elem_of_app. right. by apply list_elem_of_singleton.
  - destruct (http_get u) as [content|e]; cbn [fst snd].
    2: { apply Hmake; [done..|]. right. right. right. split; [by eexists|done]. }
    destruct (writable p); cbn [fst snd].
    2: { apply Hmake; [done..|]. right. right. right. split; [by eexists|done]. }
    apply Hmake; cbn [files requests].
    + intros q Hq. destruct (decide (p = q)) as [<-|Hne].
      * rewrite lookup_insert_eq. by eexists.
      * by rewrite lookup_insert_ne.
    + done.
    + intros q content' Hq. rewrite lookup_insert_ne; [by apply Hold|].
      intros <-. congruence.
    + intros q. destruct (decide (p = q)) as [<-|Hne].
      * intros _. right. by apply (list_elem_of_fmap_2 snd _ (u, p)).
      * rewrite lookup_insert_ne by done. apply Hnew.
    + done.
    + right. right. left. split; [done|]. rewrite lookup_insert_eq.
      by eexists.
  - cbn [fst snd]. apply Hmake; [done..|]. right. right. by left.
  - cbn [fst snd]. apply Hmake; [done..|]. right. right. right.
    split; [by eexists|done].
Qed.

Lemma pool_invariant_run (w : world) (jobs : list (string * string))
    (sched : list nat) :
  pool_invariant w jobs
    (pool_run http_get writable sched (w, start jobs)).
Proof.
  unfold pool_run. generalize (pool_invariant_start w jobs).
  generalize (w, start jobs) as c. induction sched as [|i sched IH];
    intros c Hc; cbn [foldl]; [done|].
  by apply IH, pool_invariant_step.
Qed.

(** In whatever order the downloads proceed, and however far they get: a
    file that was there when the phase started keeps its content, every
    other file is the destination of a job, and requests are sent only
    for jobs whose destination was not there at the start. The requests
    are those sent: the request of a task that still waits for its
    response, or that has failed after sending it, is among them. *)
Theorem downloads_keep_files (w : world) (jobs : list (string * string))
    (sched : list nat) :
  let c := pool_run http_get writable sched (w, start jobs) in
  (∀ p content,
     files w !! p = Some content → files c.1 !! p = Some content) ∧
  (∀ p, is_Some (files c.1 !! p) → is_Some (files w !! p) ∨ p ∈ jobs.*2) ∧
  (∀ u, u ∈ requests c.1 →
     u ∈ requests w ∨ ∃ p, (u, p) ∈ jobs ∧ files w !! p = None) ∧
  (∀ i u p, c.2 !! i = Some (Waiting u p) →
     jobs !! i = Some (u, p) ∧ files w !! p = None ∧ u ∈ requests c.1) ∧
  (∀ i e u p, c.2 !! i = Some (Failed e) → jobs !! i = Some (u, p) →
     u ∈ requests c.1).
Proof.
  destruct (pool_invariant_run w jobs sched) as (_ & ? & ? & ? & Htasks).
  cbn zeta. split; [done|]. split; [done|]. split; [done|]. split.
  - intros i u p Hi. destruct (Htasks _ _ Hi) as (u' & p' & Hjob & Hcase).
    destruct Hcase as [?|[([= <- <-] & ? & ?)|[[? ?]|[[? ?] ?]]]]; done.
  - intros i e u p Hi Hjob.
    destruct (Htasks _ _ Hi) as (u' & p' & Hjob' & Hcase).
    rewrite Hjob in Hjob'. injection Hjob' as <- <-.
    destruct Hcase as [?|[(? & ? & ?)|[[? ?]|[? ?]]]]; done.
Qed.

Lemma downloads_done (w w' : world) (jobs : list (string * string))
    (sched : list nat) (ts : list task) :
  pool_run http_get writable sched (w, start jobs) = (w', ts) →
  Forall (λ t, t = Returned) ts →
  ∀ u p, (u, p) ∈ jobs → is_Some (files w' !! p).
Proof.
  intros Hrun Hall u p [i Hi]%list_elem_of_lookup.
  destruct (pool_invariant_run w jobs sched) as (Hlen & _ & _ & _ & Htasks).
  rewrite Hrun in Hlen, Htasks. cbn [fst snd] in *.
  destruct (lookup_lt_is_Some_2 ts i) as [t Ht].
  { rewrite Hlen. by eapply lookup_lt_Some. }
  destruct (Htasks i t Ht) as (u' & p' & Hjob & Hcase).
  rewrite Hi in Hjob. injection Hjob as <- <-.
  rewrite Forall_forall in Hall.
  rewrite (Hall t) in Hcase by by eapply list_elem_of_lookup_2.
  by destruct Hcase as [?|[(? & ? & ?)|[[? ?]|[[? ?] ?]]]].
Qed.

(** When every task of the download phase has returned, the destination
    of every job is on disk. *)
Theorem downloads_complete (w w' : world) (jobs : list (string * string))
    (sched : list nat) (ts : list task) :
  pool_run http_get writable sched (w, start jobs) = (w', ts) →
  Forall (λ t, t = Returned) ts →
  ∀ u p, (u, p) ∈ jobs → is_Some (files w' !! p).
Proof. apply downloads_done. Qed.

End pool_properties.

Section pool_schedules.
Variable http_get : string → result string.
Variable writable : string → bool.

Lemma pool_step_middle (w : world) (pre post : list task) (t : task) :
  pool_step http_get writable (w, pre ++ t :: post) (length pre) =
    ((task_step http_get writable w t).1,
     pre ++ (task_step http_get writable w t).2 :: post).
Proof.
  unfold pool_step. cbn [fst snd]. rewrite list_lookup_middle by done.
  f_equal. rewrite insert_app_r_alt by done.
  by rewrite Nat.sub_diag.
Qed.

Lemma one_by_one_from (jobs : list (string * string)) (w w' : world)
    (pre : list task) :
  for_each (download_each http_get writable) jobs w = Ok w' →
  pool_run http_get writable
    (i ← seq (length pre) (length jobs); [i; i]) (w, pre ++ start jobs) =
    (w', pre ++ replicate (length jobs) Returned).
Proof.
  revert w pre. induction jobs as [|[u p] jobs IH]; intros w pre H;
    cbn [for_each] in H.
  - by injection H as <-.
  - inv_bind. rename a into w1.
    cbn [length seq mbind list_bind app start fmap list_fmap fst snd].
    unfold pool_run. cbn [foldl]. rewrite pool_step_middle.
    fold (start jobs).
    assert (pool_step http_get writable
              ((task_step http_get writable w (Ready u p)).1,
               pre ++ (task_step http_get writable w (Ready u p)).2 ::
                 start jobs) (length pre) =
            (w1, (pre ++ [Returned]) ++ start jobs)) as ->.
    { unfold download_each, download_image in Ha. cbn [fst snd] in Ha.
      cbn [task_step]. case_bool_decide.
      - injection Ha as <-. cbn [fst snd]. rewrite pool_step_middle.
        by rewrite <-app_assoc.
      - cbn [fst snd]. rewrite pool_step_middle. cbn [task_step].
        destruct (http_get u) as [content|e]; [|done].
        cbn [mbind result_bind] in Ha.
        destruct (writable p); [|done]. injection Ha as <-.
        cbn [files requests printed fst snd]. by rewrite <-app_assoc. }
    specialize (IH w1 (pre ++ [Returned]) H).
    rewrite length_app, Nat.add_1_r in IH. unfold pool_run in IH.
    rewrite IH, <-app_assoc. done.
Qed.

(** Run one after the other, the tasks do what a loop over the jobs that
    calls [download_image] does: when the loop returns, every task has
    returned and the world is the one the loop leaves. *)
Theorem one_by_one_is_loop (jobs : list (string * string)) (w w' : world) :
  for_each (download_each http_get writable) jobs w = Ok w' →
  pool_run http_get writable (one_by_one (length jobs)) (w, start jobs) =
    (w', replicate (length jobs) Returned).
Proof. intros H. by apply (one_by_one_from jobs w w' []). Qed.

Lemma checks_first_from (jobs : list (string * string)) (w : world)
    (pre : list task) :
  Forall (λ job, files w !! job.2 = None) jobs →
  pool_run http_get writable (seq (length pre) (length jobs))
    (w, pre ++ start jobs) =
    (World (files w) (requests w ++ jobs.*1) (printed w),
     pre ++ in_flight jobs).
Proof.
  revert w pre. induction jobs as [|[u p] jobs IH]; intros w pre Hall.
  { destruct w as [fs rs ps]. unfold pool_run.
    cbn [length seq foldl fmap list_fmap files requests printed].
    by rewrite (app_nil_r rs). }
  apply Forall_cons in Hall as [Hp Hall]. cbn [fst snd] in Hp.
  cbn [length seq start in_flight fmap list_fmap fst snd].
  fold (start jobs) (in_flight jobs).
  unfold pool_run. cbn [foldl]. rewrite pool_step_middle. cbn [task_step].
  rewrite bool_decide_eq_false_2 by (rewrite Hp; by intros [? [=]]).
  cbn [fst snd].
  specialize (IH (World (files w) (requests w ++ [u]) (printed w))
                (pre ++ [Waiting u p]) Hall).
  unfold pool_run in IH. cbn [files requests printed] in IH.
  rewrite length_app, Nat.add_1_r, <-!app_assoc in IH. exact IH.
Qed.

Lemma responses_from (jobs : list (string * string)) (sched : list nat)
    (w : world) (ts : list task) :
  NoDup sched →
  (∀ i, i ∈ sched →
     ∃ u p, jobs !! i = Some (u, p) ∧ ts !! i = Some (Waiting u p) ∧
       is_Ok (http_get u) ∧ writable p = true) →
  let c := pool_run http_get writable sched (w, ts) in
  requests c.1 = requests w ∧
  length c.2 = length ts ∧
  (∀ i, i ∈ sched → c.2 !! i = Some Returned) ∧
  (∀ i, i ∉ sched → c.2 !! i = ts !! i).
Proof.
  revert w ts. induction sched as [|i sched IH]; intros w ts Hnd Hall.
  - unfold pool_run. cbn zeta. cbn [foldl fst snd].
    split; [done|]. split; [done|]. split; [|done].
    by intros i ?%elem_of_nil.
  - apply NoDup_cons in Hnd as [Hi Hnd].
    destruct (Hall i) as (u & p & Hjob & Hti & [content Hget] & Hwr);
      [by left|].
    unfold pool_run. cbn zeta. cbn [foldl].
    assert (pool_step http_get writable (w, ts) i =
            (World (<[p := content]> (files w)) (requests w)
               (printed w ++ ["[IMG] Saved " +:+ p]),
             <[i := Returned]> ts)) as ->.
    { unfold pool_step. cbn [fst snd]. rewrite Hti. cbn [task_step].
      by rewrite Hget, Hwr. }
    match goal with |- context [foldl _ (?w1, ?ts1) sched] =>
      destruct (IH w1 ts1 Hnd) as (Hreq & Hlen & Hret & Hrest) end.
    { intros j Hj. destruct (Hall j) as (u' & p' & ? & ? & ? & ?); [by right|].
      exists u', p'. split; [done|]. split; [|done].
      rewrite list_lookup_insert_ne; [done|]. by intros ->. }
    unfold pool_run in *. cbn [requests] in Hreq.
    split; [|split; [|split]].
    + done.
    + by rewrite Hlen, length_insert.
    + intros j [->|Hj]%elem_of_cons; [|by apply Hret].
      rewrite Hrest by done. apply list_lookup_insert_eq.
      by eapply lookup_lt_Some.
    + intros j [Hne Hj]%not_elem_of_cons. rewrite Hrest by done.
      by rewrite list_lookup_insert_ne.
Qed.

(** When every task makes its test before the response of any task is
    there, as it is when the requests are in flight together, every job
    whose destination was missing sends its request: also two jobs for
    the same destination, which is then written twice. *)
Theorem requests_in_flight (jobs : list (string * string)) (w : world)
    (order : list nat) :
  Forall (downloadable http_get writable w) jobs →
  order ≡ₚ seq 0 (length jobs) →
  let c :=
    pool_run http_get writable (seq 0 (length jobs) ++ order)
      (w, start jobs) in
  c.2 = replicate (length jobs) Returned ∧
  requests c.1 ≡ₚ requests w ++ jobs.*1.
Proof.
  intros Hall Horder. cbn zeta. unfold pool_run. rewrite foldl_app.
  pose proof (checks_first_from jobs w []) as Hfirst.
  unfold pool_run in Hfirst. cbn [length app] in Hfirst.
  rewrite Hfirst by (eapply Forall_impl; [exact Hall|]; by intros ? [? _]).
  destruct (responses_from jobs order
              (World (files w) (requests w ++ jobs.*1) (printed w))
              (in_flight jobs))
    as (Hreq & Hlen & Hret & _).
  { rewrite Horder. apply NoDup_seq. }
  { intros i Hi. rewrite Horder in Hi. apply elem_of_seq in Hi as [_ Hi].
    destruct (lookup_lt_is_Some_2 jobs i) as [[u p] Hjob]; [done|].
    exists u, p. split; [done|]. unfold in_flight.
    rewrite list_lookup_fmap, Hjob. split; [done|].
    rewrite Forall_forall in Hall.
    destruct (Hall (u, p)) as (_ & ? & ?); [|done].
    by eapply list_elem_of_lookup_2. }
  unfold pool_run in *. split.
  - apply list_eq. intros i. destruct (decide (i < length jobs)) as [Hi|Hi].
    + rewrite Hret, lookup_replicate_2; [done..|].
      rewrite Horder. apply elem_of_seq. lia.
    + rewrite !lookup_ge_None_2; [done|by rewrite length_replicate; lia|].
      rewrite Hlen. unfold in_flight. rewrite length_fmap. lia.
  - by rewrite Hreq.
Qed.

End pool_schedules.

(** ** From the run to the files *)

Section export_properties.
Variable urljoin : string → string → string.
Variable unquote : string → string.
Variable stem : string → string.
Variable fetch : string → result element.
Variable http_get : string → result string.
Variable writable : string → bool.

(** When the run has returned and every task of the download phase has
    returned, the image of every item and of every facility is a file
    below [export/]. *)
Theorem export_images_present (facility_names : list string) (st : state)
    (w w' : world) (sched : list nat) (ts : list task) :
  run urljoin unquote stem fetch facility_names = Ok st →
  pool_run http_get writable sched (w, start (img_jobs st)) = (w', ts) →
  Forall (λ t, t = Returned) ts →
  (∀ k it p, (k, it) ∈ items st → item_image it = Some p →
     is_Some (files w' !! ("export/" +:+ p))) ∧
  (∀ fid f p, facilities st !! fid = Some f → facility_image f = Some p →
     is_Some (files w' !! ("export/" +:+ p))).
Proof.
  intros Hrun Hpool Hall.
  apply run_queued in Hrun as [Hits Hfacs].
  pose proof (downloads_done http_get writable _ _ _ _ _ Hpool Hall) as Hdone.
  split.
  - intros k it p Hin Himg. destruct (Hits k it p Hin Himg) as [url Hjob].
    by eapply Hdone.
  - intros fid f p Hf Himg. destruct (Hfacs fid f p Hf Himg) as [url Hjob].
    by eapply Hdone.
Qed.

End export_properties.

(** ** More on the parsers *)

Lemma material_raises (name_el count_el : element) :
  raises (text_strip count_el ≫= Py.int) → raises (material name_el count_el).
Proof.
  intros [e He]. unfold material.
  destruct (text_strip count_el) as [t|e']; [|by eexists].
  cbn [mbind result_bind] in *. rewrite He. by eexists.
Qed.

(** A row that has an input tooltip and an output tooltip is no row to
    skip: when the count of its first output is missing or cannot be
    read, or when its time cell has no text, [get_recipes] raises.
    Without a count element for the output the exception is an
    [IndexError], provided the inputs can be read. *)
Theorem get_recipes_output_errors (tree row : element) :
  row ∈ recipe_rows tree →
  cell_divs 1 "item-tooltip" row ≠ [] →
  cell_divs 2 "item-tooltip" row ≠ [] →
  (cell_divs 2 "item-count" row = [] ∨
   (∃ c, head (cell_divs 2 "item-count" row) = Some c ∧
         raises (text_strip c ≫= Py.int)) ∨
   (∃ t, head (XPath.child_at "td" 3 row) = Some t ∧ el_text t = None)) →
  raises (get_recipes tree) ∧
  (inputs_readable row → cell_divs 2 "item-count" row = [] →
   get_recipes_row row = Raise IndexError).
Proof.
  intros Hrow Hin Hout Hbad. split.
  - eapply get_recipes_raises; [done|]. unfold get_recipes_row.
    destruct (cell_divs 1 "item-tooltip" row) as [|n ns]; [done|].
    destruct (mapM _ _) as [ms|e]; [|by eexists].
    cbn [mbind result_bind].
    destruct (cell_divs 2 "item-tooltip" row) as [|o os]; [done|].
    destruct Hbad as [Hcount|[(c & Hc & Hbad)|(t & Ht & Hnone)]].
    + rewrite Hcount. by eexists.
    + apply getitem_0 in Hc. rewrite Hc. cbn [mbind result_bind].
      by apply bind_Raise, material_raises.
    + destruct (Py.getitem _ 0) as [c|e]; [|by eexists].
      cbn [mbind result_bind].
      destruct (material o c) as [m|e]; [|by eexists].
      cbn [mbind result_bind].
      destruct (XPath.child_at "td" 3 row) as [|t' ?]; [done|].
      injection Ht as ->. unfold text_strip. rewrite Hnone. by eexists.
  - intros [ms Hms] Hcount. unfold get_recipes_row.
    destruct (cell_divs 1 "item-tooltip" row) as [|n ns]; [done|].
    rewrite Hms. cbn [mbind result_bind].
    destruct (cell_divs 2 "item-tooltip" row) as [|o os]; [done|].
    by rewrite Hcount.
Qed.

(** A row that can be read but has no third cell is dropped without a
    trace, also when its inputs and its output are in order. *)
Theorem get_recipes_short_row (tree row : element)
    (pre post : list element) :
  recipe_rows tree = pre ++ row :: post →
  XPath.child_at "td" 3 row = [] →
  is_Ok (get_recipes_row row) →
  get_recipes_row row = Ok None ∧
  get_recipes tree = for_each get_recipes_step (pre ++ post) [].
Proof.
  intros Hrows Htime [r Hr].
  assert (get_recipes_row row = Ok None) as Hnone.
  { rewrite Hr. f_equal. unfold get_recipes_row in Hr.
    destruct (cell_divs 1 "item-tooltip" row); [by injection Hr|].
    inv_bind.
    destruct (cell_divs 2 "item-tooltip" row); [by injection Hr|].
    inv_bind. rewrite Htime in Hr. by injection Hr. }
  split; [done|]. unfold get_recipes. rewrite Hrows.
  by apply get_recipes_skip.
Qed.

(** *** Trimmed labels and values *)

Lemma rstrip_rstrip (s : string) : Py.rstrip (Py.rstrip s) = Py.rstrip s.
Proof.
  induction s as [|c s IH]; [done|]. cbn [Py.rstrip].
  destruct (Py.rstrip s) as [|d r] eqn:Hr.
  - destruct (Py.isspace c) eqn:Hc; [done|]. cbn [Py.rstrip]. by rewrite Hc.
  - cbn [Py.rstrip]. cbn [Py.rstrip] in IH. rewrite IH. done.
Qed.

Lemma lstrip_rstrip (s : string) :
  Py.lstrip (Py.rstrip (Py.lstrip s)) = Py.rstrip (Py.lstrip s).
Proof.
  induction s as [|c s IH]; [done|]. cbn [Py.lstrip].
  destruct (Py.isspace c) eqn:Hc; [done|]. cbn [Py.rstrip].
  destruct (Py.rstrip s); rewrite ?Hc; cbn [Py.lstrip]; by rewrite Hc.
Qed.

Lemma strip_strip (s : string) : Py.strip (Py.strip s) = Py.strip s.
Proof. unfold Py.strip. by rewrite lstrip_rstrip, rstrip_rstrip. Qed.

(** Every entry [get_general_info] returns has a label and a value that
    are not empty and carry no white space at their ends. *)
Theorem get_general_info_trimmed (tree : element)
    (info : gmap string string) (k v : string) :
  get_general_info tree = Ok info → info !! k = Some v →
  k ≠ "" ∧ v ≠ "" ∧ Py.strip k = k ∧ Py.strip v = v.
Proof.
  intros [_ ->]%get_general_info_Ok (item & _ & He)%info_of_lookup.
  pose proof (entry_of_nonempty _ _ _ He) as [? ?].
  split; [done|]. split; [done|]. unfold entry_of in He.
  destruct (head (label_el item)) as [e|]; [|done].
  cbn [mbind option_bind] in He.
  destruct (el_text e) as [t|]; [|done]. cbn [mbind option_bind] in He.
  destruct (head (value_elements item)) as [w|]; [|done].
  cbn [mbind option_bind] in He. case_bool_decide; [|done].
  injection He as <- <-. by rewrite !strip_strip.
Qed.

(** *** The file name of an image *)

Lemma contains_cut_None (sep s : string) :
  Py.contains sep s = false ↔ Py.cut sep s = None.
Proof. unfold Py.contains. by destruct (Py.cut sep s). Qed.

Lemma cut_char_before (ch : ascii) (s a b : string) :
  Py.cut (String ch "") s = Some (a, b) →
  Py.contains (String ch "") a = false.
Proof.
  revert a. induction s as [|c s IH]; intros a.
  - by rewrite cut_nil.
  - rewrite cut_char_cons. destruct (decide (ch = c)) as [->|Hne].
    + by intros [= <- <-].
    + destruct (Py.cut (String ch "") s) as [[a' b']|] eqn:Hc; [|done].
      intros [= <- <-]. apply contains_cut_None. rewrite cut_char_cons.
      rewrite decide_False by done.
      specialize (IH a' eq_refl). apply contains_cut_None in IH.
      by rewrite IH.
Qed.

Lemma str_app_nil_r (s : string) : s +:+ "" = s.
Proof. induction s as [|c s IH]; [done|]. by rewrite str_app_cons, IH. Qed.

Lemma str_app_assoc (a b c : string) : (a +:+ b) +:+ c = a +:+ b +:+ c.
Proof. induction a as [|x a IH]; [done|]. by rewrite !str_app_cons, IH. Qed.

(** The last piece of [s.split(sep)] is what follows the last [sep]. *)
Lemma split_last_spec (sep s x : string) :
  sep ≠ "" → Py.getitem_last (Py.split sep s) = Ok x →
  Py.contains sep x = false ∧
  ∃ pre, s = pre +:+ x ∧ (pre = "" ∨ ∃ pre', pre = pre' +:+ sep).
Proof.
  intros Hsep. remember (String.length s) as n eqn:Hn. revert s Hn.
  induction n as [n IH] using lt_wf_ind. intros s Hn.
  destruct (Py.cut sep s) as [[a b]|] eqn:Hc.
  - rewrite (split_cut_Some _ _ _ _ Hsep Hc). unfold Py.getitem_last.
    rewrite last_cons.
    destruct (split_last sep b Hsep) as [y Hy].
    unfold Py.getitem_last in Hy.
    destruct (last (Py.split sep b)) as [z|] eqn:Hz; [|done].
    intros [= <-].
    pose proof (cut_length _ _ _ _ Hc) as Hlen.
    assert (0 < String.length sep) by (destruct sep; [done|simpl; lia]).
    destruct (IH (String.length b)) with (s := b) as (Hno & pre & Hb & Hpre);
      [lia|done|unfold Py.getitem_last; by rewrite Hz|].
    split; [done|]. exists (a +:+ sep +:+ pre). split.
    + apply cut_Some in Hc. rewrite Hc, Hb at 1.
      by rewrite !str_app_assoc.
    + right. destruct Hpre as [->|[pre' ->]].
      * exists a. by rewrite str_app_nil_r.
      * exists (a +:+ sep +:+ pre'). by rewrite !str_app_assoc.
  - rewrite (split_cut_None _ _ Hc). intros [= <-].
    split; [by apply contains_cut_None|]. exists "". split; [done|by left].
Qed.

Section image_names.
Variable unquote : string → string.

(** The file name of an image is cut from its URL between the last slash
    of the URL, wherever it is, and the first question mark after it;
    before it is decoded it holds neither a slash nor a question mark. *)
Theorem image_filename_segment (src : string) :
  ∃ pre seg rest,
    src = pre +:+ seg +:+ rest ∧
    image_filename unquote src = Ok (unquote seg) ∧
    (pre = "" ∨ ∃ pre', pre = pre' +:+ "/") ∧
    Py.contains "/" (seg +:+ rest) = false ∧
    Py.contains "?" seg = false ∧
    (rest = "" ∨ ∃ q, rest = "?" +:+ q).
Proof.
  destruct (split_last "/" src) as [x Hx]; [done|].
  destruct (split_last_spec "/" src x) as (Hno & pre & Hsrc & Hpre); [done..|].
  unfold image_filename. rewrite Hx. cbn [mbind result_bind].
  rewrite split_head by done. cbn [mbind result_bind]. unfold before.
  destruct (Py.cut "?" x) as [[a b]|] eqn:Hc.
  - exists pre, a, ("?" +:+ b). apply cut_char_before in Hc as Ha.
    apply cut_Some in Hc. rewrite <-Hc.
    repeat split; [done..|]. right. by exists b.
  - exists pre, x, "". apply contains_cut_None in Hc.
    rewrite str_app_nil_r.
    repeat split; [done..|]. by left.
Qed.

End image_names.

(** ** The recipes of a run *)

Lemma get_recipes_one_output (tree : element) (rs : list raw_recipe) :
  get_recipes tree = Ok rs → Forall (λ r, ∃ m, outputs r = [m]) rs.
Proof.
  unfold get_recipes.
  apply (for_each_invariant (Forall (λ r, ∃ m, outputs r = [m]))).
  - intros acc row acc' _ Hacc Hstep. unfold get_recipes_step in Hstep.
    inv_bind. subst acc'. apply Forall_app. split; [done|].
    destruct a as [r|]; [|constructor]. constructor; [|constructor].
    unfold get_recipes_row in Ha.
    destruct (cell_divs 1 "item-tooltip" row); [done|]. inv_bind.
    destruct (cell_divs 2 "item-tooltip" row); [done|]. inv_bind.
    destruct (XPath.child_at "td" 3 row); [done|]. inv_bind.
    subst. by eexists.
  - constructor.
Qed.

Section run_recipes.
Variable urljoin : string → string → string.
Variable unquote : string → string.
Variable stem : string → string.
Variable fetch : string → result element.

Lemma fetched_pages (facility_names : list string)
    (pages : list facility_page) :
  mapM (get_facility_and_recipes fetch) facility_names = Ok pages →
  Forall (λ page, ∃ tree, get_recipes tree = Ok (facility_recipes page)) pages.
Proof.
  intros H%mapM_Ok. induction H as [|fname page ? ? Hpage _ IH]; [constructor|].
  constructor; [|done]. unfold get_facility_and_recipes in Hpage.
  inv_bind. subst page. by exists a.
Qed.

(** Every recipe record of a run has exactly one output, and the id of
    the record names it: the id is the id of the facility, the item id
    of that output and a number from 1 on, joined by double
    underscores. *)
Theorem run_recipes_one_output (facility_names : list string) (st : state)
    (rid : string) (r : recipe) :
  run urljoin unquote stem fetch facility_names = Ok st →
  recipes st !! rid = Some r →
  ∃ ia n,
    recipe_outputs r = [ia] ∧ 1 ≤ n ∧
    recipe_id r = rid ∧
    rid = make_recipe_id (facilityId r) (itemId ia) n.
Proof.
  intros (pages & st2 & Hpages & Hagg & Hdet)%run_inv Hr.
  apply item_details_frame in Hdet as (_ & Hrec & _). rewrite Hrec in Hr.
  assert (is_Ok (aggregate urljoin unquote stem facility_names pages))
    as Hok by by eexists.
  apply for_each_process_returns in Hok.
  apply for_each_process_entries in Hagg as [_ HR].
  cbn [recipes initial_state] in HR. rewrite HR, assign_all_empty in Hr.
  apply elem_of_list_to_map_2 in Hr. rewrite elem_of_reverse in Hr.
  unfold recipe_entries in Hr.
  apply list_elem_of_bind in Hr as ([fname page] & Hr & Hp).
  unfold page_recipe_entries in Hr. cbn [fst snd] in Hr.
  apply elem_of_lookup_zip_with in Hr as (i & rid' & raw & [= <- ->] & Hid & Hraw).
  set (fid := Py.replace_space fname) in *.
  assert (page_usable page = true) as Hpage.
  { by apply (proj1 (forallb_elem_of _ _) Hok (fname, page)). }
  unfold page_usable in Hpage.
  assert (Forall (λ r, is_Some (first_out_id r)) (facility_recipes page))
    as Hall.
  { apply Forall_forall. intros r' Hr'.
    apply (proj1 (forallb_elem_of _ _) Hpage) in Hr'.
    apply recipe_usable_parts in Hr' as (_ & Hout & Hne).
    unfold first_out_id. destruct (outputs r') as [|m ms]; [done|].
    cbn [forallb] in Hout.
    apply andb_true_iff in Hout as [[n Hn]%material_named_Some _].
    cbn. rewrite Hn. by eexists. }
  assert (page ∈ pages) as Hin.
  { apply elem_of_zip_r in Hp. exact Hp. }
  apply fetched_pages in Hpages. rewrite Forall_forall in Hpages.
  destruct (Hpages page Hin) as (tree & Htree).
  apply get_recipes_one_output in Htree. rewrite Forall_forall in Htree.
  destruct (Htree raw) as [m Hm]; [by eapply list_elem_of_lookup_2|].
  destruct (proj1 (Forall_lookup _ _) Hall _ _ Hraw) as [o Ho].
  rewrite (recipe_ids_lookup _ _ _ _ _ Hall Hraw Ho) in Hid.
  injection Hid as Hid.
  unfold first_out_id in Ho. rewrite Hm in Ho. cbn in Ho.
  destruct (name m) as [n|] eqn:Hn; [|done]. injection Ho as <-.
  exists (ItemAmount (Py.replace_space n) (quantity m)),
    (occurrences (Py.replace_space n)
       (take (S i) (omap first_out_id (facility_recipes page)))).
  split; [|split; [|split; [done|exact (eq_sym Hid)]]].
  - cbn [recipe_outputs recipe_record]. rewrite Hm. unfold amounts.
    cbn [mapM]. unfold item_amount_of, material_name. by rewrite Hn.
  - apply occurrences_pos.
    rewrite (omap_first_out_lookup _ _ raw) by done.
    unfold first_out_id. rewrite Hm. cbn. by rewrite Hn.
Qed.

End run_recipes.

(** ** The order of the facility names *)

Lemma enumerates_Permutation (l l' : list string) (s : gset string) :
  enumerates l s → enumerates l' s → l' ≡ₚ l.
Proof.
  intros [Hnd H] [Hnd' H']. apply NoDup_Permutation; [done..|].
  intros x. by rewrite <-(elem_of_list_to_set (C:=gset string) x l'), H',
    <-H, elem_of_list_to_set.
Qed.

Lemma mapM_zip {A B} (f : A → result B) (l : list A) (k : list B) :
  mapM f l = Ok k →
  zip l k =
    omap (λ x, match f x with Ok y => Some (x, y) | Raise _ => None end) l.
Proof.
  intros H%mapM_Ok. induction H as [|x y l k Hxy _ IH]; [done|].
  cbn [zip zip_with omap list_omap]. rewrite Hxy. cbn. by f_equal.
Qed.

Lemma mapM_is_Ok {A B} (f : A → result B) (l : list A) :
  (∀ x, x ∈ l → is_Ok (f x)) → is_Ok (mapM f l).
Proof.
  induction l as [|x l IH]; intros Hall; cbn [mapM]; [by eexists|].
  destruct (Hall x) as [y ->]; [by left|]. cbn [mbind result_bind].
  destruct IH as [k ->]; [intros z ?; apply Hall; by right|]. by eexists.
Qed.

Lemma mapM_Ok_elem {A B} (f : A → result B) (l : list A) (k : list B) (x : A) :
  mapM f l = Ok k → x ∈ l → is_Ok (f x).
Proof.
  intros H%mapM_Ok Hx. induction H as [|x' y l k Hxy _ IH].
  - by apply elem_of_nil in Hx.
  - apply elem_of_cons in Hx as [->|Hx]; [by eexists|by apply IH].
Qed.

Lemma mapM_Permutation {A B} (f : A → result B) (l l' : list A) (k : list B) :
  mapM f l = Ok k → l' ≡ₚ l →
  ∃ k', mapM f l' = Ok k' ∧ zip l' k' ≡ₚ zip l k.
Proof.
  intros H Hperm. destruct (mapM_is_Ok f l') as [k' Hk'].
  { intros x Hx. eapply mapM_Ok_elem; [done|]. by rewrite <-Hperm. }
  exists k'. split; [done|].
  by rewrite (mapM_zip _ _ _ H), (mapM_zip _ _ _ Hk'), Hperm.
Qed.

Section order.
Variable urljoin : string → string → string.
Variable unquote : string → string.
Variable stem : string → string.
Variable fetch : string → result element.

Lemma get_item_info_page_id (n n' : string) :
  Py.replace_space n = Py.replace_space n' →
  get_item_info_page fetch n = get_item_info_page fetch n'.
Proof. intros H. unfold get_item_info_page. by rewrite H. Qed.

Lemma item_details_Ok (st : state) :
  (∀ n, n ∈ item_names (items st) → is_Ok (get_item_info_page fetch n)) →
  ∃ st', item_details urljoin unquote fetch st = Ok st' ∧
    facilities st' = facilities st ∧ recipes st' = recipes st ∧
    ODict.keys (items st') = ODict.keys (items st).
Proof.
  intros Hall. destruct (mapM_is_Ok _ _ Hall) as [results Hres].
  destruct (apply_item_details_spec urljoin unquote fetch (items st) results)
    as (r & Hr & _).
  { apply mapM_Ok in Hres. unfold item_names, ODict.values in Hres.
    rewrite <-list_fmap_compose in Hres. apply Forall2_fmap_l in Hres.
    eapply Forall2_impl; [exact Hres|]. by intros [k it] res. }
  eexists. unfold item_details. rewrite Hres. cbn [mbind result_bind].
  rewrite Hr. cbn [mbind result_bind]. split; [done|].
  cbn [facilities recipes items]. split; [done|]. split; [done|].
  by eapply apply_item_details_keys.
Qed.

(** The facilities and the recipes of a run do not depend on the order in
    which the set of facility names is listed, as long as the facility
    ids and the recipe ids are pairwise distinct: a run on another
    listing of the set returns as well, with the same two maps and the
    same item keys. *)
Theorem run_order_independent (s : gset string)
    (facility_names names' : list string) (pages : list facility_page)
    (st : state) :
  get_facilities fetch = Ok s →
  enumerates facility_names s → enumerates names' s →
  mapM (get_facility_and_recipes fetch) facility_names = Ok pages →
  run urljoin unquote stem fetch facility_names = Ok st →
  NoDup (facility_ids (zip facility_names pages)) →
  NoDup (all_recipe_ids (zip facility_names pages)) →
  ∃ st',
    run urljoin unquote stem fetch names' = Ok st' ∧
    facilities st' = facilities st ∧ recipes st' = recipes st ∧
    ODict.keys (items st') ≡ₚ ODict.keys (items st).
Proof.
  intros _ Hl Hl' Hpages Hrun Hfids Hrids.
  pose proof (enumerates_Permutation _ _ _ Hl Hl') as Hperm.
  destruct (run_inv _ _ _ _ _ _ Hrun) as (pages0 & st2 & Hpages0 & Hagg & Hdet).
  rewrite Hpages in Hpages0. injection Hpages0 as <-.
  destruct (mapM_Permutation _ _ _ _ Hpages Hperm) as (pages' & Hpages' & Hzip).
  destruct (aggregate_permuted urljoin unquote stem _ _ _ _ _ Hagg Hzip
              Hfids Hrids) as (st2' & Hagg' & HF & HR & Hkeys).
  pose proof (item_details_frame _ _ _ _ _ Hdet) as (HF2 & HR2 & Hk2).
  destruct (item_details_Ok st2') as (st' & Hdet' & HF' & HR' & Hk').
  { intros n' Hn'. unfold item_names, ODict.values in Hn'.
    rewrite <-list_fmap_compose in Hn'.
    apply list_elem_of_fmap in Hn' as ([k' it'] & -> & Hin'). cbn.
    apply aggregate_items in Hagg' as ([_ Hfresh'] & _ & _).
    apply aggregate_items in Hagg as ([_ Hfresh] & _ & _).
    rewrite Forall_forall in Hfresh, Hfresh'.
    destruct (Hfresh' _ Hin') as (_ & Hk'n & _). cbn [fst snd] in Hk'n.
    assert (k' ∈ ODict.keys (items st2)) as Hk.
    { rewrite <-Hkeys. by apply (list_elem_of_fmap_2 fst _ (k', it')). }
    apply list_elem_of_fmap in Hk as ([k it] & Hkk & Hin). cbn in Hkk.
    subst k. destruct (Hfresh _ Hin) as (_ & Hkn & _). cbn [fst snd] in Hkn.
    rewrite (get_item_info_page_id (item_name_en it') (item_name_en it))
      by congruence.
    unfold item_details in Hdet. inv_bind.
    eapply mapM_Ok_elem; [exact Ha|]. unfold item_names, ODict.values.
    rewrite <-list_fmap_compose.
    by apply (list_elem_of_fmap_2 (item_name_en ∘ snd) _ (k', it)). }
  exists st'. split.
  - unfold run. rewrite Hpages'. cbn [mbind result_bind].
    rewrite Hagg'. done.
  - split; [congruence|]. split; [congruence|]. by rewrite Hk', Hk2.
Qed.

End order.

(** ** The image queries *)

Lemma element_induction (P : element → Prop) :
  (∀ t a x cs tl, Forall P cs → P (Element t a x cs tl)) → ∀ e, P e.
Proof.
  intros H. fix IH 1. intros [t a x cs tl]. apply H.
  induction cs as [|c cs IHcs]; constructor; [apply IH|exact IHcs].
Qed.

Lemma descendants_elem (e x : element) :
  x ∈ XPath.descendants e ↔
  ∃ c, c ∈ el_children e ∧ (x = c ∨ x ∈ XPath.descendants c).
Proof.
  destruct e as [t a tx cs tl]. cbn [XPath.descendants el_children].
  induction cs as [|c cs IH].
  - split; [by intros ?%elem_of_nil|]. by intros (c & ?%elem_of_nil & _).
  - rewrite elem_of_cons, elem_of_app, IH. split.
    + intros [->|[Hx|(c' & Hc' & Hx)]].
      * exists c. split; [by left|by left].
      * exists c. split; [by left|by right].
      * exists c'. split; [by right|done].
    + intros (c' & [->|Hc']%elem_of_cons & Hx).
      * destruct Hx as [->|Hx]; [by left|right; by left].
      * right. right. by exists c'.
Qed.

Lemma under_elem (P : element → bool) (inside : bool) (e x : element) :
  x ∈ XPath.under P inside e ↔
  ∃ c, c ∈ el_children e ∧
    ((inside || P e = true ∧ x = c) ∨ x ∈ XPath.under P (inside || P e) c).
Proof.
  destruct e as [t a tx cs tl]. cbn [XPath.under el_children].
  set (ins := inside || P (Element t a tx cs tl)). clearbody ins.
  induction cs as [|c cs IH].
  - split; [by intros ?%elem_of_nil|]. by intros (c & ?%elem_of_nil & _).
  - rewrite !elem_of_app, IH. split.
    + intros [Hx|[Hx|(c' & Hc' & Hx)]].
      * destruct ins; [|by apply elem_of_nil in Hx].
        apply list_elem_of_singleton in Hx as ->.
        exists c. split; [by left|by left].
      * exists c. split; [by left|by right].
      * exists c'. split; [by right|done].
    + intros (c' & [->|Hc']%elem_of_cons & Hx).
      * destruct Hx as [[-> ->]|Hx]; [left; by apply list_elem_of_singleton|].
        right. by left.
      * right. right. by exists c'.
Qed.

Lemma descendants_trans (e a x : element) :
  a ∈ XPath.descendants e → x ∈ XPath.descendants a →
  x ∈ XPath.descendants e.
Proof.
  revert a x. induction e as [t at' tx cs tl IH] using element_induction.
  intros a x Ha Hx. apply descendants_elem in Ha as (c & Hc & Ha).
  apply descendants_elem. exists c. split; [done|]. right.
  destruct Ha as [->|Ha]; [done|].
  rewrite Forall_forall in IH. by eapply IH.
Qed.

(** [//*[P]//*]: the elements below an element that satisfies [P]. *)
Lemma under_spec (P : element → bool) (tree x : element) :
  x ∈ XPath.under P false tree ↔
  ∃ a, a ∈ XPath.all tree ∧ P a = true ∧ x ∈ XPath.descendants a.
Proof.
  assert (∀ e inside,
    x ∈ XPath.under P inside e ↔
    (inside || P e = true ∧ x ∈ XPath.descendants e) ∨
    ∃ a, a ∈ XPath.descendants e ∧ P a = true ∧ x ∈ XPath.descendants a)
    as Hgen.
  { induction e as [t at' tx cs tl IH] using element_induction.
    intros inside. rewrite Forall_forall in IH.
    set (e := Element t at' tx cs tl) in *.
    rewrite under_elem. split.
    - intros (c & Hc & [[Hins ->]|Hx]).
      + left. split; [done|]. apply descendants_elem. exists c. by split; [|left].
      + apply (IH c Hc) in Hx as [[Hins Hx]|(a & Ha & HP & Hx)].
        * apply orb_true_iff in Hins as [Hins|HPc].
          -- left. split; [done|]. apply descendants_elem.
             exists c. by split; [|right].
          -- right. exists c. split; [|done]. apply descendants_elem.
             exists c. by split; [|left].
        * right. exists a. split; [|done]. apply descendants_elem.
          exists c. by split; [|right].
    - intros [[Hins (c & Hc & Hx)%descendants_elem]|(a & Ha & HP & Hx)].
      + exists c. split; [done|]. destruct Hx as [->|Hx]; [by left|].
        right. apply (IH c Hc). left. split; [|done]. by rewrite Hins.
      + apply descendants_elem in Ha as (c & Hc & Ha).
        exists c. split; [done|]. right. apply (IH c Hc).
        destruct Ha as [->|Ha].
        * left. split; [|done]. rewrite HP. by rewrite orb_true_r.
        * right. by exists a. }
  rewrite Hgen. unfold XPath.all. cbn [orb]. split.
  - intros [[HP Hx]|(a & Ha & HP & Hx)].
    + exists tree. split; [by left|done].
    + exists a. split; [by right|done].
  - intros (a & [->|Ha]%elem_of_cons & HP & Hx); [by left|right].
    by exists a.
Qed.

(** [extract_item_images] returns the [src] attributes of the [img]
    elements that lie below a division of class [item-tooltip], and
    nothing else. *)
Theorem extract_item_images_spec (tree : element) (src : string) :
  src ∈ extract_item_images tree ↔
  ∃ tip img,
    tip ∈ XPath.all tree ∧ XPath.is_tag "div" tip = true ∧
    XPath.class_is "item-tooltip" tip = true ∧
    img ∈ XPath.descendants tip ∧ XPath.is_tag "img" img = true ∧
    el_get img "src" = Some src.
Proof.
  unfold extract_item_images. rewrite list_elem_of_omap.
  setoid_rewrite list_elem_of_filter. setoid_rewrite under_spec. split.
  - intros (img & (Himg & tip & Htip & [? ?]%andb_true_iff & Hdesc) & Hsrc).
    by exists tip, img.
  - intros (tip & img & Htip & Hdiv & Hclass & Hdesc & Himg & Hsrc).
    exists img. split; [|done]. split; [done|]. exists tip.
    split; [done|]. split; [|done]. by rewrite Hdiv, Hclass.
Qed.

(** [extract_main_image] returns a [src] attribute of an [img] element
    that lies below a [figure] whose class contains [pi-image], and
    [None] exactly when the page has no such image. *)
Theorem extract_main_image_spec (tree : element) :
  (∀ src, extract_main_image tree = Some src →
     ∃ fig img,
       fig ∈ XPath.all tree ∧ XPath.is_tag "figure" fig = true ∧
       XPath.class_contains "pi-image" fig = true ∧
       img ∈ XPath.descendants fig ∧ XPath.is_tag "img" img = true ∧
       el_get img "src" = Some src) ∧
  (extract_main_image tree = None ↔
   ∀ fig img,
     fig ∈ XPath.all tree → XPath.is_tag "figure" fig = true →
     XPath.class_contains "pi-image" fig = true →
     img ∈ XPath.descendants fig → XPath.is_tag "img" img = true →
     el_get img "src" = None).
Proof.
  assert (∀ src, src ∈ main_image_srcs tree ↔
    ∃ fig img,
      fig ∈ XPath.all tree ∧ XPath.is_tag "figure" fig = true ∧
      XPath.class_contains "pi-image" fig = true ∧
      img ∈ XPath.descendants fig ∧ XPath.is_tag "img" img = true ∧
      el_get img "src" = Some src) as Hsrcs.
  { intros src. unfold main_image_srcs. rewrite list_elem_of_omap.
    setoid_rewrite list_elem_of_filter. setoid_rewrite under_spec. split.
    - intros (img & (Himg & fig & Hfig & [? ?]%andb_true_iff & Hdesc) & Hsrc).
      by exists fig, img.
    - intros (fig & img & Hfig & Htag & Hclass & Hdesc & Himg & Hsrc).
      exists img. split; [|done]. split; [done|]. exists fig.
      split; [done|]. split; [|done]. by rewrite Htag, Hclass. }
  unfold extract_main_image. split.
  - intros src Hhead. apply Hsrcs.
    destruct (main_image_srcs tree) as [|s l]; [done|].
    injection Hhead as ->. by left.
  - split.
    + intros Hnone fig img Hfig Htag Hclass Hdesc Himg.
      destruct (el_get img "src") as [src|] eqn:Hsrc; [|done].
      assert (src ∈ main_image_srcs tree) as Hin.
      { apply Hsrcs. by exists fig, img. }
      destruct (main_image_srcs tree); [by apply elem_of_nil in Hin|done].
    + intros Hall. destruct (main_image_srcs tree) as [|s l] eqn:Hl; [done|].
      assert (s ∈ s :: l) as Hin by by left.
      apply Hsrcs in Hin as (fig & img & ? & ? & ? & ? & ? & Hsrc).
      rewrite (Hall fig img) in Hsrc by done. done.
Qed.

(** ** The properties on the small wiki *)

Lemma get_facilities_titles_witness :
  facility_titles efdb_page = list_to_set wiki_names ∧
  ∃ s, get_facilities wiki = Ok s ∧
    ("Thermal Bank" ∈ s ↔
     ∃ h p i j hd box a,
       (h = "Processing" ∨ h = "Assembly") ∧
       p ∈ XPath.all efdb_page ∧
       el_children p !! i = Some hd ∧ has_heading h hd = true ∧ i < j ∧
       el_children p !! j = Some box ∧ is_listbox box = true ∧
       a ∈ XPath.descendants box ∧ XPath.is_tag "a" a = true ∧
       el_get a "title" = Some "Thermal Bank").
Proof.
  split; [vm_compute; reflexivity|].
  apply (get_facilities_titles wiki efdb_page "Thermal Bank"). reflexivity.
Defined.

Lemma aggregate_facilities_witness :
  ∃ st,
    aggregate urljoin_plain unquote_plain stem_plain
      ["Smelter"; "Grinder"] [smelter_page; grinder_page] = Ok st ∧
    facilities st =
      list_to_map
        (reverse (facility_entries
                    (zip ["Smelter"; "Grinder"] [smelter_page; grinder_page]))).
Proof.
  eexists. split; [vm_compute; reflexivity|].
  apply (aggregate_facilities urljoin_plain unquote_plain stem_plain
           ["Smelter"; "Grinder"] [smelter_page; grinder_page]).
  vm_compute. reflexivity.
Defined.

Lemma aggregate_recipes_witness :
  ∃ st,
    aggregate urljoin_plain unquote_plain stem_plain
      ["Smelter"; "Grinder"] [smelter_page; grinder_page] = Ok st ∧
    recipes st =
      list_to_map
        (reverse (recipe_entries
                    (zip ["Smelter"; "Grinder"] [smelter_page; grinder_page]))).
Proof.
  eexists. split; [vm_compute; reflexivity|].
  apply (aggregate_recipes urljoin_plain unquote_plain stem_plain
           ["Smelter"; "Grinder"] [smelter_page; grinder_page]).
  vm_compute. reflexivity.
Defined.

Lemma aggregate_items_exact_witness :
  ∃ st,
    aggregate urljoin_plain unquote_plain stem_plain
      ["Smelter"; "Grinder"] [smelter_page; grinder_page] = Ok st ∧
    ODict.keys (items st) = ["Iron_Ore"; "Iron_Ingot"; "Iron_Dust"] ∧
    NoDup (ODict.keys (items st)) ∧
    (∀ k, k ∈ ODict.keys (items st) ↔
          k ∈ page_item_ids
                (zip ["Smelter"; "Grinder"] [smelter_page; grinder_page])) ∧
    Forall item_fresh (items st).
Proof.
  eexists. split; [vm_compute; reflexivity|].
  split; [vm_compute; reflexivity|].
  apply (aggregate_items_exact urljoin_plain unquote_plain stem_plain
           ["Smelter"; "Grinder"] [smelter_page; grinder_page]).
  vm_compute. reflexivity.
Defined.

Lemma run_items_sound_witness :
  run urljoin_plain unquote_plain stem_plain wiki wiki_names = Ok wiki_state ∧
  ODict.keys (items wiki_state) = ["Ore"; "Ingot"; "Plate"] ∧
  NoDup (item_id <$> ODict.values (items wiki_state)) ∧
  Forall (λ kv, item_id kv.2 = kv.1 ∧
                kv.1 = Py.replace_space (item_name_en kv.2))
    (items wiki_state).
Proof.
  split; [vm_compute; reflexivity|]. split; [vm_compute; reflexivity|].
  apply (run_items_sound urljoin_plain unquote_plain stem_plain wiki
           wiki_names wiki_state).
  vm_compute. reflexivity.
Defined.

Lemma run_images_queued_witness :
  (∀ k it p, (k, it) ∈ items wiki_state → item_image it = Some p →
     ∃ url, (url, "export/" +:+ p) ∈ img_jobs wiki_state) ∧
  (∀ fid f p, facilities wiki_state !! fid = Some f →
     facility_image f = Some p →
     ∃ url, (url, "export/" +:+ p) ∈ img_jobs wiki_state).
Proof.
  apply (run_images_queued urljoin_plain unquote_plain stem_plain wiki
           wiki_names wiki_state).
  vm_compute. reflexivity.
Defined.

Lemma run_item_tiers_witness :
  item_tier <$> ODict.values (items wiki_state) =
    [Some "2"; Some "2"; Some "2"] ∧
  Forall (λ kv, ∃ res,
            get_item_info_page wiki (item_name_en kv.2) = Ok res ∧
            item_tier kv.2 = res.2 !! "Tier") (items wiki_state).
Proof.
  split; [vm_compute; reflexivity|].
  apply (run_item_tiers urljoin_plain unquote_plain stem_plain wiki
           wiki_names wiki_state).
  vm_compute. reflexivity.
Defined.

Lemma aggregate_raises_unusable_witness :
  raises (aggregate urljoin_plain unquote_plain stem_plain
            ["Smelter"; "Grinder"] [smelter_page; nameless_page]) ∧
  ∀ st, aggregate urljoin_plain unquote_plain stem_plain
          ["Smelter"; "Grinder"] [smelter_page; nameless_page] ≠ Ok st.
Proof.
  apply (aggregate_raises_unusable urljoin_plain unquote_plain stem_plain
           ["Smelter"; "Grinder"] [smelter_page; nameless_page]).
  reflexivity.
Defined.

Lemma aggregate_order_independent_witness :
  ∃ st',
    aggregate urljoin_plain unquote_plain stem_plain
      ["Grinder"; "Smelter"] [grinder_page; smelter_page] = Ok st' ∧
    facilities st' = facilities smelter_grinder_state ∧
    recipes st' = recipes smelter_grinder_state ∧
    ODict.keys (items st') ≡ₚ ODict.keys (items smelter_grinder_state).
Proof.
  apply (aggregate_order_independent urljoin_plain unquote_plain stem_plain
           ["Smelter"; "Grinder"] ["Grinder"; "Smelter"]
           [smelter_page; grinder_page] [grinder_page; smelter_page]
           smelter_grinder_state).
  - vm_compute. reflexivity.
  - apply perm_swap.
  - apply (bool_decide_unpack _). vm_compute. exact I.
  - apply (bool_decide_unpack _). vm_compute. exact I.
Defined.

Lemma aggregate_references_witness :
  (∀ rid r, recipes smelter_grinder_state !! rid = Some r →
     recipe_id r = rid ∧
     is_Some (facilities smelter_grinder_state !! facilityId r)) ∧
  (∀ fid f, facilities smelter_grinder_state !! fid = Some f →
     facility_id f = fid ∧
     ∀ rid, rid ∈ supportedRecipes f →
       is_Some (recipes smelter_grinder_state !! rid)).
Proof.
  apply (aggregate_references urljoin_plain unquote_plain stem_plain
           ["Smelter"; "Grinder"] [smelter_page; grinder_page]
           smelter_grinder_state).
  vm_compute. reflexivity.
Defined.

Lemma downloads_complete_witness :
  Forall (λ t, t = Returned) wiki_downloads.2 ∧
  ∀ u p, (u, p) ∈ img_jobs wiki_state →
    is_Some (files wiki_downloads.1 !! p).
Proof.
  assert (Forall (λ t, t = Returned) wiki_downloads.2) as Hall.
  { vm_compute. repeat constructor. }
  split; [exact Hall|].
  apply (downloads_complete serve_png any_path empty_world wiki_downloads.1
           (img_jobs wiki_state) (one_by_one (length (img_jobs wiki_state)))
           wiki_downloads.2); [|exact Hall].
  apply surjective_pairing.
Defined.

Lemma one_by_one_is_loop_witness :
  ∃ w',
    for_each (download_each serve_png any_path) twin_jobs empty_world = Ok w' ∧
    requests w' = ["https://endfield.wiki.gg/images/Ore.png?1"] ∧
    pool_run serve_png any_path (one_by_one (length twin_jobs))
      (empty_world, start twin_jobs) =
      (w', replicate (length twin_jobs) Returned).
Proof.
  eexists. split; [vm_compute; reflexivity|]. split; [reflexivity|].
  apply (one_by_one_is_loop serve_png any_path twin_jobs empty_world).
  vm_compute. reflexivity.
Defined.

Lemma requests_in_flight_witness :
  let c :=
    pool_run serve_png any_path (seq 0 (length twin_jobs) ++ [1; 0])
      (empty_world, start twin_jobs) in
  c.2 = replicate (length twin_jobs) Returned ∧
  requests c.1 ≡ₚ requests empty_world ++ twin_jobs.*1.
Proof.
  apply (requests_in_flight serve_png any_path twin_jobs empty_world [1; 0]).
  - repeat constructor; by eexists.
  - apply perm_swap.
Defined.

Lemma export_images_present_witness :
  (∀ k it p, (k, it) ∈ items wiki_state → item_image it = Some p →
     is_Some (files wiki_downloads.1 !! ("export/" +:+ p))) ∧
  (∀ fid f p, facilities wiki_state !! fid = Some f →
     facility_image f = Some p →
     is_Some (files wiki_downloads.1 !! ("export/" +:+ p))).
Proof.
  apply (export_images_present urljoin_plain unquote_plain stem_plain wiki
           serve_png any_path wiki_names wiki_state empty_world
           wiki_downloads.1 (one_by_one (length (img_jobs wiki_state)))
           wiki_downloads.2).
  - vm_compute. reflexivity.
  - apply surjective_pairing.
  - vm_compute. repeat constructor.
Defined.

Lemma get_recipes_output_errors_witness :
  raises (get_recipes (recipe_page [row_output_without_count])) ∧
  (inputs_readable row_output_without_count →
   cell_divs 2 "item-count" row_output_without_count = [] →
   get_recipes_row row_output_without_count = Raise IndexError).
Proof.
  apply (get_recipes_output_errors (recipe_page [row_output_without_count])
           row_output_without_count).
  - vm_compute. left.
  - vm_compute. discriminate.
  - vm_compute. discriminate.
  - left. reflexivity.
Defined.

Lemma get_recipes_short_row_witness :
  get_recipes_row row_two_cells = Ok None ∧
  get_recipes (recipe_page [row_two_cells; row_ore_ingot]) =
    for_each get_recipes_step ([] ++ [row_ore_ingot]) [].
Proof.
  apply (get_recipes_short_row (recipe_page [row_two_cells; row_ore_ingot])
           row_two_cells [] [row_ore_ingot]).
  - reflexivity.
  - reflexivity.
  - eexists. vm_compute. reflexivity.
Defined.

Lemma get_general_info_trimmed_witness :
  ∃ info,
    get_general_info page_tier = Ok info ∧ info !! "Tier" = Some "2" ∧
    "Tier" ≠ "" ∧ "2" ≠ "" ∧ Py.strip "Tier" = "Tier" ∧ Py.strip "2" = "2".
Proof.
  eexists. split; [vm_compute; reflexivity|].
  split; [vm_compute; reflexivity|].
  eapply (get_general_info_trimmed page_tier _ "Tier" "2").
  - vm_compute. reflexivity.
  - vm_compute. reflexivity.
Defined.

Lemma run_recipes_one_output_witness :
  ∃ r ia n,
    recipes wiki_state !! "Fitting_Unit__Plate__1" = Some r ∧
    recipe_outputs r = [ia] ∧ 1 ≤ n ∧
    recipe_id r = "Fitting_Unit__Plate__1" ∧
    "Fitting_Unit__Plate__1" = make_recipe_id (facilityId r) (itemId ia) n.
Proof.
  eexists. 
  assert (∀ r, recipes wiki_state !! "Fitting_Unit__Plate__1" = Some r →
    ∃ ia n, recipe_outputs r = [ia] ∧ 1 ≤ n ∧
      recipe_id r = "Fitting_Unit__Plate__1" ∧
      "Fitting_Unit__Plate__1" = make_recipe_id (facilityId r) (itemId ia) n)
    as H.
  { intros r. apply (run_recipes_one_output urljoin_plain unquote_plain
                       stem_plain wiki wiki_names wiki_state).
    vm_compute. reflexivity. }
  edestruct H as (ia & n & ?); [vm_compute; reflexivity|].
  exists ia, n. split; [vm_compute; reflexivity|]. done.
Defined.

Lemma run_order_independent_witness :
  ∃ st',
    run urljoin_plain unquote_plain stem_plain wiki (reverse wiki_names)
      = Ok st' ∧
    facilities st' = facilities wiki_state ∧
    recipes st' = recipes wiki_state ∧
    ODict.keys (items st') ≡ₚ ODict.keys (items wiki_state).
Proof.
  apply (run_order_independent urljoin_plain unquote_plain stem_plain wiki
           (facility_titles efdb_page) wiki_names (reverse wiki_names)
           wiki_pages wiki_state).
  - reflexivity.
  - split; [apply (bool_decide_unpack _); vm_compute; exact I|].
    vm_compute. reflexivity.
  - split; [apply (bool_decide_unpack _); vm_compute; exact I|].
    vm_compute. reflexivity.
  - vm_compute. reflexivity.
  - vm_compute. reflexivity.
  - apply (bool_decide_unpack _). vm_compute. exact I.
  - apply (bool_decide_unpack _). vm_compute. exact I.
Defined.
